(** * The poweropti backup notebook ([src/backup.ipynb])

    A shallow embedding of the backup driver of the Powerfox API client:
    the name of the output file, the computation of the default date
    range, the day fetcher [backup_date] with its retry loop, the flush
    [append_to_json_file] and the driver [backup].

    The notebook talks to three things outside itself: the vendor API
    (through [api.get_historical_data_raw]), the console and the clock
    ([print], [sleep]) and the file system.  They are modelled by a
    [World]: the state of the API, the files, and the log of every
    effect performed so far, in the order it happened.

    The API client ([powerfox_api]) is not part of the notebook: the
    call and the serialiser of the payloads are parameters.  The
    embedding covers the runs in which the file operations succeed (an
    [OSError] would end the run) on a system whose line separator is
    the line feed; exceptions that are not an [Exception]
    ([KeyboardInterrupt]) are not modelled. *)

From Stdlib Require Import ZArith List String Ascii Bool Lia DecimalString Sorted.
From Equations Require Import Equations.
From stdpp Require Import gmap strings.
Import ListNotations.

Local Open Scope string_scope.
Local Open Scope list_scope.
Local Open Scope Z_scope.

(** ** Python's [datetime.date], as far as the notebook uses it *)

Module Datetime.

(** A [date] is represented by its proleptic Gregorian ordinal
    ([date.toordinal()]): day 1 is 0001-01-01.  Python implements the
    arithmetic of dates on this number. *)
Definition date := Z.

(** [date.max.toordinal()], the ordinal of 9999-12-31. *)
Definition MAXORDINAL : Z := 3652059.

Definition valid (d : date) : Prop := 1 <= d <= MAXORDINAL.

(** A [timedelta] of whole days, and [timedelta(days=n)], which raises
    [OverflowError] (here [None]) beyond 999999999 days. *)
Record timedelta := { days : Z }.

Definition timedelta_of_days (n : Z) : option timedelta :=
  if Z.abs n <=? 999999999 then Some {| days := n |} else None.

(** [date + timedelta]: [OverflowError] (here [None]) when the result
    leaves the range of representable dates. *)
Definition add (d : date) (t : timedelta) : option date :=
  let o := d + days t in
  if (0 <? o) && (o <=? MAXORDINAL) then Some o else None.

(** [date - date]: the days between two dates, fewer than [MAXORDINAL]. *)
Definition sub (a b : date) : timedelta := {| days := a - b |}.

(** [_days_before_month], [_days_in_month] and [_ord2ymd] of CPython's
    [datetime.py]: the year, month and day of an ordinal. *)
Definition days_before_month (leap : bool) (month : Z) : Z :=
  (match month with
   | 1 => 0 | 2 => 31 | 3 => 59 | 4 => 90 | 5 => 120 | 6 => 151
   | 7 => 181 | 8 => 212 | 9 => 243 | 10 => 273 | 11 => 304 | 12 => 334
   | _ => 0
   end) + (if (2 <? month) && leap then 1 else 0).

Definition days_in_month (leap : bool) (month : Z) : Z :=
  match month with
  | 2 => if leap then 29 else 28
  | 4 | 6 | 9 | 11 => 30
  | _ => 31
  end.

Definition ord2ymd (n : Z) : Z * Z * Z :=
  let n := n - 1 in
  let n400 := n / 146097 in
  let n := n mod 146097 in
  let year := n400 * 400 + 1 in
  let n100 := n / 36524 in
  let n := n mod 36524 in
  let n4 := n / 1461 in
  let n := n mod 1461 in
  let n1 := n / 365 in
  let n := n mod 365 in
  let year := year + n100 * 100 + n4 * 4 + n1 in
  if (n1 =? 4) || (n100 =? 4) then (year - 1, 12, 31)
  else
    let leapyear := (n1 =? 3) && (negb (n4 =? 24) || (n100 =? 3)) in
    let month := Z.shiftr (n + 50) 5 in
    let preceding := days_before_month leapyear month in
    if n <? preceding
    then
      let month := month - 1 in
      let preceding := preceding - days_in_month leapyear month in
      (year, month, n - preceding + 1)
    else (year, month, n - preceding + 1).

(** [_is_leap], [_days_before_year] and [_ymd2ord] of [datetime.py]:
    the ordinal of a date given by its year, month and day. *)
Definition is_leap (year : Z) : bool :=
  (year mod 4 =? 0) && (negb (year mod 100 =? 0) || (year mod 400 =? 0)).

Definition days_before_year (year : Z) : Z :=
  let y := year - 1 in y * 365 + y / 4 - y / 100 + y / 400.

Definition ymd2ord (year month day : Z) : Z :=
  days_before_year year + days_before_month (is_leap year) month + day.

(** A year written with its digits in the mixed base 400, 100, 4, 1. *)
Definition year_of (a b c d : Z) : Z := 400 * a + 100 * b + 4 * c + d + 1.

Definition digit (n : Z) : ascii := ascii_of_nat (48 + Z.to_nat (n mod 10)).

(** ["%04d"] and ["%02d"] on the numbers a date has (a year below
    10000, a month or a day below 100). *)
Definition pad4 (n : Z) : string :=
  String (digit (n / 1000)) (String (digit (n / 100))
    (String (digit (n / 10)) (String (digit n) EmptyString))).

Definition pad2 (n : Z) : string :=
  String (digit (n / 10)) (String (digit n) EmptyString).

(** [date.isoformat()], which is also [str(date)]. *)
Definition isoformat (d : date) : string :=
  let '(y, m, dd) := ord2ymd d in
  pad4 y +:+ "-" +:+ pad2 m +:+ "-" +:+ pad2 dd.

End Datetime.

Import Datetime.

(** [range(n)] on Python integers: empty when [n] is not positive. *)
Definition range (n : Z) : list Z := map Z.of_nat (seq 0 (Z.to_nat n)).

(** A list comprehension whose element expression can raise: the first
    exception aborts the whole comprehension. *)
Fixpoint comprehension {A B : Type} (f : A -> option B) (l : list A) : option (list B) :=
  match l with
  | [] => Some []
  | x :: l' =>
      match f x with
      | None => None
      | Some y =>
          match comprehension f l' with
          | None => None
          | Some ys => Some (y :: ys)
          end
      end
  end.

(** [dates = [start + timedelta(days=day) for day in range((end - start).days)]] *)
Definition dates (start end_ : date) : option (list date) :=
  comprehension
    (fun day => match timedelta_of_days day with
                | Some t => add start t
                | None => None
                end)
    (range (days (sub end_ start))).

(** ** The name of the output file *)

(** [datetime.now()], as far as the notebook reads it: the day and the
    time of day, to the second, as the local clock shows them.  It is a
    reading of the clock, not a moment: the clock shows the same reading
    at two moments when it is set back in between, as at the end of
    daylight saving time. *)
Record datetime := {
  date_of : date;
  hour : Z;
  minute : Z;
  second : Z
}.

Definition valid_datetime (t : datetime) : Prop :=
  valid (date_of t) /\ 0 <= hour t < 24 /\ 0 <= minute t < 60 /\ 0 <= second t < 60.

(** [t.strftime("%Y-%m-%d_%H-%M-%S")], for a year of four digits, as the
    current year is (the C library decides how an earlier year is
    written). *)
Definition strftime (t : datetime) : string :=
  let '(y, m, d) := ord2ymd (date_of t) in
  pad4 y +:+ "-" +:+ pad2 m +:+ "-" +:+ pad2 d
    +:+ "_" +:+ pad2 (hour t) +:+ "-" +:+ pad2 (minute t) +:+ "-" +:+ pad2 (second t).

(** The first day of the year 1000. *)
Definition FIRST_FOUR_DIGIT_DAY : date := 364878.

(** [FILENAME = Path(f"./poweropti_backup_{timestamp}.jsonl")]: a path
    relative to the working directory, which [pathlib] keeps without
    the leading [./]. *)
Definition FILENAME (now : datetime) : string :=
  "poweropti_backup_" +:+ strftime now +:+ ".jsonl".

(** ** Python's [dict], with its insertion order *)

(** A [dict[date, V]] is the list of its items in iteration order. *)
Abbreviation dict V := (list (date * V)).

Section Dict.

Context {V : Type}.

(** [d[k] = v]: a key already present keeps its place and takes the new
    value, a new key goes to the end. *)
Fixpoint dict_set (d : dict V) (k : date) (v : V) : dict V :=
  match d with
  | [] => [(k, v)]
  | (k', v') :: d' => if k' =? k then (k', v) :: d' else (k', v') :: dict_set d' k v
  end.

(** [len(d)] *)
Definition len (d : dict V) : Z := Z.of_nat (length d).

End Dict.

(** ** The world outside the notebook *)

Definition Path := string.

(** [str(n)] for a Python integer. *)
Definition str_int (n : Z) : string := NilZero.string_of_int (Z.to_int n).

(** The double quote character, and a string between double quotes. *)
Definition dquote : string := String (ascii_of_nat 34) EmptyString.

Definition quoted (s : string) : string := dquote +:+ s +:+ dquote.

(** The line feed. *)
Definition LF : ascii := ascii_of_nat 10.

(** What a call of the API client does: it returns a value, possibly
    [None], or raises an exception, of which the notebook only uses
    [str(e)].  [JSON] is the type of the raw payloads, any JSON value
    but [null]: Python's [None] is the [None] of [option JSON]. *)
Inductive outcome (JSON : Type) :=
| Returns (data : option JSON)
| Raises (e : string).

Arguments Returns {JSON} data.
Arguments Raises {JSON} e.

(** The effects of the notebook.  [Call] is not an effect of its own: it
    marks the entry into [backup_date], so that the log tells which days
    the driver handed to the day fetcher.  [Request] records a call of
    [api.get_historical_data_raw] together with its answer. *)
Inductive event (JSON : Type) :=
| Call (day : date)
| Request (day : date) (answer : outcome JSON)
| Print (line : string)
| Sleep (seconds : Z)
| Open (file : Path)
| Write (file : Path) (text : string)
| Close (file : Path).

Arguments Call {JSON} day.
Arguments Request {JSON} day answer.
Arguments Print {JSON} line.
Arguments Sleep {JSON} seconds.
Arguments Open {JSON} file.
Arguments Write {JSON} file text.
Arguments Close {JSON} file.

(** The state of the vendor's service, the files, and the log of the
    effects so far, oldest first. *)
Record World (JSON ApiState : Type) := {
  api : ApiState;
  fs : gmap string string;
  log : list (event JSON)
}.

Arguments api {JSON ApiState} w.
Arguments fs {JSON ApiState} w.
Arguments log {JSON ApiState} w.

Section Effects.

Context {JSON ApiState : Type}.

Definition emit (e : event JSON) (w : World JSON ApiState) : World JSON ApiState :=
  {| api := api w; fs := fs w; log := log w ++ [e] |}.

(** [print(line)] *)
Definition print (line : string) (w : World JSON ApiState) : World JSON ApiState :=
  emit (Print line) w.

(** [sleep(seconds)] *)
Definition sleep (seconds : Z) (w : World JSON ApiState) : World JSON ApiState :=
  emit (Sleep seconds) w.

(** The text of a file; a file that does not exist has none. *)
Definition content (files : gmap string string) (file : Path) : string :=
  match files !! file with
  | Some s => s
  | None => ""
  end.

(** [file.open("a")]: the file is created, empty, when it does not
    exist, and left as it is otherwise. *)
Definition open_append (file : Path) (w : World JSON ApiState) : World JSON ApiState :=
  {| api := api w;
     fs := match fs w !! file with
           | Some _ => fs w
           | None => <[file := ""]> (fs w)
           end;
     log := log w ++ [Open file] |}.

(** [f.write(text)] on a file opened for appending. *)
Definition write (file : Path) (text : string) (w : World JSON ApiState) : World JSON ApiState :=
  {| api := api w;
     fs := <[file := content (fs w) file +:+ text]> (fs w);
     log := log w ++ [Write file text] |}.

(** Leaving the [with] block closes the file. *)
Definition close (file : Path) (w : World JSON ApiState) : World JSON ApiState :=
  emit (Close file) w.

(** *** Reading a log *)

(** The effects a run added to the log: those of [w'] after those of
    the world [w] it started from. *)
Definition new_events (w w' : World JSON ApiState) : list (event JSON) :=
  drop (length (log w)) (log w').

(** The days handed to [backup_date], in order. *)
Definition calls (evs : list (event JSON)) : list date :=
  flat_map (fun e => match e with Call d => [d] | _ => [] end) evs.

(** The calls of the API with their answers. *)
Definition requests (evs : list (event JSON)) : list (date * outcome JSON) :=
  flat_map (fun e => match e with Request d r => [(d, r)] | _ => [] end) evs.

(** The days the API answered with a payload, each with its payload. *)
Definition fetched (evs : list (event JSON)) : list (date * JSON) :=
  flat_map (fun e => match e with Request d (Returns (Some v)) => [(d, v)] | _ => [] end) evs.

Definition sleeps (evs : list (event JSON)) : list Z :=
  flat_map (fun e => match e with Sleep s => [s] | _ => [] end) evs.

Definition prints (evs : list (event JSON)) : list string :=
  flat_map (fun e => match e with Print s => [s] | _ => [] end) evs.

(** The texts written to [file], in order. *)
Definition writes (file : Path) (evs : list (event JSON)) : list string :=
  flat_map (fun e => match e with
                     | Write f text => if String.eqb f file then [text] else []
                     | _ => []
                     end) evs.

(** The file operations alone. *)
Definition file_events (evs : list (event JSON)) : list (event JSON) :=
  flat_map (fun e => match e with
                     | Open _ | Write _ _ | Close _ => [e]
                     | _ => []
                     end) evs.

End Effects.

(** Texts one after the other. *)
Definition join (texts : list string) : string := fold_right String.append "" texts.

(** The number of line feeds of a text, which is its number of lines
    when each line ends with one. *)
Fixpoint count_lines (s : string) : nat :=
  match s with
  | EmptyString => 0
  | String c s' => (if Ascii.eqb c LF then 1 else 0) + count_lines s'
  end.

(** The files after [lines] have been appended to [file], which is
    created when there is a line to write and it does not exist. *)
Definition appended (files : gmap string string) (file : Path) (lines : list string) : gmap string string :=
  match lines with
  | [] => files
  | _ :: _ => <[file := content files file +:+ join lines]> files
  end.

(** ** Services to run the notebook against

    Their state is the number of calls answered so far; a payload is a
    number, serialised in decimal. *)

Module Service.

(** Answers every call with the day's ordinal as payload. *)
Definition steady (device_id : string) (day : date) (n : nat) : outcome Z * nat :=
  (Returns (Some day), S n).

(** Raises on its first [k] calls and answers from then on. *)
Definition flaky (k : nat) (device_id : string) (day : date) (n : nat) : outcome Z * nat :=
  if Nat.ltb n k then (Raises "timed out", S n) else (Returns (Some day), S n).

(** Raises on every call. *)
Definition down (device_id : string) (day : date) (n : nat) : outcome Z * nat :=
  (Raises "service unavailable", S n).

(** Raises on every call for the day [bad] and answers the others. *)
Definition outage (bad : date) (device_id : string) (day : date) (n : nat) : outcome Z * nat :=
  if day =? bad then (Raises "no data for this day", S n) else (Returns (Some day), S n).

(** Answers [null] to every call. *)
Definition silent (device_id : string) (day : date) (n : nat) : outcome Z * nat :=
  (Returns None, S n).

(** Answers every call with the number of calls answered before. *)
Definition counting (device_id : string) (day : date) (n : nat) : outcome Z * nat :=
  (Returns (Some (Z.of_nat n)), S n).

(** A fresh start: no call yet, no file, nothing logged. *)
Definition fresh : World Z nat := {| api := 0%nat; fs := ∅; log := [] |}.

End Service.

(** ** The notebook's functions *)

Section Backup.

Context {JSON ApiState : Type}.

(** [json.dumps] on a payload. *)
Variable dumps : JSON -> string.

(** The vendor API, seen from the notebook: a call answers from the
    state the service is in and moves it to a new state. *)
Variable get_historical_data_raw : string -> date -> ApiState -> outcome JSON * ApiState.

(** [device.id] *)
Variable device_id : string.

(** The settings of the second cell: [BATCH_APPEND = 15], [RETRIES = 10]
    and [BACKOFF = 2] in the notebook as published.  [BACKOFF] is a
    number of seconds that is not negative: [sleep] raises [ValueError]
    on a negative length. *)
Variable BATCH_APPEND : Z.
Variable RETRIES : Z.
Variable BACKOFF : N.

Local Abbreviation world := (World JSON ApiState).

(** [api.get_historical_data_raw(device_id=device.id, day=day)] *)
Definition request (day : date) (w : world) : outcome JSON * world :=
  let '(r, a) := get_historical_data_raw device_id day (api w) in
  (r, {| api := a; fs := fs w; log := log w ++ [Request day r] |}).

(** *** The day fetcher *)

Definition error_message (day : date) (e : string) : string :=
  "Error while fetching data for " +:+ isoformat day +:+ ": " +:+ e.

Definition failure_message (day : date) : string :=
  "Failed to fetch data for " +:+ isoformat day +:+ " after " +:+ str_int RETRIES +:+ " retries".

(** The [while] loop of [backup_date], entered with the current value of
    [retries]. *)
Equations? backup_date_loop (day : date) (retries : Z) (w : world) : option JSON * world
  by wf (Z.to_nat (RETRIES - retries)) lt :=
backup_date_loop day retries w with Z_lt_dec retries RETRIES => {
  | left _ with request day w => {
      | (Returns hisotrical_data, w1) => (hisotrical_data, w1);
      | (Raises e, w1) =>
          let w2 := print (error_message day e) w1 in
          let retries' := retries + 1 in
          let w3 := sleep (Z.of_N BACKOFF * retries') w2 in
          backup_date_loop day retries' w3 };
  | right _ => (None, print (failure_message day) w) }.
Proof. lia. Qed.

Definition backup_date (day : date) (w : world) : option JSON * world :=
  backup_date_loop day 0 (emit (Call day) w).

(** *** The flush *)

(** [dumps({"day": day.isoformat(), "data": data})] *)
Definition json_object (item : date * JSON) : string :=
  "{" +:+ quoted "day" +:+ ": " +:+ quoted (isoformat (fst item)) +:+ ", "
      +:+ quoted "data" +:+ ": " +:+ dumps (snd item) +:+ "}".

(** The text of one [f.write]: the object and a line feed. *)
Definition record_line (item : date * JSON) : string :=
  json_object item +:+ String LF EmptyString.

Definition append_to_json_file (batch : dict JSON) (file : Path) (w : world) : world :=
  let w := open_append file w in
  let w := fold_left (fun w item => write file (record_line item) w) batch w in
  close file w.

(** *** The driver *)

(** One turn of the [for] loop, on the local [batch] and the world. *)
Definition backup_step (file : Path) (st : dict JSON * world) (day : date) : dict JSON * world :=
  let '(batch, w) := st in
  let '(data, w) := backup_date day w in
  match data with
  | None => (batch, w)
  | Some data =>
      let batch := dict_set batch day data in
      if len batch >=? BATCH_APPEND
      then ([], append_to_json_file batch file w)
      else (batch, w)
  end.

Definition backup_loop (file : Path) (date_range : list date) (st : dict JSON * world) : dict JSON * world :=
  fold_left (backup_step file) date_range st.

Definition backup (date_range : list date) (file : Path) (w : world) : world :=
  let '(batch, w) := backup_loop file date_range ([], w) in
  if len batch >? 0 then append_to_json_file batch file w else w.

(** The file operations of one flush of [batch]. *)
Definition flush_events (file : Path) (batch : dict JSON) : list (event JSON) :=
  [Open file] ++ map (fun item => Write file (record_line item)) batch ++ [Close file].

(** *** Describing what the API does

    [failures day n a] runs [n] calls for [day] against the service in
    state [a]: when each of them raises, it gives the exceptions in
    order and the state the service is left in. *)
Fixpoint failures (day : date) (n : nat) (a : ApiState) : option (list string * ApiState) :=
  match n with
  | O => Some ([], a)
  | S n' =>
      match get_historical_data_raw device_id day a with
      | (Raises e, a1) =>
          match failures day n' a1 with
          | Some (es, a') => Some (e :: es, a')
          | None => None
          end
      | (Returns _, _) => None
      end
  end.

(** The log of the failed attempts with exceptions [es], the first of
    them made when the counter [retries] had the given value: the call,
    the message printed and the sleep. *)
Fixpoint failed_attempts (day : date) (retries : Z) (es : list string) : list (event JSON) :=
  match es with
  | [] => []
  | e :: es' =>
      [Request day (Raises e); Print (error_message day e); Sleep (Z.of_N BACKOFF * (retries + 1))]
      ++ failed_attempts day (retries + 1) es'
  end.

(** The service answers every call with a payload, whatever its state. *)
Definition always_answers : Prop :=
  forall day a, exists v a', get_historical_data_raw device_id day a = (Returns (Some v), a').

(** *** Describing runs

    The items of a batch are keyed by their days. *)
Definition keys (batch : dict JSON) : list date := map fst batch.

(** What one run of the retry loop leaves behind: it adds to the log,
    touches no file, and asks the API about [day] only, at most as many
    times as [retries] is below [RETRIES].  The value it returns is the
    payload the API answered with, if it did. *)
Record fetch_run (day : date) (budget : Z) (w : world) (res : option JSON * world)
    (evs : list (event JSON)) : Prop := {
  run_log : log (snd res) = log w ++ evs;
  run_fs : fs (snd res) = fs w;
  run_calls : calls evs = [];
  run_files : file_events evs = [];
  run_writes : forall file, writes file evs = [];
  run_fetched : fetched evs = match fst res with Some v => [(day, v)] | None => [] end;
  run_days : Forall (fun q => fst q = day) (requests evs);
  run_bound : Z.of_nat (length (requests evs)) <= Z.max 0 budget
}.

(** What the driver's loop leaves behind when it goes through [days]
    from the batch [batch] in the world [w]: it hands the days to the
    day fetcher in order, the days with a payload are among them in the
    same order, the text of the file grows by the lines written, and no
    other file changes.  When the days are distinct and none is in the
    batch yet, the records written so far followed by the batch are
    the batch at the start followed by the records fetched. *)
Record loop_run (file : Path) (days : list date) (batch : dict JSON) (w : world)
    (res : dict JSON * world) (evs : list (event JSON)) : Prop := {
  loop_log : log (snd res) = log w ++ evs;
  loop_calls : calls evs = days;
  loop_fetched : map fst (fetched evs) `sublist_of` days;
  loop_content : content (fs (snd res)) file = content (fs w) file +:+ join (writes file evs);
  loop_others : forall other, other <> file -> fs (snd res) !! other = fs w !! other;
  loop_keys : forall x, In x (keys (fst res)) -> In x (keys batch) \/ In x days;
  loop_records :
    NoDup days -> (forall d, In d days -> ~ In d (keys batch)) ->
    exists R, writes file evs = map record_line R /\ R ++ fst res = batch ++ fetched evs
}.

(** *** Describing batches

    The batches the driver makes of the items it gets one after the
    other, when it holds [batch] before the first of them: the batches
    it flushes inside the loop, in order, and the batch it holds after
    the last item. *)
Fixpoint batching (batch : dict JSON) (items : list (date * JSON)) : list (dict JSON) * dict JSON :=
  match items with
  | [] => ([], batch)
  | item :: items' =>
      let batch := dict_set batch (fst item) (snd item) in
      if len batch >=? BATCH_APPEND
      then (batch :: fst (batching [] items'), snd (batching [] items'))
      else batching batch items'
  end.

(** The dictionary that holds the items put into [batch] one after the
    other, and none taken out. *)
Definition dict_update (batch : dict JSON) (items : list (date * JSON)) : dict JSON :=
  fold_left (fun batch item => dict_set batch (fst item) (snd item)) items batch.

(** The file operations of the last flush of [backup], which is left
    out when nothing remains. *)
Definition final_flush (file : Path) (batch : dict JSON) : list (event JSON) :=
  match batch with
  | [] => []
  | _ :: _ => flush_events file batch
  end.

(** *** Describing the traffic with the service

    A world with the service in the state [a], no file and an empty
    log. *)
Definition blank (a : ApiState) : world := {| api := a; fs := ∅; log := [] |}.

(** What the day fetcher does for each of the days, one after the
    other, from the state [a] of the service: the log of each of its
    runs, and the state the service is left in. *)
Fixpoint day_logs (days : list date) (a : ApiState) : list (list (event JSON)) * ApiState :=
  match days with
  | [] => ([], a)
  | day :: days' =>
      let w := snd (backup_date day (blank a)) in
      (log w :: fst (day_logs days' (api w)), snd (day_logs days' (api w)))
  end.

(** A log without its file operations. *)
Definition other_events (evs : list (event JSON)) : list (event JSON) :=
  flat_map (fun e => match e with
                     | Open _ | Write _ _ | Close _ => []
                     | _ => [e]
                     end) evs.

(** The seconds slept in all. *)
Definition total_sleep (evs : list (event JSON)) : Z := fold_right Z.add 0 (sleeps evs).

(** The triangular number of [n], doubled: twice [1 + 2 + ... + n]. *)
Definition twice_triangle (n : Z) : Z := n * (n + 1).

(** ** Properties *)

(** *** The calendar *)

(** [is_leap], read as a proposition. *)
Lemma is_leap_true y : is_leap y = true <-> y mod 4 = 0 /\ (y mod 100 <> 0 \/ y mod 400 = 0).
Proof.
  unfold is_leap. rewrite andb_true_iff, orb_true_iff, negb_true_iff, !Z.eqb_eq, Z.eqb_neq.
  reflexivity.
Qed.

Lemma is_leap_false y : is_leap y = false <-> ~ (y mod 4 = 0 /\ (y mod 100 <> 0 \/ y mod 400 = 0)).
Proof.
  rewrite <- is_leap_true. destruct (is_leap y); split.
  - discriminate.
  - intros H. exfalso. apply H. reflexivity.
  - intros _ H. discriminate.
  - reflexivity.
Qed.

(** The estimate [(n + 50) >> 5] of the month of the day [n] of a year. *)
Lemma month_cases r : 0 <= r < 365 ->
  let m := Z.shiftr (r + 50) 5 in
  (m = 1 \/ m = 2 \/ m = 3 \/ m = 4 \/ m = 5 \/ m = 6 \/ m = 7 \/ m = 8 \/ m = 9 \/ m = 10 \/ m = 11 \/ m = 12)
  /\ 32 * m <= r + 50 < 32 * m + 32.
Proof.
  intros H. cbv zeta. rewrite Z.shiftr_div_pow2 by lia. change (2 ^ 5) with 32.
  pose proof (Z.div_mod (r + 50) 32 ltac:(lia)).
  pose proof (Z.mod_pos_bound (r + 50) 32 ltac:(lia)).
  lia.
Qed.

(** The days before a year and its being a leap year, from the digits
    of the year. *)
Lemma days_before_year_digits a b c d :
  0 <= b <= 3 -> 0 <= c <= 24 -> 0 <= d <= 3 ->
  days_before_year (year_of a b c d) = 146097 * a + 36524 * b + 1461 * c + 365 * d.
Proof.
  intros Hb Hc Hd. unfold days_before_year. cbv zeta.
  rewrite <- (Z.div_unique (year_of a b c d - 1) 4 (100 * a + 25 * b + c) d)
    by (unfold year_of; lia).
  rewrite <- (Z.div_unique (year_of a b c d - 1) 100 (4 * a + b) (4 * c + d))
    by (unfold year_of; lia).
  rewrite <- (Z.div_unique (year_of a b c d - 1) 400 a (100 * b + 4 * c + d))
    by (unfold year_of; lia).
  unfold year_of. lia.
Qed.

Lemma is_leap_digits a b c d :
  0 <= b <= 3 -> 0 <= c <= 24 -> 0 <= d <= 3 ->
  is_leap (year_of a b c d) = (d =? 3) && (negb (c =? 24) || (b =? 3)).
Proof.
  intros Hb Hc Hd.
  assert (M4 : year_of a b c d mod 4 = if d =? 3 then 0 else d + 1).
  { destruct (Z.eqb_spec d 3); symmetry.
    - apply (Z.mod_unique _ _ (100 * a + 25 * b + c + 1)); unfold year_of; lia.
    - apply (Z.mod_unique _ _ (100 * a + 25 * b + c)); unfold year_of; lia. }
  assert (M100 : year_of a b c d mod 100
                 = if (c =? 24) && (d =? 3) then 0 else 4 * c + d + 1).
  { destruct (Z.eqb_spec c 24); destruct (Z.eqb_spec d 3); cbn [andb]; symmetry;
      first [ apply (Z.mod_unique _ _ (4 * a + b + 1)); unfold year_of; lia
            | apply (Z.mod_unique _ _ (4 * a + b)); unfold year_of; lia ]. }
  assert (M400 : year_of a b c d mod 400
                 = if (b =? 3) && (c =? 24) && (d =? 3) then 0
                   else 100 * b + 4 * c + d + 1).
  { destruct (Z.eqb_spec b 3); destruct (Z.eqb_spec c 24); destruct (Z.eqb_spec d 3);
      cbn [andb]; symmetry;
      first [ apply (Z.mod_unique _ _ (a + 1)); unfold year_of; lia
            | apply (Z.mod_unique _ _ a); unfold year_of; lia ]. }
  unfold is_leap. rewrite M4, M100, M400.
  destruct (Z.eqb_spec d 3); destruct (Z.eqb_spec c 24); destruct (Z.eqb_spec b 3);
    cbn [andb orb negb];
    repeat match goal with
           | |- context [?x =? ?y] => destruct (Z.eqb_spec x y)
           end; cbn [andb orb negb]; try reflexivity; lia.
Qed.

(** Looks up the entries of the month tables that occur with a given
    month. *)
Ltac month_tables :=
  repeat match goal with
         | H : context [days_before_month ?l ?m] |- _ =>
             let v := eval vm_compute in (days_before_month l m) in
             change (days_before_month l m) with v in H
         | H : context [days_in_month ?l ?m] |- _ =>
             let v := eval vm_compute in (days_in_month l m) in
             change (days_in_month l m) with v in H
         | |- context [days_before_month ?l ?m] =>
             let v := eval vm_compute in (days_before_month l m) in
             change (days_before_month l m) with v
         | |- context [days_in_month ?l ?m] =>
             let v := eval vm_compute in (days_in_month l m) in
             change (days_in_month l m) with v
         end.

Lemma days_before_previous_month (leap : bool) (m : Z) :
  2 <= m <= 12 ->
  days_before_month leap m - days_in_month leap (m - 1) = days_before_month leap (m - 1).
Proof.
  intros H.
  assert (C : m = 2 \/ m = 3 \/ m = 4 \/ m = 5 \/ m = 6 \/ m = 7 \/ m = 8 \/ m = 9
              \/ m = 10 \/ m = 11 \/ m = 12) by lia.
  destruct leap; repeat (destruct C as [->|C]; [reflexivity|]); subst; reflexivity.
Qed.

(** [_ord2ymd] undoes [_ymd2ord]: the year, month and day computed for an
    ordinal are those of a date of the calendar, and the ordinal of
    that date is the one given. *)
Theorem ord2ymd_spec n :
  1 <= n ->
  let '(y, m, d) := ord2ymd n in
  ymd2ord y m d = n /\ 1 <= m <= 12 /\ 1 <= d <= days_in_month (is_leap y) m
  /\ (n <= MAXORDINAL -> 1 <= y <= 9999).
Proof.
  intros Hn. unfold ord2ymd, MAXORDINAL. cbv zeta.
  set (n0 := n - 1).
  set (n400 := n0 / 146097). set (r400 := n0 mod 146097).
  set (n100 := r400 / 36524). set (r100 := r400 mod 36524).
  set (n4 := r100 / 1461). set (r4 := r100 mod 1461).
  set (n1 := r4 / 365). set (r1 := r4 mod 365).
  assert (E400 : n0 = 146097 * n400 + r400) by (apply Z.div_mod; lia).
  assert (B400 : 0 <= r400 < 146097) by (apply Z.mod_pos_bound; lia).
  assert (E100 : r400 = 36524 * n100 + r100) by (apply Z.div_mod; lia).
  assert (B100 : 0 <= r100 < 36524) by (apply Z.mod_pos_bound; lia).
  assert (E4 : r100 = 1461 * n4 + r4) by (apply Z.div_mod; lia).
  assert (B4 : 0 <= r4 < 1461) by (apply Z.mod_pos_bound; lia).
  assert (E1 : r4 = 365 * n1 + r1) by (apply Z.div_mod; lia).
  assert (B1 : 0 <= r1 < 365) by (apply Z.mod_pos_bound; lia).
  assert (P400 : 0 <= n400) by (apply Z.div_pos; lia).
  assert (N100 : 0 <= n100 <= 4) by lia.
  assert (N4 : 0 <= n4 <= 24) by lia.
  assert (N1 : 0 <= n1 <= 4) by lia.
  clearbody n400 r400 n100 r100 n4 r4 n1 r1.
  replace (n400 * 400 + 1 + n100 * 100 + n4 * 4 + n1) with (year_of n400 n100 n4 n1)
    by (unfold year_of; lia).
  destruct ((n1 =? 4) || (n100 =? 4)) eqn:Elast.
  - (* the last day of a cycle of four or of four hundred years *)
    assert (Hy : exists b c, 0 <= b <= 3 /\ 0 <= c <= 24 /\ negb (c =? 24) || (b =? 3) = true
                   /\ year_of n400 n100 n4 n1 - 1 = year_of n400 b c 3
                   /\ n = 146097 * n400 + 36524 * b + 1461 * c + 365 * 3 + 366).
    { apply orb_true_iff in Elast. destruct (Z.eqb_spec n100 4) as [->|Hne].
      - exists 3, 24. unfold year_of. repeat split; try lia.
      - destruct Elast as [E|E]; [|discriminate]. apply Z.eqb_eq in E.
        exists n100, n4. unfold year_of.
        assert (n4 <= 23) by lia.
        destruct (Z.eqb_spec n4 24); [lia|]. repeat split; try lia. }
    destruct Hy as (b & c & Hb & Hc & Hl & -> & Hnn).
    cbv beta iota. unfold ymd2ord.
    rewrite days_before_year_digits, is_leap_digits by lia.
    rewrite Hl. cbn [andb Z.eqb Pos.eqb]. month_tables.
    repeat split; try lia.
    all: unfold year_of; lia.
  - apply orb_false_iff in Elast. destruct Elast as [E1' E100'].
    apply Z.eqb_neq in E1'. apply Z.eqb_neq in E100'.
    rewrite <- (is_leap_digits n400 n100 n4 n1) by lia.
    set (leap := is_leap (year_of n400 n100 n4 n1)).
    destruct (month_cases r1 B1) as [Hm Hmb]. cbv zeta in Hm, Hmb.
    set (month := Z.shiftr (r1 + 50) 5) in *. clearbody month.
    assert (Hd : days_before_year (year_of n400 n100 n4 n1) + r1 + 1 = n).
    { rewrite days_before_year_digits by lia. lia. }
    destruct (Z.ltb_spec r1 (days_before_month leap month)) as [Hlt|Hge].
    + (* the estimate of the month is one too large *)
      assert (Hm2 : 2 <= month <= 12).
      { destruct (Z.eq_dec month 1) as [->|]; [|lia].
        exfalso. clearbody leap. destruct leap; month_tables; lia. }
      cbv beta iota. unfold ymd2ord. fold leap.
      rewrite days_before_previous_month by exact Hm2.
      repeat split; try lia.
      * clearbody leap.
        destruct leap; repeat (destruct Hm as [->|Hm]; [month_tables; lia|]);
          subst; month_tables; lia.
      * clearbody leap.
        destruct leap; repeat (destruct Hm as [->|Hm]; [month_tables; lia|]);
          subst; month_tables; lia.
      * unfold year_of. lia.
      * unfold year_of. lia.
    + cbv beta iota. unfold ymd2ord. fold leap.
      repeat split; try lia.
      * clearbody leap.
        destruct leap; repeat (destruct Hm as [->|Hm]; [month_tables; lia|]);
          subst; month_tables; lia.
      * unfold year_of. lia.
      * unfold year_of. lia.
Qed.

(** *** Logs *)

Lemma new_events_app (w w' : world) (evs : list (event JSON)) :
  log w' = log w ++ evs -> new_events w w' = evs.
Proof.
  intros H. unfold new_events. rewrite H. apply drop_app_length.
Qed.

Lemma new_events_mk (w : world) (a : ApiState) (files : gmap string string)
    (evs : list (event JSON)) :
  new_events w {| api := a; fs := files; log := log w ++ evs |} = evs.
Proof. apply new_events_app. reflexivity. Qed.

Lemma new_events_refl (w : world) : new_events w w = [].
Proof. apply new_events_app. now rewrite app_nil_r. Qed.

Lemma calls_app (a b : list (event JSON)) : calls (a ++ b) = calls a ++ calls b.
Proof. apply flat_map_app. Qed.

Lemma requests_app (a b : list (event JSON)) : requests (a ++ b) = requests a ++ requests b.
Proof. apply flat_map_app. Qed.

Lemma fetched_app (a b : list (event JSON)) : fetched (a ++ b) = fetched a ++ fetched b.
Proof. apply flat_map_app. Qed.

Lemma sleeps_app (a b : list (event JSON)) : sleeps (a ++ b) = sleeps a ++ sleeps b.
Proof. apply flat_map_app. Qed.

Lemma prints_app (a b : list (event JSON)) : prints (a ++ b) = prints a ++ prints b.
Proof. apply flat_map_app. Qed.

Lemma writes_app (file : Path) (a b : list (event JSON)) :
  writes file (a ++ b) = writes file a ++ writes file b.
Proof. apply flat_map_app. Qed.

Lemma file_events_app (a b : list (event JSON)) :
  file_events (a ++ b) = file_events a ++ file_events b.
Proof. apply flat_map_app. Qed.

(** *** The day fetcher: what every run of it does *)

Lemma backup_date_loop_run (day : date) (retries : Z) (w : world) :
  exists evs, fetch_run day (RETRIES - retries) w (backup_date_loop day retries w) evs.
Proof.
  funelim (backup_date_loop day retries w).
  - (* the budget is used up *)
    exists [Print (failure_message day)].
    constructor; simpl; auto. lia.
  - (* an answer *)
    unfold request in Heq. destruct (get_historical_data_raw _ _ _) as [r a] eqn:E.
    inversion Heq; subst; clear Heq.
    exists [Request day (Returns hisotrical_data)].
    constructor; simpl; auto.
    + destruct hisotrical_data; reflexivity.
    + lia.
  - (* an exception, and another turn *)
    unfold request in Heq. destruct (get_historical_data_raw _ _ _) as [r a] eqn:E.
    inversion Heq; subst; clear Heq.
    destruct H as [evs [Hlog Hfs Hcalls Hfiles Hwrites Hfetched Hdays Hbound]].
    exists ([Request day (Raises e); Print (error_message day e);
             Sleep (Z.of_N BACKOFF * (retries + 1))] ++ evs).
    constructor.
    + rewrite Hlog. cbn [sleep print emit log]. rewrite <- !app_assoc. reflexivity.
    + rewrite Hfs. reflexivity.
    + rewrite calls_app, Hcalls. reflexivity.
    + rewrite file_events_app, Hfiles. reflexivity.
    + intros file. rewrite writes_app, Hwrites. reflexivity.
    + rewrite fetched_app, Hfetched. reflexivity.
    + rewrite requests_app. apply Forall_app. split; [repeat constructor | exact Hdays].
    + rewrite requests_app, length_app. cbn [requests flat_map length app]. lia.
Qed.

(** The loop, one turn unfolded. *)
Lemma backup_date_loop_eq (day : date) (retries : Z) (w : world) :
  backup_date_loop day retries w =
  if Z_lt_dec retries RETRIES
  then match request day w with
       | (Returns hisotrical_data, w1) => (hisotrical_data, w1)
       | (Raises e, w1) =>
           backup_date_loop day (retries + 1)
             (sleep (Z.of_N BACKOFF * (retries + 1)) (print (error_message day e) w1))
       end
  else (None, print (failure_message day) w).
Proof.
  funelim (backup_date_loop day retries w);
    repeat match goal with
           | H : Z_lt_dec _ _ = _ |- _ => rewrite H; clear H
           | H : request _ _ = _ |- _ => rewrite H; clear H
           end; reflexivity.
Qed.

Lemma world_eta (w : world) : {| api := api w; fs := fs w; log := log w |} = w.
Proof. destruct w; reflexivity. Qed.

(** As long as the API raises and the budget lasts, the loop logs the
    failed attempt and goes round again. *)
Lemma backup_date_loop_failures (day : date) (n : nat) :
  forall (retries : Z) (w : world) (es : list string) (a' : ApiState),
    failures day n (api w) = Some (es, a') ->
    retries + Z.of_nat n <= RETRIES ->
    backup_date_loop day retries w =
    backup_date_loop day (retries + Z.of_nat n)
      {| api := a'; fs := fs w; log := log w ++ failed_attempts day retries es |}.
Proof.
  induction n as [|n IH]; intros retries w es a' Hf Hle.
  - simpl in Hf. inversion Hf; subst. simpl.
    rewrite app_nil_r, Z.add_0_r, world_eta. reflexivity.
  - simpl in Hf.
    destruct (get_historical_data_raw device_id day (api w)) as [[d|e] a1] eqn:E;
      [discriminate|].
    destruct (failures day n a1) as [[es1 a2]|] eqn:F; [|discriminate].
    inversion Hf; subst; clear Hf.
    rewrite backup_date_loop_eq.
    destruct (Z_lt_dec retries RETRIES) as [_|Hn]; [|lia].
    unfold request. rewrite E.
    rewrite (IH (retries + 1) _ es1 a'); [|exact F|lia].
    f_equal; [lia|].
    cbn [sleep print emit api fs log failed_attempts].
    rewrite <- !app_assoc. reflexivity.
Qed.

Lemma length_failures (day : date) (n : nat) :
  forall a es a', failures day n a = Some (es, a') -> length es = n.
Proof.
  induction n as [|n IH]; intros a es a' Hf; simpl in Hf.
  - inversion Hf; reflexivity.
  - destruct (get_historical_data_raw device_id day a) as [[d|e] a1]; [discriminate|].
    destruct (failures day n a1) as [[es1 a2]|] eqn:F; [|discriminate].
    inversion Hf; subst. simpl. f_equal. eapply IH; eassumption.
Qed.

Lemma sleeps_failed_attempts (day : date) (es : list string) :
  forall retries,
    sleeps (failed_attempts day retries es)
    = map (fun k => Z.of_N BACKOFF * k) (seqZ (retries + 1) (Z.of_nat (length es))).
Proof.
  induction es as [|e es IH]; intros retries.
  - reflexivity.
  - cbn [failed_attempts]. rewrite sleeps_app, IH.
    rewrite (seqZ_cons (retries + 1)) by (simpl; lia).
    cbn [sleeps flat_map app map length].
    do 3 f_equal. simpl length. lia.
Qed.

Lemma requests_failed_attempts (day : date) (es : list string) :
  forall retries,
    requests (failed_attempts day retries es) = map (fun e => (day, Raises e)) es.
Proof.
  induction es as [|e es IH]; intros retries; [reflexivity|].
  cbn [failed_attempts]. rewrite requests_app, IH. reflexivity.
Qed.


(** *** Texts *)

Lemma append_cons (c : ascii) (s t : string) : String c s +:+ t = String c (s +:+ t).
Proof. reflexivity. Qed.

Lemma append_nil_l (t : string) : "" +:+ t = t.
Proof. reflexivity. Qed.

Lemma append_nil_r (s : string) : s +:+ "" = s.
Proof.
  induction s as [|c s IH]; [reflexivity|].
  rewrite append_cons, IH. reflexivity.
Qed.

Lemma append_assoc (s t u : string) : (s +:+ t) +:+ u = s +:+ (t +:+ u).
Proof.
  induction s as [|c s IH]; [reflexivity|].
  rewrite !append_cons, IH. reflexivity.
Qed.

Lemma join_app (a b : list string) : join (a ++ b) = join a +:+ join b.
Proof.
  induction a as [|x a IH]; [reflexivity|].
  cbn [join fold_right app]. fold (join (a ++ b)). fold (join a).
  rewrite IH, append_assoc. reflexivity.
Qed.

Lemma count_lines_append (s t : string) :
  count_lines (s +:+ t) = (count_lines s + count_lines t)%nat.
Proof.
  induction s as [|c s IH]; [reflexivity|].
  rewrite append_cons. cbn [count_lines]. rewrite IH. lia.
Qed.

Lemma ord2ymd_inj (n1 n2 : Z) :
  1 <= n1 -> 1 <= n2 -> ord2ymd n1 = ord2ymd n2 -> n1 = n2.
Proof.
  intros H1 H2 E.
  pose proof (ord2ymd_spec n1 H1) as S1. pose proof (ord2ymd_spec n2 H2) as S2.
  rewrite E in S1. destruct (ord2ymd n2) as [[y m] d].
  destruct S1 as [<- _]. destruct S2 as [<- _]. reflexivity.
Qed.

Lemma digit_inj (a b : Z) : digit a = digit b -> a mod 10 = b mod 10.
Proof.
  unfold digit. intros E. apply (f_equal nat_of_ascii) in E.
  pose proof (Z.mod_pos_bound a 10). pose proof (Z.mod_pos_bound b 10).
  rewrite !nat_ascii_embedding in E by lia. lia.
Qed.

Lemma pad2_inj (a b : Z) : 0 <= a < 100 -> 0 <= b < 100 -> pad2 a = pad2 b -> a = b.
Proof.
  intros Ha Hb E. unfold pad2 in E. injection E as E1 E0.
  apply digit_inj in E1, E0.
  Z.div_mod_to_equations. lia.
Qed.

Lemma pad4_inj (a b : Z) : 0 <= a < 10000 -> 0 <= b < 10000 -> pad4 a = pad4 b -> a = b.
Proof.
  intros Ha Hb E. unfold pad4 in E. injection E as E3 E2 E1 E0.
  apply digit_inj in E3, E2, E1, E0.
  Z.div_mod_to_equations. lia.
Qed.

(** The year, month and day of a date, within the ranges the fields of
    [isoformat] hold. *)
Lemma ord2ymd_ranges (d : date) :
  valid d ->
  let '(y, m, dd) := ord2ymd d in
  ymd2ord y m dd = d /\ 1 <= y <= 9999 /\ 1 <= m <= 12 /\ 1 <= dd <= 31.
Proof.
  intros [H1 H2]. pose proof (ord2ymd_spec d H1) as S.
  destruct (ord2ymd d) as [[y m] dd]. destruct S as (E & Hm & Hd & Hy).
  repeat split; try lia.
  assert (days_in_month (is_leap y) m <= 31); [|lia].
  assert (C : m = 1 \/ m = 2 \/ m = 3 \/ m = 4 \/ m = 5 \/ m = 6 \/ m = 7 \/ m = 8
              \/ m = 9 \/ m = 10 \/ m = 11 \/ m = 12) by lia.
  destruct (is_leap y); repeat (destruct C as [->|C]; [month_tables; lia|]);
    subst; month_tables; lia.
Qed.

(** Two dates with the same text are the same date. *)
Lemma isoformat_inj (d1 d2 : date) :
  valid d1 -> valid d2 -> isoformat d1 = isoformat d2 -> d1 = d2.
Proof.
  intros V1 V2 E.
  pose proof (ord2ymd_ranges d1 V1) as R1. pose proof (ord2ymd_ranges d2 V2) as R2.
  unfold isoformat in E.
  destruct (ord2ymd d1) as [[y1 m1] dd1]. destruct (ord2ymd d2) as [[y2 m2] dd2].
  destruct R1 as (<- & Y1 & M1 & D1). destruct R2 as (<- & Y2 & M2 & D2).
  unfold pad4, pad2 in E. rewrite !append_cons, !append_nil_l in E.
  injection E as E1 E2 E3 E4 E5 E6 E7 E8.
  assert (y1 = y2).
  { apply pad4_inj; [lia|lia|]. unfold pad4. congruence. }
  assert (m1 = m2).
  { apply pad2_inj; [lia|lia|]. unfold pad2. congruence. }
  assert (dd1 = dd2).
  { apply pad2_inj; [lia|lia|]. unfold pad2. congruence. }
  congruence.
Qed.

Lemma append_same_length (a b x y : string) :
  String.length a = String.length b -> a +:+ x = b +:+ y -> a = b.
Proof.
  revert b. induction a as [|c a IH]; intros [|c' b] Hlen E; try discriminate.
  - reflexivity.
  - rewrite !append_cons in E. injection E as -> E. f_equal.
    apply IH; [|exact E]. cbn [String.length] in Hlen. lia.
Qed.

Lemma length_isoformat (d : date) : String.length (isoformat d) = 10%nat.
Proof. unfold isoformat. destruct (ord2ymd d) as [[y m] dd]. reflexivity. Qed.

(** The line of a record tells its day. *)
Lemma record_line_day (item1 item2 : date * JSON) :
  valid (fst item1) -> valid (fst item2) ->
  record_line item1 = record_line item2 -> fst item1 = fst item2.
Proof.
  intros V1 V2 E. unfold record_line, json_object, quoted in E.
  rewrite !append_assoc in E.
  do 6 apply (inj (String.append _)) in E.
  apply isoformat_inj; [exact V1|exact V2|].
  apply (append_same_length _ _ _ _ (eq_trans (length_isoformat _) (eq_sym (length_isoformat _))) E).
Qed.

(** *** The flush *)

Lemma content_insert (files : gmap string string) (file : Path) (text : string) :
  content (<[file := text]> files) file = text.
Proof. unfold content. rewrite lookup_insert_eq. reflexivity. Qed.

Lemma writes_log (file : Path) (batch : dict JSON) :
  forall w : world,
    let w' := fold_left (fun w item => write file (record_line item) w) batch w in
    log w' = log w ++ map (fun item => Write file (record_line item)) batch
    /\ api w' = api w
    /\ content (fs w') file = content (fs w) file +:+ join (map record_line batch)
    /\ (forall other, other <> file -> fs w' !! other = fs w !! other)
    /\ (is_Some (fs w !! file) -> is_Some (fs w' !! file)).
Proof.
  induction batch as [|item batch IH]; intros w; cbn [fold_left map join fold_right].
  - rewrite app_nil_r, append_nil_r. repeat split; auto.
  - specialize (IH (write file (record_line item) w)).
    cbv zeta in IH. destruct IH as (Hlog & Hapi & Hc & Ho & Hs).
    cbn [write log api fs] in *.
    repeat split.
    + rewrite Hlog, <- app_assoc. reflexivity.
    + exact Hapi.
    + rewrite Hc, content_insert, append_assoc. reflexivity.
    + intros other Hne. rewrite Ho by exact Hne. apply lookup_insert_ne. congruence.
    + intros _. apply Hs. rewrite lookup_insert_eq. eauto.
Qed.

(** What a flush does: it opens the file, writes one line for each item
    of the batch in the order of the batch, and closes the file.  The
    lines go after what the file held; no other file changes. *)
Lemma append_to_json_file_run (batch : dict JSON) (file : Path) (w : world) :
  let w' := append_to_json_file batch file w in
  log w' = log w ++ flush_events file batch
  /\ api w' = api w
  /\ content (fs w') file = content (fs w) file +:+ join (map record_line batch)
  /\ (forall other, other <> file -> fs w' !! other = fs w !! other)
  /\ is_Some (fs w' !! file).
Proof.
  cbv zeta. unfold append_to_json_file.
  destruct (writes_log file batch (open_append file w)) as (Hlog & Hapi & Hc & Ho & Hs).
  cbn [close emit log api fs].
  assert (Hopen : content (fs (open_append file w)) file = content (fs w) file).
  { unfold open_append, content; cbn [fs].
    destruct (fs w !! file) eqn:E; [rewrite E; reflexivity|].
    rewrite lookup_insert_eq. reflexivity. }
  repeat split.
  - rewrite Hlog. unfold flush_events. cbn [open_append log]. rewrite <- !app_assoc. reflexivity.
  - rewrite Hapi. reflexivity.
  - rewrite Hc, Hopen. reflexivity.
  - intros other Hne. rewrite Ho by exact Hne. unfold open_append; cbn [fs].
    destruct (fs w !! file); [reflexivity|]. apply lookup_insert_ne. congruence.
  - apply Hs. unfold open_append; cbn [fs].
    destruct (fs w !! file) eqn:E; [rewrite E; eauto|]. rewrite lookup_insert_eq. eauto.
Qed.

Lemma writes_flush_events (file : Path) (batch : dict JSON) :
  writes file (flush_events file batch) = map record_line batch.
Proof.
  unfold flush_events. rewrite !writes_app.
  change (writes file [@Open JSON file]) with (@nil string).
  change (writes file [@Close JSON file]) with (@nil string).
  rewrite app_nil_r, app_nil_l.
  induction batch as [|item batch IH]; [reflexivity|].
  unfold writes in *. cbn [map flat_map].
  rewrite String.eqb_refl, IH. reflexivity.
Qed.

Lemma file_events_flush_events (file : Path) (batch : dict JSON) :
  file_events (flush_events file batch) = flush_events file batch.
Proof.
  unfold flush_events. rewrite !file_events_app.
  do 2 f_equal.
  induction batch as [|item batch IH]; [reflexivity|].
  unfold file_events in *. cbn [map flat_map app]. f_equal. exact IH.
Qed.

Lemma calls_flush_events (file : Path) (batch : dict JSON) :
  calls (flush_events file batch) = [].
Proof.
  unfold flush_events. rewrite !calls_app.
  induction batch as [|item batch IH]; [reflexivity|].
  unfold calls in *. cbn [map flat_map app] in *. exact IH.
Qed.


Lemma fetched_flush_events (file : Path) (batch : dict JSON) :
  fetched (flush_events file batch) = [].
Proof.
  unfold flush_events. rewrite !fetched_app.
  induction batch as [|item batch IH]; [reflexivity|].
  unfold fetched in *. cbn [map flat_map app] in *. exact IH.
Qed.

(** *** Dictionaries *)

Lemma dict_set_fresh (batch : dict JSON) (k : date) (v : JSON) :
  ~ In k (keys batch) -> dict_set batch k v = batch ++ [(k, v)].
Proof.
  induction batch as [|[k' v'] batch IH]; intros Hk; [reflexivity|].
  cbn [dict_set]. destruct (Z.eqb_spec k' k) as [->|Hne].
  - exfalso. apply Hk. left. reflexivity.
  - rewrite IH; [reflexivity|]. intros Hin. apply Hk. right. exact Hin.
Qed.

Lemma keys_dict_set (batch : dict JSON) (k : date) (v : JSON) (x : date) :
  In x (keys (dict_set batch k v)) -> x = k \/ In x (keys batch).
Proof.
  induction batch as [|[k' v'] batch IH]; cbn [dict_set keys map fst In].
  - intros [<-|[]]. left. reflexivity.
  - destruct (Z.eqb_spec k' k) as [->|Hne]; cbn [keys map fst In].
    + intros [<-|Hin]; auto.
    + intros [<-|Hin]; auto. destruct (IH Hin); auto.
Qed.

Lemma length_dict_set (batch : dict JSON) (k : date) (v : JSON) :
  (length batch <= length (dict_set batch k v) <= S (length batch))%nat
  /\ (1 <= length (dict_set batch k v))%nat.
Proof.
  induction batch as [|[k' v'] batch IH]; cbn [dict_set length]; [lia|].
  destruct (Z.eqb_spec k' k); cbn [length]; lia.
Qed.

Lemma len_gtb_0 (batch : dict JSON) :
  (len batch >? 0) = match batch with [] => false | _ :: _ => true end.
Proof. destruct batch; reflexivity. Qed.

(** *** The driver's loop *)

Lemma backup_date_run (day : date) (w : world) :
  exists evs, fetch_run day RETRIES (emit (Call day) w) (backup_date day w) evs.
Proof.
  unfold backup_date.
  destruct (backup_date_loop_run day 0 (emit (Call day) w)) as [evs H].
  exists evs. rewrite Z.sub_0_r in H. exact H.
Qed.

Lemma backup_step_run (file : Path) (batch : dict JSON) (w : world) (day : date) :
  exists evs, loop_run file [day] batch w (backup_step file (batch, w) day) evs.
Proof.
  unfold backup_step.
  destruct (backup_date_run day w) as [evs0 [Hlog Hfs Hcalls Hfiles Hwrites Hfetched Hdays Hbound]].
  destruct (backup_date day w) as [data w1]. cbn [fst snd emit log fs] in *.
  assert (Hsub : map fst (fetched evs0) `sublist_of` [day]).
  { rewrite Hfetched. destruct data; cbn [map fst]; [reflexivity|apply sublist_nil_l]. }
  destruct data as [v|].
  - set (B := dict_set batch day v).
    destruct (len B >=? BATCH_APPEND) eqn:Efull.
    + (* the batch is full: it is flushed *)
      destruct (append_to_json_file_run B file w1) as (Alog & Aapi & Ac & Ao & As).
      exists ([Call day] ++ evs0 ++ flush_events file B).
      constructor; cbn [fst snd].
      * rewrite Alog, Hlog, <- !app_assoc. reflexivity.
      * rewrite !calls_app, Hcalls, calls_flush_events. reflexivity.
      * rewrite !fetched_app, fetched_flush_events, app_nil_r. exact Hsub.
      * rewrite Ac, Hfs, !writes_app, Hwrites, writes_flush_events. reflexivity.
      * intros other Hne. rewrite Ao by exact Hne. rewrite Hfs. reflexivity.
      * intros x [].
      * intros _ Hfresh. exists B. split.
        -- rewrite !writes_app, Hwrites, writes_flush_events. reflexivity.
        -- rewrite !fetched_app, fetched_flush_events, Hfetched, !app_nil_r.
           unfold B. rewrite dict_set_fresh; [reflexivity|].
           apply Hfresh. left. reflexivity.
    + (* room is left: the batch is kept *)
      exists ([Call day] ++ evs0).
      constructor; cbn [fst snd].
      * rewrite Hlog, <- !app_assoc. reflexivity.
      * rewrite !calls_app, Hcalls. reflexivity.
      * rewrite !fetched_app. exact Hsub.
      * rewrite Hfs, !writes_app, Hwrites. cbn [writes flat_map app join fold_right].
        rewrite append_nil_r. reflexivity.
      * intros other _. rewrite Hfs. reflexivity.
      * intros x Hin. apply keys_dict_set in Hin. destruct Hin as [->|Hin]; [right; left|left]; auto.
      * intros _ Hfresh. exists []. split.
        -- rewrite !writes_app, Hwrites. reflexivity.
        -- rewrite !fetched_app, Hfetched. cbn [app fetched flat_map].
           unfold B. rewrite dict_set_fresh; [reflexivity|].
           apply Hfresh. left. reflexivity.
  - (* no data for the day: it is skipped *)
    exists ([Call day] ++ evs0).
    constructor; cbn [fst snd].
    + rewrite Hlog, <- !app_assoc. reflexivity.
    + rewrite !calls_app, Hcalls. reflexivity.
    + rewrite !fetched_app. exact Hsub.
    + rewrite Hfs, !writes_app, Hwrites. cbn [writes flat_map app join fold_right].
      rewrite append_nil_r. reflexivity.
    + intros other _. rewrite Hfs. reflexivity.
    + intros x Hin. left. exact Hin.
    + intros _ _. exists []. split.
      * rewrite !writes_app, Hwrites. reflexivity.
      * rewrite !fetched_app, Hfetched. cbn [app fetched flat_map].
        rewrite app_nil_r. reflexivity.
Qed.

Lemma backup_loop_cons (file : Path) (day : date) (days : list date) (st : dict JSON * world) :
  backup_loop file (day :: days) st = backup_loop file days (backup_step file st day).
Proof. reflexivity. Qed.

Lemma backup_loop_app (file : Path) (days1 days2 : list date) (st : dict JSON * world) :
  backup_loop file (days1 ++ days2) st = backup_loop file days2 (backup_loop file days1 st).
Proof. unfold backup_loop. apply fold_left_app. Qed.

Lemma backup_loop_run_from (file : Path) (days : list date) :
  forall (batch : dict JSON) (w : world),
    exists evs, loop_run file days batch w (backup_loop file days (batch, w)) evs.
Proof.
  induction days as [|d days IH]; intros batch w.
  - exists []. constructor; cbn [backup_loop fold_left fst snd].
    + rewrite app_nil_r. reflexivity.
    + reflexivity.
    + constructor.
    + cbn [writes flat_map join fold_right]. rewrite append_nil_r. reflexivity.
    + reflexivity.
    + auto.
    + intros _ _. exists []. rewrite app_nil_r. split; reflexivity.
  - rewrite backup_loop_cons.
    destruct (backup_step_run file batch w d) as [evs1 [Slog Scalls Sfetched Sc So Skeys Srec]].
    destruct (backup_step file (batch, w) d) as [batch1 w1]. cbn [fst snd] in *.
    destruct (IH batch1 w1) as [evs2 [Llog Lcalls Lfetched Lc Lo Lkeys Lrec]].
    exists (evs1 ++ evs2). constructor.
    + rewrite Llog, Slog, <- app_assoc. reflexivity.
    + rewrite calls_app, Scalls, Lcalls. reflexivity.
    + rewrite fetched_app, map_app. change (d :: days) with ([d] ++ days).
      apply sublist_app; assumption.
    + rewrite Lc, Sc, writes_app, join_app, append_assoc. reflexivity.
    + intros other Hne. rewrite Lo, So by exact Hne. reflexivity.
    + intros x Hin. destruct (Lkeys x Hin) as [Hin1|Hin2].
      * destruct (Skeys x Hin1) as [H|[<-|[]]]; [left|right; left]; auto.
      * right. right. exact Hin2.
    + intros Hnd Hfresh.
      apply NoDup_cons in Hnd. destruct Hnd as [Hd Hnd].
      destruct Srec as (R1 & Hw1 & HR1).
      { apply NoDup_singleton. }
      { intros x [<-|[]]. apply Hfresh. left. reflexivity. }
      destruct Lrec as (R2 & Hw2 & HR2).
      { exact Hnd. }
      { intros x Hx Hin. destruct (Skeys x Hin) as [H|[<-|[]]].
        - apply (Hfresh x); [right; exact Hx|exact H].
        - apply Hd. apply list_elem_of_In. exact Hx. }
      exists (R1 ++ R2). split.
      * rewrite writes_app, Hw1, Hw2, map_app. reflexivity.
      * rewrite <- app_assoc, HR2, app_assoc, HR1, fetched_app, app_assoc. reflexivity.
Qed.

Lemma backup_loop_run (file : Path) (days : list date) (st : dict JSON * world) :
  exists evs, loop_run file days (fst st) (snd st) (backup_loop file days st) evs.
Proof. destruct st as [batch w]. apply backup_loop_run_from. Qed.

(** What a whole run leaves behind. *)
Lemma backup_run (date_range : list date) (file : Path) (w : world) :
  exists evs,
    log (backup date_range file w) = log w ++ evs
    /\ calls evs = date_range
    /\ map fst (fetched evs) `sublist_of` date_range
    /\ content (fs (backup date_range file w)) file
       = content (fs w) file +:+ join (writes file evs)
    /\ (forall other, other <> file -> fs (backup date_range file w) !! other = fs w !! other)
    /\ (NoDup date_range -> writes file evs = map record_line (fetched evs)).
Proof.
  unfold backup.
  destruct (backup_loop_run file date_range ([], w))
    as [evs1 [Llog Lcalls Lfetched Lc Lo Lkeys Lrec]].
  destruct (backup_loop file date_range ([], w)) as [batch w1]. cbn [fst snd] in *.
  destruct (len batch >? 0) eqn:E.
  - destruct (append_to_json_file_run batch file w1) as (Alog & Aapi & Ac & Ao & As).
    exists (evs1 ++ flush_events file batch). repeat split.
    + rewrite Alog, Llog, <- app_assoc. reflexivity.
    + rewrite calls_app, Lcalls, calls_flush_events, app_nil_r. reflexivity.
    + rewrite fetched_app, fetched_flush_events, app_nil_r. exact Lfetched.
    + rewrite Ac, Lc, writes_app, writes_flush_events, join_app, append_assoc. reflexivity.
    + intros other Hne. rewrite Ao, Lo by exact Hne. reflexivity.
    + intros Hnd. destruct (Lrec Hnd) as (R & Hw & HR); [intros d _ []|].
      rewrite writes_app, writes_flush_events, Hw, <- map_app, HR.
      rewrite fetched_app, fetched_flush_events, app_nil_r. reflexivity.
  - assert (batch = []) as ->.
    { destruct batch; [reflexivity|]. rewrite len_gtb_0 in E. discriminate. }
    exists evs1. repeat split; auto.
    intros Hnd. destruct (Lrec Hnd) as (R & Hw & HR); [intros d _ []|].
    rewrite app_nil_r in HR. rewrite Hw, HR. reflexivity.
Qed.

(** *** The day fetcher against a service that raises *)

Lemma backup_date_after_failures (day : date) (w : world) (n : nat)
    (es : list string) (a1 : ApiState) :
  failures day n (api w) = Some (es, a1) ->
  Z.of_nat n <= RETRIES ->
  backup_date day w =
  backup_date_loop day (Z.of_nat n)
    {| api := a1; fs := fs w; log := log w ++ [Call day] ++ failed_attempts day 0 es |}.
Proof.
  intros Hf Hle. unfold backup_date.
  rewrite (backup_date_loop_failures day n 0 (emit (Call day) w) es a1 Hf) by lia.
  cbn [emit api fs log]. rewrite <- app_assoc. reflexivity.
Qed.

(** [n] failed attempts and then an answer, within the budget. *)
Lemma backup_date_retries (day : date) (w : world) (n : nat)
    (es : list string) (a1 a2 : ApiState) (payload : option JSON) :
  Z.of_nat n < RETRIES ->
  failures day n (api w) = Some (es, a1) ->
  get_historical_data_raw device_id day a1 = (Returns payload, a2) ->
  backup_date day w =
  (payload,
   {| api := a2; fs := fs w;
      log := log w ++ [Call day] ++ failed_attempts day 0 es ++ [Request day (Returns payload)] |}).
Proof.
  intros Hlt Hf Hok.
  rewrite (backup_date_after_failures day w n es a1 Hf) by lia.
  rewrite backup_date_loop_eq.
  destruct (Z_lt_dec (Z.of_nat n) RETRIES) as [_|Hn]; [|lia].
  unfold request. cbn [api fs log]. rewrite Hok.
  rewrite <- !app_assoc. reflexivity.
Qed.

(** Every attempt of the budget fails. *)
Lemma backup_date_exhausted (day : date) (w : world) (es : list string) (a1 : ApiState) :
  failures day (Z.to_nat RETRIES) (api w) = Some (es, a1) ->
  backup_date day w =
  (None,
   {| api := a1; fs := fs w;
      log := log w ++ [Call day] ++ failed_attempts day 0 es ++ [Print (failure_message day)] |}).
Proof.
  intros Hf.
  destruct (Z_le_gt_dec RETRIES 0) as [Hle|Hgt].
  - (* no attempt at all *)
    replace (Z.to_nat RETRIES) with 0%nat in Hf by lia.
    cbn [failures] in Hf. inversion Hf; subst; clear Hf.
    unfold backup_date. rewrite backup_date_loop_eq.
    destruct (Z_lt_dec 0 RETRIES) as [Hn|_]; [lia|].
    unfold print, emit. cbn [api fs log failed_attempts].
    rewrite <- !app_assoc. reflexivity.
  - rewrite (backup_date_after_failures day w _ es a1 Hf) by lia.
    rewrite backup_date_loop_eq.
    destruct (Z_lt_dec (Z.of_nat (Z.to_nat RETRIES)) RETRIES) as [Hn|_]; [lia|].
    unfold print, emit. cbn [api fs log].
    rewrite <- !app_assoc. reflexivity.
Qed.

Lemma failed_attempts_snoc (day : date) (es : list string) (e : string) :
  forall retries,
    failed_attempts day retries (es ++ [e])
    = failed_attempts day retries es
      ++ [Request day (Raises e); Print (error_message day e);
          Sleep (Z.of_N BACKOFF * (retries + Z.of_nat (length es) + 1))].
Proof.
  induction es as [|e0 es IH]; intros retries.
  - cbn [app failed_attempts length]. rewrite Z.add_0_r. reflexivity.
  - cbn [app failed_attempts length]. rewrite IH.
    replace (retries + 1 + Z.of_nat (length es) + 1)
      with (retries + Z.of_nat (S (length es)) + 1) by lia.
    reflexivity.
Qed.

Lemma prints_failed_attempts (day : date) (es : list string) :
  forall retries, prints (failed_attempts day retries es) = map (error_message day) es.
Proof.
  induction es as [|e es IH]; intros retries; [reflexivity|].
  cbn [failed_attempts]. rewrite prints_app, IH. reflexivity.
Qed.

(** The end of [backup]: what is left in the batch is flushed. *)
Lemma backup_eq (date_range : list date) (file : Path) (w : world) :
  backup date_range file w =
  let st := backup_loop file date_range ([], w) in
  if len (fst st) >? 0 then append_to_json_file (fst st) file (snd st) else snd st.
Proof.
  unfold backup. destruct (backup_loop file date_range _) as [batch w1]. reflexivity.
Qed.

Lemma backup_single_day (day : date) (file : Path) (w w1 : world) (v : JSON) :
  backup_date day w = (Some v, w1) ->
  backup [day] file w = append_to_json_file [(day, v)] file w1.
Proof.
  intros H. rewrite backup_eq. unfold backup_loop. cbn [fold_left].
  unfold backup_step. rewrite H. cbn [dict_set].
  destruct (len [(day, v)] >=? BATCH_APPEND); reflexivity.
Qed.

(** ** The day fetcher: retries, sleeps and giving up *)

(** C3: after a failed attempt the day fetcher sleeps [BACKOFF] times the
    number of the attempt, which is linear in that number.  When the
    first [n] attempts for a day raise and the next one answers, within
    the budget of [RETRIES] attempts, [backup_date] returns the payload
    of that answer after exactly [n] sleeps of [BACKOFF * 1], ...,
    [BACKOFF * n] seconds; with [RETRIES = 10] and nine failures these
    are the nine sleeps [BACKOFF * 1], ..., [BACKOFF * 9].  A run of
    [backup] over that day alone then writes the day's record once. *)
Theorem backup_date_linear_backoff (day : date) (w : world) (n : nat)
    (es : list string) (a1 a2 : ApiState) (payload : option JSON) :
  Z.of_nat n < RETRIES ->
  failures day n (api w) = Some (es, a1) ->
  get_historical_data_raw device_id day a1 = (Returns payload, a2) ->
  let res := backup_date day w in
  let evs := new_events w (snd res) in
  fst res = payload
  /\ evs = [Call day] ++ failed_attempts day 0 es ++ [Request day (Returns payload)]
  /\ sleeps evs = map (fun attempt => Z.of_N BACKOFF * attempt) (seqZ 1 (Z.of_nat n))
  /\ (RETRIES = 10 -> n = 9%nat ->
      sleeps evs = map (fun attempt => Z.of_N BACKOFF * attempt) [1; 2; 3; 4; 5; 6; 7; 8; 9])
  /\ (forall file v, payload = Some v ->
      writes file (new_events w (backup [day] file w)) = [record_line (day, v)]).
Proof.
  intros Hlt Hf Hok. cbv zeta.
  rewrite (backup_date_retries day w n es a1 a2 payload Hlt Hf Hok). cbn [fst snd].
  rewrite new_events_mk.
  assert (Hs : sleeps ([Call day] ++ failed_attempts day 0 es ++ [Request day (Returns payload)])
               = map (fun attempt => Z.of_N BACKOFF * attempt) (seqZ 1 (Z.of_nat n))).
  { rewrite !sleeps_app, sleeps_failed_attempts, (length_failures day n _ _ _ Hf).
    cbn [sleeps flat_map app]. rewrite app_nil_r. reflexivity. }
  repeat split.
  - exact Hs.
  - intros _ ->. rewrite Hs. reflexivity.
  - intros file v ->.
    rewrite (backup_single_day day file w _ v
               (backup_date_retries day w n es a1 a2 (Some v) Hlt Hf Hok)).
    destruct (append_to_json_file_run [(day, v)] file
                {| api := a2; fs := fs w;
                   log := log w ++ [Call day] ++ failed_attempts day 0 es
                          ++ [Request day (Returns (Some v))] |})
      as (Alog & _).
    cbn [log] in Alog. rewrite <- !app_assoc in Alog.
    rewrite (new_events_app w _ _ Alog).
    rewrite !writes_app, writes_flush_events.
    assert (Hw : forall r, writes file (failed_attempts day r es) = []).
    { clear. induction es as [|e es IH]; intros r; [reflexivity|].
      cbn [failed_attempts]. rewrite writes_app, IH. reflexivity. }
    rewrite Hw. reflexivity.
Qed.

(** C10: when every one of the [RETRIES] attempts for a day raises,
    [backup_date] sleeps [RETRIES] times, for [BACKOFF * 1], ...,
    [BACKOFF * RETRIES] seconds; the last sleep, of [BACKOFF * RETRIES]
    seconds, comes after the last failed attempt although no attempt
    follows it, and only then the failure is printed and [None]
    returned. *)
Theorem backup_date_sleeps_after_last_attempt (day : date) (w : world)
    (es : list string) (a1 : ApiState) :
  failures day (Z.to_nat RETRIES) (api w) = Some (es, a1) ->
  let res := backup_date day w in
  let evs := new_events w (snd res) in
  fst res = None
  /\ evs = [Call day] ++ failed_attempts day 0 es ++ [Print (failure_message day)]
  /\ sleeps evs = map (fun attempt => Z.of_N BACKOFF * attempt) (seqZ 1 RETRIES)
  /\ length (sleeps evs) = Z.to_nat RETRIES
  /\ (0 < RETRIES ->
      exists evs0 e,
        evs = evs0 ++ [Request day (Raises e); Print (error_message day e);
                       Sleep (Z.of_N BACKOFF * RETRIES); Print (failure_message day)]).
Proof.
  intros Hf. cbv zeta.
  rewrite (backup_date_exhausted day w es a1 Hf). cbn [fst snd].
  rewrite new_events_mk.
  pose proof (length_failures day _ _ _ _ Hf) as Hlen.
  assert (Hs : sleeps ([Call day] ++ failed_attempts day 0 es ++ [Print (failure_message day)])
               = map (fun attempt => Z.of_N BACKOFF * attempt) (seqZ 1 RETRIES)).
  { rewrite !sleeps_app, sleeps_failed_attempts, Hlen.
    cbn [sleeps flat_map app]. rewrite app_nil_r.
    destruct (Z_le_gt_dec RETRIES 0) as [Hle|Hgt].
    - rewrite !seqZ_nil by lia. reflexivity.
    - rewrite Z2Nat.id by lia. reflexivity. }
  repeat split.
  - exact Hs.
  - rewrite Hs, length_map, length_seqZ. reflexivity.
  - intros Hpos.
    destruct (exists_last (l := es)) as (es0 & e & ->).
    { intros ->. cbn [length] in Hlen. lia. }
    exists ([Call day] ++ failed_attempts day 0 es0), e.
    rewrite failed_attempts_snoc, <- !app_assoc.
    rewrite length_app in Hlen. cbn [length] in Hlen.
    replace (0 + Z.of_nat (length es0) + 1) with RETRIES by lia.
    reflexivity.
Qed.




(** ** A whole run *)

Lemma fetched_in_requests (evs : list (event JSON)) (day : date) (v : JSON) :
  In (day, v) (fetched evs) -> In (day, Returns (Some v)) (requests evs).
Proof.
  induction evs as [|e evs IH]; [intros []|].
  change (e :: evs) with ([e] ++ evs). rewrite fetched_app, requests_app.
  intros Hin. apply in_app_or in Hin. apply in_or_app.
  destruct Hin as [Hin|Hin]; [left|right; auto].
  destruct e as [d|d [[v'|]|e']|l|z|f|f t|f]; cbn [fetched flat_map app In] in Hin;
    try contradiction.
  destruct Hin as [Heq|[]]. inversion Heq; subst. left. reflexivity.
Qed.

Lemma sublist_StronglySorted {A : Type} (R : A -> A -> Prop) (l1 l2 : list A) :
  l1 `sublist_of` l2 -> StronglySorted R l2 -> StronglySorted R l1.
Proof.
  intros Hsub. induction Hsub as [|x l1 l2 Hsub IH|x l1 l2 Hsub IH]; intros Hs.
  - constructor.
  - apply StronglySorted_inv in Hs. destruct Hs as [Hs Hall]. constructor; [auto|].
    apply Forall_forall. intros y Hy. rewrite Forall_forall in Hall. apply Hall.
    apply (sublist_subseteq _ _ Hsub). exact Hy.
  - apply StronglySorted_inv in Hs. destruct Hs as [Hs _]. auto.
Qed.

Lemma filter_absent_key (items : list (date * JSON)) (day : date) :
  ~ In day (map fst items) -> List.filter (fun item => fst item =? day) items = [].
Proof.
  induction items as [|[d x] items IH]; intros Hd; [reflexivity|].
  cbn [List.filter fst]. destruct (Z.eqb_spec d day) as [->|].
  - exfalso. apply Hd. left. reflexivity.
  - apply IH. intros Hin. apply Hd. right. exact Hin.
Qed.

Lemma filter_unique_key (items : list (date * JSON)) (day : date) (v : JSON) :
  NoDup (map fst items) -> In (day, v) items ->
  List.filter (fun item => fst item =? day) items = [(day, v)].
Proof.
  induction items as [|[d x] items IH]; intros Hnd Hin; [destruct Hin|].
  cbn [map fst] in Hnd. apply NoDup_cons in Hnd. destruct Hnd as [Hd Hnd].
  cbn [List.filter fst]. destruct Hin as [Heq|Hin].
  - inversion Heq; subst. rewrite Z.eqb_refl. f_equal.
    apply filter_absent_key. intros Hin'. apply Hd. apply list_elem_of_In. exact Hin'.
  - destruct (Z.eqb_spec d day) as [->|].
    + exfalso. apply Hd. apply list_elem_of_In. apply (in_map fst _ _ Hin).
    + apply IH; assumption.
Qed.

(** Among the lines of records with distinct days, the line of a day is
    at one place only. *)
Lemma record_lines_unique (items : list (date * JSON)) :
  NoDup (map fst items) ->
  Forall (fun item => valid (fst item)) items ->
  forall day i j v v',
    valid day ->
    map record_line items !! i = Some (record_line (day, v)) ->
    map record_line items !! j = Some (record_line (day, v')) ->
    i = j.
Proof.
  intros Hnd Hvalid day i j v v' Vday Hi Hj.
  assert (Hkey : forall k x,
             map record_line items !! k = Some (record_line (day, x)) ->
             map fst items !! k = Some day).
  { intros k x Hk. change (map record_line items) with (record_line <$> items) in Hk.
    apply list_lookup_fmap_Some in Hk. destruct Hk as (item & Hline & Hitem).
    change (map fst items) with (fst <$> items). rewrite list_lookup_fmap, Hitem.
    cbn [fmap option_fmap option_map]. f_equal.
    apply (record_line_day item (day, x)); [|exact Vday|congruence].
    rewrite Forall_forall in Hvalid. apply Hvalid.
    apply list_elem_of_lookup. eauto. }
  eapply NoDup_lookup; [exact Hnd|eapply Hkey; eassumption|eapply Hkey; eassumption].
Qed.

Lemma fetched_days_valid (evs : list (event JSON)) (date_range : list date) :
  map fst (fetched evs) `sublist_of` date_range ->
  Forall valid date_range ->
  Forall (fun item => valid (fst item)) (fetched evs).
Proof.
  intros Hsub Hvalid. apply Forall_forall. intros item Hin.
  rewrite Forall_forall in Hvalid. apply Hvalid.
  apply (sublist_subseteq _ _ Hsub). apply list_elem_of_In.
  apply in_map. apply list_elem_of_In. exact Hin.
Qed.

(** C1: in a run of [backup] over distinct days every day of the range
    is handed to the day fetcher exactly once, in order.  What is written
    to the file are the whole lines of the days the API answered with a
    payload, one line for each, so that a day has at most one record
    (for dates of the calendar: the line of a day is at one place at
    most among the texts written); a day for which no call was answered
    with a payload (every attempt raised) has none. *)
Theorem backup_each_day_once (date_range : list date) (file : Path) (w : world) :
  NoDup date_range ->
  let evs := new_events w (backup date_range file w) in
  calls evs = date_range
  /\ (forall day, In day date_range -> count_occ Z.eq_dec (calls evs) day = 1%nat)
  /\ writes file evs = map record_line (fetched evs)
  /\ (forall day, (count_occ Z.eq_dec (map fst (fetched evs)) day <= 1)%nat)
  /\ (forall day,
        (forall v, ~ In (day, Returns (Some v)) (requests evs)) ->
        ~ In day (map fst (fetched evs)))
  /\ (Forall valid date_range ->
      forall day i j v v',
        valid day ->
        writes file evs !! i = Some (record_line (day, v)) ->
        writes file evs !! j = Some (record_line (day, v')) ->
        i = j)
  /\ content (fs (backup date_range file w)) file
     = content (fs w) file +:+ join (map record_line (fetched evs)).
Proof.
  intros Hnd. cbv zeta.
  destruct (backup_run date_range file w) as (evs & Hlog & Hcalls & Hsub & Hc & _ & Hrec).
  rewrite (new_events_app _ _ _ Hlog).
  split; [|split; [|split; [|split; [|split; [|split]]]]].
  - exact Hcalls.
  - intros day Hin. rewrite Hcalls.
    apply (proj1 (NoDup_count_occ' Z.eq_dec date_range)); [|exact Hin].
    apply NoDup_ListNoDup. exact Hnd.
  - apply Hrec, Hnd.
  - apply (proj1 (NoDup_count_occ Z.eq_dec _)). apply NoDup_ListNoDup.
    eapply sublist_NoDup; eassumption.
  - intros day Hnone Hin. apply in_map_iff in Hin. destruct Hin as ([d v] & Hd & Hin).
    cbn [fst] in Hd. subst d. apply (Hnone v). apply fetched_in_requests. exact Hin.
  - intros Hvalid day i j v v' Vday. rewrite (Hrec Hnd).
    apply record_lines_unique; [|eapply fetched_days_valid; eassumption|exact Vday].
    eapply sublist_NoDup; eassumption.
  - rewrite Hc, (Hrec Hnd). reflexivity.
Qed.

(** *** The size of the batch *)

Lemma backup_step_size (file : Path) (st : dict JSON * world) (day : date) :
  0 < BATCH_APPEND ->
  len (fst st) < BATCH_APPEND ->
  len (fst (backup_step file st day)) < BATCH_APPEND.
Proof.
  intros Hpos Hlt. destruct st as [batch w]. unfold backup_step.
  destruct (backup_date day w) as [[v|] w1]; cbn [fst] in *; [|exact Hlt].
  destruct (len (dict_set batch day v) >=? BATCH_APPEND) eqn:E; cbn [fst].
  - exact Hpos.
  - rewrite Z.geb_leb in E. apply Z.leb_gt in E. exact E.
Qed.

Lemma backup_loop_size (file : Path) (days : list date) :
  forall st : dict JSON * world,
    0 < BATCH_APPEND ->
    len (fst st) < BATCH_APPEND ->
    len (fst (backup_loop file days st)) < BATCH_APPEND.
Proof.
  induction days as [|d days IH]; intros st Hpos Hlt; [exact Hlt|].
  rewrite backup_loop_cons. apply IH; [exact Hpos|].
  apply backup_step_size; assumption.
Qed.

(** C2: with a threshold [BATCH_APPEND] of at least one, at every turn
    of the driver's loop the batch holds fewer entries than the
    threshold when the turn starts and when the loop ends, and at most
    the threshold right after the day's payload is put into it.  If it
    then holds the threshold, it is flushed in that same turn and the
    turn ends with the empty batch; otherwise the turn ends with the
    batch as it is.  A flush opens the file, writes one line for each
    entry, the JSON object and a line feed, in the iteration order of the
    batch, and closes the file. *)
Theorem backup_batch_bounded (date_range : list date) (file : Path) (w : world) :
  0 < BATCH_APPEND ->
  forall days1 days2, date_range = days1 ++ days2 ->
    let st := backup_loop file days1 ([], w) in
    len (fst st) < BATCH_APPEND
    /\ (forall day days3 v w1,
          days2 = day :: days3 ->
          backup_date day (snd st) = (Some v, w1) ->
          let batch := dict_set (fst st) day v in
          len batch <= BATCH_APPEND
          /\ (len batch = BATCH_APPEND ->
              backup_step file st day = ([], append_to_json_file batch file w1))
          /\ (len batch < BATCH_APPEND -> backup_step file st day = (batch, w1)))
    /\ (forall (batch : dict JSON) (w1 : world),
          let w2 := append_to_json_file batch file w1 in
          new_events w1 w2
          = [Open file]
              ++ map (fun item => Write file (json_object item +:+ String LF EmptyString)) batch
              ++ [Close file]
          /\ content (fs w2) file
             = content (fs w1) file
               +:+ join (map (fun item => json_object item +:+ String LF EmptyString) batch)).
Proof.
  intros Hpos days1 days2 _. cbv zeta.
  assert (Hhead : len (fst (backup_loop file days1 ([], w))) < BATCH_APPEND).
  { apply backup_loop_size; [exact Hpos|]. cbn [fst]. exact Hpos. }
  split; [exact Hhead|split].
  - intros day days3 v w1 _ Hfetch.
    destruct (backup_loop file days1 ([], w)) as [batch0 w0]. cbn [fst snd] in *.
    pose proof (length_dict_set batch0 day v) as [[_ Hup] _].
    assert (Hle : len (dict_set batch0 day v) <= BATCH_APPEND).
    { unfold len in *. lia. }
    split; [exact Hle|split].
    + intros Heq. unfold backup_step. rewrite Hfetch.
      destruct (len (dict_set batch0 day v) >=? BATCH_APPEND) eqn:E; [reflexivity|].
      rewrite Z.geb_leb in E. apply Z.leb_gt in E. lia.
    + intros Hlt. unfold backup_step. rewrite Hfetch.
      destruct (len (dict_set batch0 day v) >=? BATCH_APPEND) eqn:E; [|reflexivity].
      rewrite Z.geb_leb in E. apply Z.leb_le in E. lia.
  - intros batch w1.
    destruct (append_to_json_file_run batch file w1) as (Alog & _ & Ac & _).
    split.
    + rewrite (new_events_app _ _ _ Alog). reflexivity.
    + exact Ac.
Qed.

(** C7: a flush of the empty batch writes nothing: it opens the file
    and closes it, the text of the file, and so its number of lines, is
    what it was, and the files are the same as before, but for the file
    itself, which opening it for appending creates, empty, when it did
    not exist. *)
Theorem append_empty_batch (file : Path) (w : world) :
  let w' := append_to_json_file [] file w in
  new_events w w' = [Open file; Close file]
  /\ writes file (new_events w w') = []
  /\ content (fs w') file = content (fs w) file
  /\ count_lines (content (fs w') file) = count_lines (content (fs w) file)
  /\ fs w' = match fs w !! file with
             | Some _ => fs w
             | None => <[file := ""]> (fs w)
             end
  /\ (is_Some (fs w !! file) -> fs w' = fs w)
  /\ api w' = api w.
Proof.
  cbv zeta.
  assert (Hev : new_events w (append_to_json_file [] file w) = [Open file; Close file]).
  { apply new_events_app. unfold append_to_json_file, close, emit, open_append.
    cbn [fold_left log]. rewrite <- app_assoc. reflexivity. }
  assert (Hc : content (fs (append_to_json_file [] file w)) file = content (fs w) file).
  { unfold append_to_json_file, close, emit, open_append, content. cbn [fold_left fs].
    destruct (fs w !! file) eqn:E; [rewrite E; reflexivity|].
    rewrite lookup_insert_eq. reflexivity. }
  rewrite Hev, Hc. repeat split.
  intros [text E]. unfold append_to_json_file, close, emit, open_append.
  cbn [fold_left fs]. rewrite E. reflexivity.
Qed.

(** C8: when the first day and the day after the last are the same, the
    range of days is empty, and [backup] over the empty range does
    nothing at all: no flush, no file opened or written, the files as
    they were. *)
Theorem backup_empty_range (day : date) (file : Path) (w : world) :
  dates day day = Some []
  /\ backup [] file w = w
  /\ file_events (new_events w (backup [] file w)) = []
  /\ new_events w (backup [] file w) = []
  /\ fs (backup [] file w) = fs w
  /\ fs (backup [] file w) !! file = fs w !! file.
Proof.
  assert (Hd : dates day day = Some []).
  { unfold dates, sub, range. cbn [days]. rewrite Z.sub_diag. reflexivity. }
  assert (Hb : backup [] file w = w) by reflexivity.
  rewrite Hb, new_events_refl. repeat split. exact Hd.
Qed.

(** *** A service that always answers *)

Lemma backup_date_answers (day : date) (w : world) :
  always_answers -> 0 < RETRIES ->
  exists v a',
    backup_date day w
    = (Some v, {| api := a'; fs := fs w;
                  log := log w ++ [Call day; Request day (Returns (Some v))] |}).
Proof.
  intros Hans Hpos. destruct (Hans day (api w)) as (v & a' & Hv).
  exists v, a'.
  rewrite (backup_date_retries day w 0 [] (api w) a' (Some v)); [reflexivity|lia|reflexivity|exact Hv].
Qed.

(** While the batch stays below the threshold, the loop only adds the
    days it is given to the batch, in order, and touches no file. *)
Lemma backup_loop_accumulates (file : Path) (days : list date) :
  forall (batch : dict JSON) (w : world),
    always_answers -> 0 < RETRIES ->
    NoDup days -> (forall d, In d days -> ~ In d (keys batch)) ->
    len batch + Z.of_nat (length days) < BATCH_APPEND ->
    exists items w',
      backup_loop file days (batch, w) = (batch ++ items, w')
      /\ map fst items = days
      /\ fs w' = fs w
      /\ file_events (new_events w w') = []
      /\ exists evs, log w' = log w ++ evs.
Proof.
  induction days as [|d days IH]; intros batch w Hans Hpos Hnd Hfresh Hlt.
  - exists [], w. rewrite app_nil_r, new_events_refl. repeat split.
    exists []. rewrite app_nil_r. reflexivity.
  - apply NoDup_cons in Hnd. destruct Hnd as [Hd Hnd].
    cbn [length] in Hlt.
    destruct (backup_date_answers d w Hans Hpos) as (v & a' & Hv).
    rewrite backup_loop_cons. unfold backup_step at 1. rewrite Hv.
    rewrite dict_set_fresh by (apply Hfresh; left; reflexivity).
    assert (Hlen : len (batch ++ [(d, v)]) = len batch + 1).
    { unfold len. rewrite length_app. cbn [length]. lia. }
    destruct (len (batch ++ [(d, v)]) >=? BATCH_APPEND) eqn:E.
    { rewrite Z.geb_leb in E. apply Z.leb_le in E. lia. }
    match goal with |- context [backup_loop file days (_, ?w1)] =>
      destruct (IH (batch ++ [(d, v)]) w1 Hans Hpos Hnd) as (items & w' & Hloop & Hmap & Hfs & Hfe & evs & Hlog)
    end.
    { intros x Hx Hin. unfold keys in Hin. rewrite map_app in Hin.
      apply in_app_or in Hin. destruct Hin as [Hin|[<-|[]]].
      - apply (Hfresh x); [right; exact Hx|exact Hin].
      - apply Hd. apply list_elem_of_In. exact Hx. }
    { lia. }
    rewrite (new_events_app _ _ _ Hlog) in Hfe.
    exists ((d, v) :: items), w'. cbn [fs log] in *.
    rewrite <- app_assoc in Hlog.
    repeat split.
    + rewrite Hloop, <- app_assoc. reflexivity.
    + cbn [map fst]. rewrite Hmap. reflexivity.
    + exact Hfs.
    + rewrite (new_events_app _ _ _ Hlog), file_events_app, Hfe. reflexivity.
    + eexists. exact Hlog.
Qed.

(** The turn in which the batch reaches the threshold flushes it. *)
Lemma backup_step_flushes (file : Path) (batch : dict JSON) (w : world) (d : date) :
  always_answers -> 0 < RETRIES ->
  ~ In d (keys batch) ->
  BATCH_APPEND <= len batch + 1 ->
  exists v w',
    backup_step file (batch, w) d = ([], w')
    /\ file_events (new_events w w') = flush_events file (batch ++ [(d, v)])
    /\ content (fs w') file
       = content (fs w) file +:+ join (map record_line (batch ++ [(d, v)]))
    /\ exists evs, log w' = log w ++ evs.
Proof.
  intros Hans Hpos Hfresh Hfull.
  destruct (backup_date_answers d w Hans Hpos) as (v & a' & Hv).
  unfold backup_step. rewrite Hv. rewrite dict_set_fresh by exact Hfresh.
  assert (Hlen : len (batch ++ [(d, v)]) = len batch + 1).
  { unfold len. rewrite length_app. cbn [length]. lia. }
  destruct (len (batch ++ [(d, v)]) >=? BATCH_APPEND) eqn:E.
  2:{ rewrite Z.geb_leb in E. apply Z.leb_gt in E. lia. }
  match goal with |- context [append_to_json_file ?b file ?w1] =>
    destruct (append_to_json_file_run b file w1) as (Alog & _ & Ac & _)
  end.
  cbn [fs log] in *. rewrite <- app_assoc in Alog.
  exists v. eexists. split; [reflexivity|]. repeat split.
  - rewrite (new_events_app _ _ _ Alog), file_events_app, file_events_flush_events.
    reflexivity.
  - exact Ac.
  - eexists. exact Alog.
Qed.

Lemma new_events_trans (w w1 w2 : world) (evs1 evs2 : list (event JSON)) :
  log w1 = log w ++ evs1 -> log w2 = log w1 ++ evs2 ->
  new_events w w2 = new_events w w1 ++ new_events w1 w2.
Proof.
  intros H1 H2. rewrite (new_events_app _ _ _ H1), (new_events_app _ _ _ H2).
  apply new_events_app. rewrite H2, H1, <- app_assoc. reflexivity.
Qed.

(** *** Counting lines *)

Lemma decimal_digit_not_LF (k : nat) :
  (k < 10)%nat -> Ascii.eqb (ascii_of_nat (48 + k)) LF = false.
Proof.
  intros H. do 10 (destruct k as [|k]; [reflexivity|]). lia.
Qed.

Lemma digit_not_LF (n : Z) : Ascii.eqb (digit n) LF = false.
Proof.
  unfold digit. apply decimal_digit_not_LF.
  pose proof (Z.mod_pos_bound n 10). lia.
Qed.

Lemma count_lines_isoformat (day : date) : count_lines (isoformat day) = 0%nat.
Proof.
  unfold isoformat. destruct (ord2ymd day) as [[y m] dd].
  unfold pad4, pad2. rewrite !append_cons, !append_nil_l.
  cbn [count_lines]. rewrite !digit_not_LF. reflexivity.
Qed.

Lemma count_lines_record_line (item : date * JSON) :
  count_lines (dumps (snd item)) = 0%nat -> count_lines (record_line item) = 1%nat.
Proof.
  intros H. unfold record_line, json_object, quoted.
  rewrite !count_lines_append, count_lines_isoformat, H. reflexivity.
Qed.

Lemma count_lines_records (items : list (date * JSON)) :
  (forall v, count_lines (dumps v) = 0%nat) ->
  count_lines (join (map record_line items)) = length items.
Proof.
  intros H. induction items as [|item items IH]; [reflexivity|].
  cbn [map join fold_right length]. fold (join (map record_line items)).
  rewrite count_lines_append, IH, count_lines_record_line by apply H. reflexivity.
Qed.

(** C5: over twenty consecutive days, with a threshold of fifteen and a
    service that answers every call, [backup] flushes twice: the first
    flush writes the records of the first fifteen days, the second
    those of the last five, in the order of the days.  Twenty texts are
    written in all, and when the serialised payloads hold no line feed
    the file has twenty lines more than before: twenty lines when it did
    not exist. *)
Theorem backup_twenty_days (start : date) (file : Path) (w : world) :
  BATCH_APPEND = 15 -> 0 < RETRIES -> always_answers ->
  let date_range := seqZ start 20 in
  let w' := backup date_range file w in
  let evs := new_events w w' in
  exists first second : dict JSON,
    length first = 15%nat /\ length second = 5%nat
    /\ map fst (first ++ second) = date_range
    /\ file_events evs = flush_events file first ++ flush_events file second
    /\ writes file evs = map record_line (first ++ second)
    /\ length (writes file evs) = 20%nat
    /\ content (fs w') file = content (fs w) file +:+ join (map record_line (first ++ second))
    /\ ((forall v, count_lines (dumps v) = 0%nat) ->
        count_lines (content (fs w') file) = (count_lines (content (fs w) file) + 20)%nat
        /\ (fs w !! file = None -> count_lines (content (fs w') file) = 20%nat)).
Proof.
  intros Hthreshold Hpos Hans. cbv zeta.
  (* the range: fourteen days, the fifteenth, five more *)
  assert (Hrange : seqZ start 20 = seqZ start 14 ++ [start + 14] ++ seqZ (start + 15) 5).
  { change 20 with (14 + (1 + 5)). rewrite seqZ_app by lia. f_equal.
    rewrite seqZ_app by lia.
    replace (start + 14 + 1) with (start + 15) by lia. reflexivity. }
  rewrite backup_eq. cbv zeta. rewrite Hrange, !backup_loop_app.
  (* fourteen days go into the batch *)
  destruct (backup_loop_accumulates file (seqZ start 14) [] w Hans Hpos)
    as (items1 & w1 & Hloop1 & Hmap1 & Hfs1 & Hfe1 & evs1 & Hlog1).
  { apply NoDup_seqZ. }
  { intros d _ []. }
  { rewrite length_seqZ. unfold len. cbn [length]. lia. }
  cbn [app] in Hloop1.
  assert (Hlen1 : length items1 = 14%nat).
  { rewrite <- (length_map fst), Hmap1, length_seqZ. reflexivity. }
  (* the fifteenth fills it *)
  destruct (backup_step_flushes file items1 w1 (start + 14) Hans Hpos)
    as (v & w2 & Hstep & Hfe2 & Hc2 & evs2 & Hlog2).
  { unfold keys. rewrite Hmap1. intros Hin. apply list_elem_of_In, elem_of_seqZ in Hin. lia. }
  { unfold len. lia. }
  (* five more days go into the next batch *)
  destruct (backup_loop_accumulates file (seqZ (start + 15) 5) [] w2 Hans Hpos)
    as (items3 & w3 & Hloop3 & Hmap3 & Hfs3 & Hfe3 & evs3 & Hlog3).
  { apply NoDup_seqZ. }
  { intros d _ []. }
  { rewrite length_seqZ. unfold len. cbn [length]. lia. }
  cbn [app] in Hloop3.
  assert (Hlen3 : length items3 = 5%nat).
  { rewrite <- (length_map fst), Hmap3, length_seqZ. reflexivity. }
  rewrite Hloop1. change (backup_loop file [start + 14] (items1, w1))
    with (backup_step file (items1, w1) (start + 14)).
  rewrite Hstep, Hloop3. cbn [fst snd].
  rewrite len_gtb_0. destruct items3 as [|item3 items3]; [discriminate Hlen3|].
  set (second := item3 :: items3) in *.
  set (first := items1 ++ [(start + 14, v)]) in *.
  destruct (append_to_json_file_run second file w3) as (Alog & _ & Ac & _).
  exists first, second.
  assert (Hev : new_events w (append_to_json_file second file w3)
                = new_events w w1 ++ new_events w1 w2 ++ new_events w2 w3
                  ++ flush_events file second).
  { rewrite (new_events_app _ _ _ Hlog1), (new_events_app _ _ _ Hlog2),
      (new_events_app _ _ _ Hlog3).
    apply new_events_app. rewrite Alog, Hlog3, Hlog2, Hlog1, <- !app_assoc. reflexivity. }
  assert (Hfe : file_events (new_events w (append_to_json_file second file w3))
                = flush_events file first ++ flush_events file second).
  { rewrite Hev, !file_events_app, Hfe1, Hfe2, Hfe3, file_events_flush_events. reflexivity. }
  assert (Hw : writes file (new_events w (append_to_json_file second file w3))
               = map record_line (first ++ second)).
  { assert (Hwf : forall evs : list (event JSON),
               writes file (file_events evs) = writes file evs).
    { clear. induction evs as [|e evs IH]; [reflexivity|].
      change (e :: evs) with ([e] ++ evs). rewrite file_events_app, !writes_app, IH.
      f_equal. destruct e; reflexivity. }
    rewrite <- Hwf, Hfe, writes_app, !writes_flush_events, map_app. reflexivity. }
  assert (Hc : content (fs (append_to_json_file second file w3)) file
               = content (fs w) file +:+ join (map record_line (first ++ second))).
  { rewrite Ac, Hfs3, Hc2, Hfs1. unfold first.
    rewrite !map_app, !join_app, !append_assoc. reflexivity. }
  assert (Hlen : length (first ++ second) = 20%nat).
  { unfold first. rewrite !length_app, Hlen1, Hlen3. reflexivity. }
  repeat split.
  - unfold first. rewrite length_app, Hlen1. reflexivity.
  - exact Hlen3.
  - unfold first. rewrite !map_app, Hmap1, Hmap3, <- app_assoc. reflexivity.
  - exact Hfe.
  - exact Hw.
  - rewrite Hw, length_map. exact Hlen.
  - exact Hc.
  - rewrite Hc, count_lines_append, count_lines_records, Hlen by assumption. reflexivity.
  - intros Hnone. rewrite Hc, count_lines_append, count_lines_records, Hlen by assumption.
    unfold content. rewrite Hnone. reflexivity.
Qed.

(** ** Every run of the day fetcher *)

(** Calls that raise, as many as the budget allows: either all of them
    raise, or an earlier call is answered. *)
Lemma failures_cases (day : date) (n : nat) :
  forall a,
    (exists es a', failures day n a = Some (es, a'))
    \/ (exists k es a1 payload a2,
          (k < n)%nat /\ failures day k a = Some (es, a1)
          /\ get_historical_data_raw device_id day a1 = (Returns payload, a2)).
Proof.
  induction n as [|n IH]; intros a.
  - left. exists [], a. reflexivity.
  - destruct (get_historical_data_raw device_id day a) as [[payload|e] a1] eqn:E.
    + right. exists 0%nat, [], a, payload, a1. repeat split; [lia|exact E].
    + destruct (IH a1) as [(es & a' & Hf)|(k & es & a2 & payload & a3 & Hk & Hf & Hok)].
      * left. exists (e :: es), a'. cbn [failures]. rewrite E, Hf. reflexivity.
      * right. exists (S k), (e :: es), a2, payload, a3. repeat split; [lia| |exact Hok].
        cbn [failures]. rewrite E, Hf. reflexivity.
Qed.

(** The two ways a run of [backup_date] can go, with the world it
    leaves. *)
Lemma backup_date_cases (day : date) (w : world) :
  exists (es : list string) (a : ApiState),
    (exists payload,
        Z.of_nat (length es) < RETRIES
        /\ backup_date day w
           = (payload,
              {| api := a; fs := fs w;
                 log := log w ++ [Call day] ++ failed_attempts day 0 es
                        ++ [Request day (Returns payload)] |}))
    \/ (Z.of_nat (length es) = Z.max 0 RETRIES
        /\ backup_date day w
           = (None,
              {| api := a; fs := fs w;
                 log := log w ++ [Call day] ++ failed_attempts day 0 es
                        ++ [Print (failure_message day)] |})).
Proof.
  destruct (failures_cases day (Z.to_nat RETRIES) (api w))
    as [(es & a' & Hf)|(k & es & a1 & payload & a2 & Hk & Hf & Hok)].
  - exists es, a'. right. split.
    + rewrite (length_failures _ _ _ _ _ Hf). lia.
    + apply backup_date_exhausted. exact Hf.
  - exists es, a2. left. exists payload.
    pose proof (length_failures _ _ _ _ _ Hf) as Hlen. split; [lia|].
    apply (backup_date_retries day w k es a1 a2 payload); [lia|exact Hf|exact Hok].
Qed.

Lemma calls_failed_attempts (day : date) (es : list string) :
  forall retries, calls (failed_attempts day retries es) = [].
Proof.
  induction es as [|e es IH]; intros retries; [reflexivity|].
  cbn [failed_attempts]. rewrite calls_app, IH. reflexivity.
Qed.

Lemma file_events_failed_attempts (day : date) (es : list string) :
  forall retries, file_events (failed_attempts day retries es) = [].
Proof.
  induction es as [|e es IH]; intros retries; [reflexivity|].
  cbn [failed_attempts]. rewrite file_events_app, IH. reflexivity.
Qed.

(** X1: whatever the service does, a run of [backup_date] is a number of
    failed attempts, each a call that raises, the message about it and
    a sleep, followed either by one call that is answered, whose answer
    is the result, or, after as many failed attempts as the budget has,
    by the failure message, with the result [None].  Nothing follows
    the call that is answered, and no file is touched. *)
Theorem backup_date_answer_or_failure (day : date) (w : world) :
  let res := backup_date day w in
  let evs := new_events w (snd res) in
  fs (snd res) = fs w
  /\ exists es : list string,
       (Z.of_nat (length es) < RETRIES
        /\ evs = [Call day] ++ failed_attempts day 0 es ++ [Request day (Returns (fst res))])
       \/ (Z.of_nat (length es) = Z.max 0 RETRIES
           /\ fst res = None
           /\ evs = [Call day] ++ failed_attempts day 0 es ++ [Print (failure_message day)]).
Proof.
  cbv zeta.
  destruct (backup_date_cases day w) as (es & a & [(payload & Hlt & ->)|(Hlen & ->)]);
    cbn [fst snd fs]; rewrite new_events_mk; (split; [reflexivity|]); exists es.
  - left. split; [exact Hlt|reflexivity].
  - right. repeat split. exact Hlen.
Qed.

(** ** The files after a run *)

Lemma appended_app (files : gmap string string) (file : Path) (l1 l2 : list string) :
  appended (appended files file l1) file l2 = appended files file (l1 ++ l2).
Proof.
  destruct l1 as [|x l1]; [reflexivity|].
  destruct l2 as [|y l2]; [rewrite app_nil_r; reflexivity|].
  unfold appended at 1 2. cbn [app].
  unfold appended. rewrite content_insert, insert_insert_eq.
  change (x :: l1 ++ y :: l2) with ((x :: l1) ++ y :: l2).
  rewrite join_app, append_assoc. reflexivity.
Qed.

Lemma writes_fs (file : Path) (batch : dict JSON) :
  forall w : world,
    fs (fold_left (fun w item => write file (record_line item) w) batch w)
    = appended (fs w) file (map record_line batch).
Proof.
  induction batch as [|item batch IH]; intros w; [reflexivity|].
  cbn [fold_left]. rewrite IH. cbn [write fs map].
  change (record_line item :: map record_line batch)
    with ([record_line item] ++ map record_line batch).
  rewrite <- appended_app. f_equal.
  unfold appended. cbn [join fold_right]. rewrite append_nil_r. reflexivity.
Qed.

(** A flush of a batch that is not empty leaves the files as they were
    but for the file, which ends with the lines of the batch. *)
Lemma append_to_json_file_fs (batch : dict JSON) (file : Path) (w : world) :
  batch <> [] ->
  fs (append_to_json_file batch file w) = appended (fs w) file (map record_line batch).
Proof.
  intros Hne. unfold append_to_json_file, close, emit. cbn [fs].
  rewrite writes_fs. unfold open_append. cbn [fs].
  destruct batch as [|item batch]; [congruence|]. cbn [map].
  destruct (fs w !! file) eqn:E; [reflexivity|].
  unfold appended, content. rewrite lookup_insert_eq, E, insert_insert_eq. reflexivity.
Qed.

Lemma requests_flush_events (file : Path) (batch : dict JSON) :
  requests (flush_events file batch) = [].
Proof.
  unfold flush_events. rewrite !requests_app.
  assert (H : requests (map (fun item => @Write JSON file (record_line item)) batch) = []).
  { induction batch as [|item batch IH]; [reflexivity|]. exact IH. }
  rewrite H. reflexivity.
Qed.

Lemma sleeps_flush_events (file : Path) (batch : dict JSON) :
  sleeps (flush_events file batch) = [].
Proof.
  unfold flush_events. rewrite !sleeps_app.
  assert (H : sleeps (map (fun item => @Write JSON file (record_line item)) batch) = []).
  { induction batch as [|item batch IH]; [reflexivity|]. exact IH. }
  rewrite H. reflexivity.
Qed.

Lemma dict_set_not_nil (batch : dict JSON) (k : date) (v : JSON) : dict_set batch k v <> [].
Proof.
  pose proof (length_dict_set batch k v) as [_ H].
  destruct (dict_set batch k v); [cbn [length] in H; lia|discriminate].
Qed.

(** *** The driver's loop and the batches *)

(** The loop flushes the batches that [batching] makes of the records
    fetched, and holds the batch that is left.  The files change by the
    lines written to the file, and by nothing else. *)
Lemma backup_loop_batching (file : Path) (days : list date) :
  forall (batch : dict JSON) (w : world),
    exists evs,
      log (snd (backup_loop file days (batch, w))) = log w ++ evs
      /\ fst (backup_loop file days (batch, w)) = snd (batching batch (fetched evs))
      /\ file_events evs = flat_map (flush_events file) (fst (batching batch (fetched evs)))
      /\ fs (snd (backup_loop file days (batch, w))) = appended (fs w) file (writes file evs).
Proof.
  induction days as [|day days IH]; intros batch w.
  - exists []. cbn [backup_loop fold_left fst snd]. rewrite app_nil_r. repeat split.
  - rewrite backup_loop_cons. unfold backup_step.
    destruct (backup_date_run day w)
      as [evs0 [Hlog Hfs _ Hfiles Hwrites Hfetched _ _]].
    destruct (backup_date day w) as [data w1]. cbn [fst snd emit log fs] in *.
    destruct data as [v|].
    + set (B := dict_set batch day v).
      destruct (len B >=? BATCH_APPEND) eqn:Efull.
      * destruct (append_to_json_file_run B file w1) as (Alog & _).
        pose proof (append_to_json_file_fs B file w1 (dict_set_not_nil batch day v)) as Afs.
        destruct (IH [] (append_to_json_file B file w1)) as (evs & Llog & Lbatch & Lfiles & Lfs).
        exists ([Call day] ++ evs0 ++ flush_events file B ++ evs).
        assert (Hf : fetched ([Call day] ++ evs0 ++ flush_events file B ++ evs)
                     = (day, v) :: fetched evs).
        { rewrite !fetched_app, Hfetched, fetched_flush_events. reflexivity. }
        rewrite Hf. cbn [batching fst snd]. fold B. rewrite Efull. cbn [fst snd].
        repeat split.
        -- rewrite Llog, Alog, Hlog, <- !app_assoc. reflexivity.
        -- exact Lbatch.
        -- rewrite !file_events_app, Hfiles, file_events_flush_events, Lfiles.
           cbn [flat_map file_events app]. reflexivity.
        -- rewrite Lfs, Afs, Hfs, appended_app, !writes_app, Hwrites, writes_flush_events.
           reflexivity.
      * destruct (IH B w1) as (evs & Llog & Lbatch & Lfiles & Lfs).
        exists ([Call day] ++ evs0 ++ evs).
        assert (Hf : fetched ([Call day] ++ evs0 ++ evs) = (day, v) :: fetched evs).
        { rewrite !fetched_app, Hfetched. reflexivity. }
        rewrite Hf. cbn [batching fst snd]. fold B. rewrite Efull.
        repeat split.
        -- rewrite Llog, Hlog, <- !app_assoc. reflexivity.
        -- exact Lbatch.
        -- rewrite !file_events_app, Hfiles, Lfiles. reflexivity.
        -- rewrite Lfs, Hfs, !writes_app, Hwrites. reflexivity.
    + destruct (IH batch w1) as (evs & Llog & Lbatch & Lfiles & Lfs).
      exists ([Call day] ++ evs0 ++ evs).
      assert (Hf : fetched ([Call day] ++ evs0 ++ evs) = fetched evs).
      { rewrite !fetched_app, Hfetched. reflexivity. }
      rewrite Hf.
      repeat split.
      -- rewrite Llog, Hlog, <- !app_assoc. reflexivity.
      -- exact Lbatch.
      -- rewrite !file_events_app, Hfiles, Lfiles. reflexivity.
      -- rewrite Lfs, Hfs, !writes_app, Hwrites. reflexivity.
Qed.

(** *** The batches [batching] makes *)

Lemma len_dict_set (batch : dict JSON) (k : date) (v : JSON) :
  len batch <= len (dict_set batch k v) <= len batch + 1 /\ 1 <= len (dict_set batch k v).
Proof. pose proof (length_dict_set batch k v). unfold len. lia. Qed.

(** Every batch flushed in the loop holds the threshold (one entry when
    the threshold is lower), and fewer are left. *)
Lemma batching_sizes (items : list (date * JSON)) :
  forall batch,
    len batch < Z.max 1 BATCH_APPEND ->
    Forall (fun b => len b = Z.max 1 BATCH_APPEND) (fst (batching batch items))
    /\ len (snd (batching batch items)) < Z.max 1 BATCH_APPEND.
Proof.
  induction items as [|[k v] items IH]; intros batch Hlt; cbn [batching fst snd].
  - split; [constructor|exact Hlt].
  - pose proof (len_dict_set batch k v) as Hlen.
    destruct (Z.geb_spec (len (dict_set batch k v)) BATCH_APPEND) as [Hge|Hless]; cbn [fst snd].
    + destruct (IH []) as [Hfull Hrest]; [unfold len; cbn [length]; lia|].
      split; [constructor; [lia|exact Hfull]|exact Hrest].
    + apply IH. lia.
Qed.

(** Over distinct days nothing is lost and nothing comes twice. *)
Lemma batching_concat (items : list (date * JSON)) :
  forall batch,
    NoDup (keys batch ++ map fst items) ->
    concat (fst (batching batch items)) ++ snd (batching batch items) = batch ++ items.
Proof.
  induction items as [|[k v] items IH]; intros batch Hnd; cbn [batching fst snd].
  - cbn [concat app]. rewrite app_nil_r. reflexivity.
  - cbn [map fst] in Hnd.
    assert (Hfresh : ~ In k (keys batch)).
    { intros Hin. apply NoDup_app in Hnd. destruct Hnd as (_ & Hdis & _).
      apply (Hdis k); [apply list_elem_of_In; exact Hin|left]. }
    rewrite (dict_set_fresh batch k v Hfresh).
    destruct (len (batch ++ [(k, v)]) >=? BATCH_APPEND); cbn [fst snd concat].
    + rewrite <- !app_assoc. rewrite (IH []).
      * reflexivity.
      * cbn [keys map app]. apply NoDup_app in Hnd. destruct Hnd as (_ & _ & Hnd).
        apply NoDup_cons in Hnd. apply Hnd.
    + rewrite IH.
      * rewrite <- app_assoc. reflexivity.
      * unfold keys. rewrite map_app, <- app_assoc. exact Hnd.
Qed.

Lemma len_dict_update (items : list (date * JSON)) :
  forall batch, len batch <= len (dict_update batch items).
Proof.
  induction items as [|[k v] items IH]; intros batch; cbn [dict_update fold_left fst snd].
  - lia.
  - fold (dict_update (dict_set batch k v) items).
    pose proof (IH (dict_set batch k v)). pose proof (len_dict_set batch k v). lia.
Qed.

(** As long as the threshold is not reached the loop flushes nothing. *)
Lemma batching_below (items : list (date * JSON)) :
  forall batch,
    len (dict_update batch items) < BATCH_APPEND ->
    batching batch items = ([], dict_update batch items).
Proof.
  induction items as [|[k v] items IH]; intros batch Hlt; cbn [batching fst snd].
  - reflexivity.
  - cbn [dict_update fold_left fst snd] in Hlt |- *.
    fold (dict_update (dict_set batch k v) items) in Hlt |- *.
    pose proof (len_dict_update items (dict_set batch k v)).
    destruct (Z.geb_spec (len (dict_set batch k v)) BATCH_APPEND) as [Hge|Hless]; [lia|].
    apply IH. exact Hlt.
Qed.

(** With a threshold of one or less every item is a batch of its own. *)
Lemma batching_one (items : list (date * JSON)) :
  BATCH_APPEND <= 1 ->
  batching [] items = (map (fun item => [item]) items, []).
Proof.
  intros Hle. induction items as [|[k v] items IH]; [reflexivity|].
  cbn [batching dict_set fst snd].
  destruct (Z.geb_spec (len [(k, v)]) BATCH_APPEND) as [_|Hless].
  - rewrite IH. reflexivity.
  - unfold len in Hless. cbn [length] in Hless. lia.
Qed.

Lemma writes_file_events (file : Path) (evs : list (event JSON)) :
  writes file (file_events evs) = writes file evs.
Proof.
  induction evs as [|e evs IH]; [reflexivity|].
  change (e :: evs) with ([e] ++ evs).
  rewrite file_events_app, !writes_app, IH. f_equal.
  destruct e; cbn [file_events flat_map app writes]; rewrite ?app_nil_r; reflexivity.
Qed.

Lemma writes_flushes (file : Path) (batches : list (dict JSON)) :
  writes file (flat_map (flush_events file) batches) = map record_line (concat batches).
Proof.
  induction batches as [|b batches IH]; [reflexivity|].
  cbn [flat_map concat]. rewrite writes_app, writes_flush_events, IH, map_app. reflexivity.
Qed.

Lemma writes_final_flush (file : Path) (batch : dict JSON) :
  writes file (final_flush file batch) = map record_line batch.
Proof. destruct batch; [reflexivity|]. apply writes_flush_events. Qed.

(** *** A whole run and its batches *)

Lemma backup_batching (date_range : list date) (file : Path) (w : world) :
  exists evs,
    log (backup date_range file w) = log w ++ evs
    /\ file_events evs
       = flat_map (flush_events file) (fst (batching [] (fetched evs)))
         ++ final_flush file (snd (batching [] (fetched evs)))
    /\ fs (backup date_range file w) = appended (fs w) file (writes file evs)
    /\ map fst (fetched evs) `sublist_of` date_range.
Proof.
  rewrite backup_eq. cbv zeta.
  destruct (backup_loop_batching file date_range [] w) as (evs & Llog & Lbatch & Lfiles & Lfs).
  destruct (backup_loop_run file date_range ([], w)) as [evs' [Llog' _ Lsub _ _ _ _]].
  cbn [fst snd] in Llog', Lsub.
  assert (evs' = evs) as -> by (rewrite Llog in Llog'; apply app_inv_head in Llog'; congruence).
  destruct (backup_loop file date_range ([], w)) as [batch w1]. cbn [fst snd] in *.
  rewrite len_gtb_0. destruct batch as [|item batch].
  - exists evs. rewrite <- Lbatch. cbn [final_flush]. rewrite app_nil_r. auto.
  - destruct (append_to_json_file_run (item :: batch) file w1) as (Alog & _).
    exists (evs ++ flush_events file (item :: batch)).
    rewrite fetched_app, fetched_flush_events, app_nil_r, <- Lbatch.
    repeat split.
    + rewrite Alog, Llog, <- app_assoc. reflexivity.
    + rewrite file_events_app, file_events_flush_events, Lfiles. reflexivity.
    + rewrite append_to_json_file_fs by discriminate.
      rewrite Lfs, appended_app, writes_app, writes_flush_events. reflexivity.
    + exact Lsub.
Qed.

Lemma batching_keeps (items : list (date * JSON)) :
  forall batch,
    batch <> [] \/ items <> [] ->
    concat (fst (batching batch items)) ++ snd (batching batch items) <> [].
Proof.
  induction items as [|[k v] items IH]; intros batch H; cbn [batching fst snd].
  - destruct H as [H|H]; [|congruence]. cbn [concat app]. exact H.
  - pose proof (dict_set_not_nil batch k v) as Hne.
    destruct (len (dict_set batch k v) >=? BATCH_APPEND); cbn [fst snd concat].
    + destruct (dict_set batch k v); [congruence|discriminate].
    + apply IH. left. exact Hne.
Qed.

Lemma length_concat_full (n : Z) (batches : list (dict JSON)) :
  Forall (fun b => len b = n) batches ->
  Z.of_nat (length (concat batches)) = Z.of_nat (length batches) * n.
Proof.
  induction 1 as [|b batches Hb _ IH]; [reflexivity|].
  cbn [concat length]. rewrite length_app. unfold len in Hb. lia.
Qed.

(** The texts written, read off the batches. *)
Lemma writes_batching (file : Path) (evs : list (event JSON)) (full : list (dict JSON))
    (rest : dict JSON) :
  file_events evs = flat_map (flush_events file) full ++ final_flush file rest ->
  writes file evs = map record_line (concat full ++ rest).
Proof.
  intros H. rewrite <- writes_file_events, H, writes_app, writes_flushes, writes_final_flush.
  rewrite map_app. reflexivity.
Qed.

(** ** What a run does to the files *)

(** X2: a run of [backup] changes the files in one way only: the lines
    it writes go to the end of the file, which is created when there is
    a line to write and it does not exist.  When no day is fetched with
    a payload the run performs no file operation and leaves the files
    exactly as they were, so that no empty file is left behind; when a
    day is, a line is written and the file exists afterwards.  A file
    that exists before the run exists after it, and every other file
    holds what it held. *)
Theorem backup_appends_or_leaves_files (date_range : list date) (file : Path) (w : world) :
  let w' := backup date_range file w in
  let evs := new_events w w' in
  fs w' = appended (fs w) file (writes file evs)
  /\ (fetched evs = [] -> file_events evs = [] /\ fs w' = fs w)
  /\ (fetched evs <> [] -> writes file evs <> [] /\ is_Some (fs w' !! file))
  /\ (forall f, is_Some (fs w !! f) -> is_Some (fs w' !! f))
  /\ (forall other, other <> file -> fs w' !! other = fs w !! other).
Proof.
  cbv zeta.
  destruct (backup_batching date_range file w) as (evs & Hlog & Hfiles & Hfs & _).
  rewrite (new_events_app _ _ _ Hlog), Hfs.
  pose proof (writes_batching file evs _ _ Hfiles) as Hw.
  split; [reflexivity|]. split; [|split; [|split]].
  - intros Hnone. rewrite Hnone in Hfiles, Hw. cbn in Hfiles, Hw.
    rewrite Hw. split; [exact Hfiles|reflexivity].
  - intros Hsome.
    assert (Hne : writes file evs <> []).
    { rewrite Hw. intros Hnil. apply map_eq_nil in Hnil.
      apply (batching_keeps (fetched evs) []); [right; exact Hsome|exact Hnil]. }
    split; [exact Hne|].
    destruct (writes file evs) as [|x l]; [congruence|].
    unfold appended. rewrite lookup_insert_eq. eauto.
  - intros f Hf. destruct (writes file evs) as [|x l]; [exact Hf|].
    unfold appended. destruct (String.eqb_spec file f) as [->|Hne].
    + rewrite lookup_insert_eq. eauto.
    + rewrite lookup_insert_ne by exact Hne. exact Hf.
  - intros other Hne. destruct (writes file evs) as [|x l]; [reflexivity|].
    unfold appended. apply lookup_insert_ne. congruence.
Qed.

(** ** The flushes of a run *)

(** X3: the file operations of a run of [backup] are flushes, one after
    the other, each of them the opening of the file, one write for each
    entry of a batch and the closing of the file.  All flushes but the
    last hold exactly the threshold (one entry, when the threshold is
    lower than one); the last flush, if there is one besides, holds
    what is left, at least one entry and fewer than the threshold.  No
    flush is empty.  Over distinct days the batches, one after the
    other, are the records fetched, so that the number of records is
    the number of full flushes times the threshold plus what the last
    flush holds. *)
Theorem backup_flushes_full_batches (date_range : list date) (file : Path) (w : world) :
  let evs := new_events w (backup date_range file w) in
  exists (full : list (dict JSON)) (rest : dict JSON),
    file_events evs = flat_map (flush_events file) full ++ final_flush file rest
    /\ Forall (fun b => len b = Z.max 1 BATCH_APPEND) full
    /\ len rest < Z.max 1 BATCH_APPEND
    /\ writes file evs = map record_line (concat full ++ rest)
    /\ (NoDup date_range ->
        concat full ++ rest = fetched evs
        /\ Z.of_nat (length (fetched evs))
           = Z.of_nat (length full) * Z.max 1 BATCH_APPEND + len rest).
Proof.
  cbv zeta.
  destruct (backup_batching date_range file w) as (evs & Hlog & Hfiles & _ & Hsub).
  rewrite (new_events_app _ _ _ Hlog).
  destruct (batching_sizes (fetched evs) []) as [Hfull Hrest]; [unfold len; cbn [length]; lia|].
  exists (fst (batching [] (fetched evs))), (snd (batching [] (fetched evs))).
  split; [exact Hfiles|]. split; [exact Hfull|]. split; [exact Hrest|].
  split; [apply writes_batching; exact Hfiles|].
  intros Hnd.
  assert (Hc : concat (fst (batching [] (fetched evs))) ++ snd (batching [] (fetched evs))
               = fetched evs).
  { rewrite batching_concat; [reflexivity|]. cbn [keys map app].
    eapply sublist_NoDup; eassumption. }
  split; [exact Hc|].
  rewrite <- Hc at 1. rewrite length_app, Nat2Z.inj_add.
  rewrite (length_concat_full _ _ Hfull). reflexivity.
Qed.

Lemma flat_map_singletons (file : Path) (items : list (date * JSON)) :
  flat_map (flush_events file) (map (fun item => [item]) items)
  = flat_map (fun item => [Open file; Write file (record_line item); Close file]) items.
Proof.
  induction items as [|item items IH]; [reflexivity|].
  cbn [map flat_map]. rewrite IH. reflexivity.
Qed.

(** X4: with a threshold of one or less nothing is batched: every
    record fetched is flushed at once, in a flush of its own, so that
    the file is opened, written to once and closed for each record.
    Every fetch that is answered with a payload then has its line, in
    the order of the fetches, also when a day is in the range more than
    once. *)
Theorem backup_threshold_one (date_range : list date) (file : Path) (w : world) :
  BATCH_APPEND <= 1 ->
  let evs := new_events w (backup date_range file w) in
  file_events evs
  = flat_map (fun item => [Open file; Write file (record_line item); Close file]) (fetched evs)
  /\ writes file evs = map record_line (fetched evs).
Proof.
  intros Hle. cbv zeta.
  destruct (backup_batching date_range file w) as (evs & Hlog & Hfiles & _ & _).
  rewrite (new_events_app _ _ _ Hlog).
  pose proof (writes_batching file evs _ _ Hfiles) as Hw.
  rewrite (batching_one (fetched evs) Hle) in Hfiles, Hw. cbn [fst snd final_flush] in Hfiles, Hw.
  rewrite app_nil_r in Hfiles, Hw. split.
  - rewrite Hfiles. apply flat_map_singletons.
  - rewrite Hw. f_equal. clear. induction (fetched evs) as [|item items IH]; [reflexivity|].
    cbn [map concat app]. rewrite IH. reflexivity.
Qed.

(** ** A day fetched twice for the same batch *)

Lemma in_keys_dict_set (batch : dict JSON) (k : date) (v : JSON) (x : date) :
  In x (keys (dict_set batch k v)) <-> x = k \/ In x (keys batch).
Proof.
  split; [apply keys_dict_set|].
  induction batch as [|[k' v'] batch IH]; cbn [dict_set keys map fst In].
  - intros [->|[]]. left. reflexivity.
  - destruct (Z.eqb_spec k' k) as [->|Hne]; cbn [keys map fst In].
    + intros [->|[->|Hin]]; auto.
    + intros [->|[->|Hin]]; auto.
Qed.

Lemma NoDup_keys_dict_set (batch : dict JSON) (k : date) (v : JSON) :
  NoDup (keys batch) -> NoDup (keys (dict_set batch k v)).
Proof.
  induction batch as [|[k' v'] batch IH]; cbn [dict_set keys map fst]; intros Hnd.
  - apply NoDup_singleton.
  - apply NoDup_cons in Hnd. destruct Hnd as [Hk' Hnd].
    destruct (Z.eqb_spec k' k) as [->|Hne]; cbn [keys map fst].
    + apply NoDup_cons. split; assumption.
    + apply NoDup_cons. split; [|apply IH; exact Hnd].
      intros Hin. apply list_elem_of_In, keys_dict_set in Hin.
      destruct Hin as [->|Hin]; [congruence|].
      apply Hk', list_elem_of_In. exact Hin.
Qed.

(** An entry of the dictionary after [d[k] = v], when no key is there
    twice: the new entry, or an entry of another key that was there. *)
Lemma in_dict_set (batch : dict JSON) (k : date) (v : JSON) (k' : date) (v' : JSON) :
  NoDup (keys batch) ->
  In (k', v') (dict_set batch k v) <-> (k' = k /\ v' = v) \/ (k' <> k /\ In (k', v') batch).
Proof.
  induction batch as [|[k0 v0] batch IH]; cbn [dict_set keys map fst]; intros Hnd.
  - cbn [In]. split.
    + intros [H|[]]. inversion H. left. split; reflexivity.
    + intros [[-> ->]|[_ []]]. left. reflexivity.
  - apply NoDup_cons in Hnd. destruct Hnd as [Hk0 Hnd].
    destruct (Z.eqb_spec k0 k) as [->|Hne]; cbn [In].
    + split.
      * intros [H|Hin]; [inversion H; left; split; reflexivity|].
        right. split; [|right; exact Hin].
        intros ->. apply Hk0, list_elem_of_In. apply (in_map fst) in Hin. exact Hin.
      * intros [[-> ->]|[Hk [H|Hin]]]; [left; reflexivity| |right; exact Hin].
        inversion H. congruence.
    + rewrite (IH Hnd). split.
      * intros [H|[[-> ->]|[Hk Hin]]].
        -- inversion H; subst. right. split; [exact Hne|left; reflexivity].
        -- left. split; reflexivity.
        -- right. split; [exact Hk|right; exact Hin].
      * intros [[-> ->]|[Hk [H|Hin]]].
        -- right. left. split; reflexivity.
        -- left. exact H.
        -- right. right. split; assumption.
Qed.

Lemma dict_update_snoc (batch : dict JSON) (items : list (date * JSON)) (item : date * JSON) :
  dict_update batch (items ++ [item]) = dict_set (dict_update batch items) (fst item) (snd item).
Proof. unfold dict_update. rewrite fold_left_app. reflexivity. Qed.

Lemma len_dict_update_le (items : list (date * JSON)) :
  forall batch, len (dict_update batch items) <= len batch + Z.of_nat (length items).
Proof.
  induction items as [|[k v] items IH]; intros batch; cbn [dict_update fold_left fst snd length].
  - lia.
  - fold (dict_update (dict_set batch k v) items).
    pose proof (IH (dict_set batch k v)). pose proof (len_dict_set batch k v). lia.
Qed.

(** The dictionary made of items put in one after the other holds every
    key once, with the value that was put in last. *)
Lemma dict_update_last (items : list (date * JSON)) :
  NoDup (keys (dict_update [] items))
  /\ (forall k, In k (keys (dict_update [] items)) <-> In k (map fst items))
  /\ (forall k v,
        In (k, v) (dict_update [] items)
        <-> exists l1 l2, items = l1 ++ (k, v) :: l2 /\ ~ In k (map fst l2)).
Proof.
  induction items as [|[k0 v0] items (IHnd & IHkeys & IHlast)] using rev_ind.
  - split; [apply NoDup_nil_2|]. split.
    + intros k. reflexivity.
    + intros k v. cbn [dict_update fold_left In]. split; [intros []|].
      intros (l1 & l2 & H & _). destruct l1; discriminate.
  - rewrite dict_update_snoc. cbn [fst snd]. split; [|split].
    + apply NoDup_keys_dict_set. exact IHnd.
    + intros k. rewrite in_keys_dict_set, IHkeys, map_app, in_app_iff. cbn [map fst In].
      intuition.
    + intros k v. rewrite (in_dict_set _ _ _ _ _ IHnd). split.
      * intros [[-> ->]|[Hk Hin]].
        -- exists items, []. split; [reflexivity|intros []].
        -- apply IHlast in Hin. destruct Hin as (l1 & l2 & -> & Hl2).
           exists l1, (l2 ++ [(k0, v0)]). split; [rewrite <- app_assoc; reflexivity|].
           rewrite map_app, in_app_iff. cbn [map fst In]. intuition.
      * intros (l1 & l2 & Heq & Hl2).
        destruct l2 as [|x l2 _] using rev_ind.
        -- apply app_inj_tail in Heq. destruct Heq as [_ Heq]. inversion Heq.
           left. split; reflexivity.
        -- change (l1 ++ (k, v) :: l2 ++ [x]) with (l1 ++ ((k, v) :: l2) ++ [x]) in Heq.
           rewrite app_assoc in Heq. apply app_inj_tail in Heq. destruct Heq as [-> <-].
           rewrite map_app, in_app_iff in Hl2. cbn [map fst In] in Hl2.
           right. split; [intros ->; apply Hl2; right; left; reflexivity|].
           apply IHlast. exists l1, l2. split; [reflexivity|]. intuition.
Qed.

Lemma keys_dict_set_cases (batch : dict JSON) (k : date) (v : JSON) :
  keys (dict_set batch k v) = keys batch \/ keys (dict_set batch k v) = keys batch ++ [k].
Proof.
  induction batch as [|[k' v'] batch IH]; cbn [dict_set keys map fst]; [right; reflexivity|].
  destruct (Z.eqb_spec k' k) as [->|Hne]; cbn [keys map fst]; [left; reflexivity|].
  destruct IH as [IH|IH]; unfold keys in IH; rewrite IH; [left|right]; reflexivity.
Qed.

Lemma keys_dict_update_sublist (items : list (date * JSON)) :
  keys (dict_update [] items) `sublist_of` map fst items.
Proof.
  induction items as [|[k v] items IH] using rev_ind; [reflexivity|].
  rewrite dict_update_snoc, map_app. cbn [fst snd map].
  destruct (keys_dict_set_cases (dict_update [] items) k v) as [-> | ->].
  - apply sublist_inserts_r. exact IH.
  - apply sublist_app; [exact IH|reflexivity].
Qed.

(** X5: in a run of [backup] over fewer days than the threshold nothing
    is flushed before the end, and the one flush at the end writes the
    batch as the dictionary holds it: one record for each day fetched
    with a payload, the days in the order of the range.  A day that is
    in the range more than once is fetched each time but has one record
    only, and its record holds the payload that was fetched last. *)
Theorem backup_short_range_last_payload (date_range : list date) (file : Path) (w : world) :
  Z.of_nat (length date_range) < BATCH_APPEND ->
  let evs := new_events w (backup date_range file w) in
  let batch := dict_update [] (fetched evs) in
  calls evs = date_range
  /\ file_events evs = final_flush file batch
  /\ writes file evs = map record_line batch
  /\ NoDup (keys batch)
  /\ keys batch `sublist_of` date_range
  /\ (forall day, In day (keys batch) <-> In day (map fst (fetched evs)))
  /\ (forall day v,
        In (day, v) batch
        <-> exists l1 l2, fetched evs = l1 ++ (day, v) :: l2 /\ ~ In day (map fst l2)).
Proof.
  intros Hshort. cbv zeta.
  destruct (backup_batching date_range file w) as (evs & Hlog & Hfiles & _ & Hsub).
  destruct (backup_run date_range file w) as (evs' & Hlog' & Hcalls & _).
  assert (evs' = evs) as -> by (rewrite Hlog in Hlog'; apply app_inv_head in Hlog'; congruence).
  rewrite (new_events_app _ _ _ Hlog).
  pose proof (writes_batching file evs _ _ Hfiles) as Hw.
  assert (Hb : batching [] (fetched evs) = ([], dict_update [] (fetched evs))).
  { apply batching_below.
    pose proof (len_dict_update_le (fetched evs) []) as Hle.
    apply sublist_length in Hsub. rewrite length_map in Hsub.
    unfold len in Hle at 2. cbn [length] in Hle. lia. }
  rewrite Hb in Hfiles, Hw. cbn [fst snd flat_map concat app] in Hfiles, Hw.
  destruct (dict_update_last (fetched evs)) as (Hnd & Hkeys & Hlast).
  pose proof (keys_dict_update_sublist (fetched evs)) as Hord.
  repeat split; try assumption; try apply Hkeys; try apply Hlast.
  etransitivity; eassumption.
Qed.

(** ** The traffic with the service *)

(** The day fetcher reads nothing of the world but the state of the
    service: it does in any world what it does in a blank one. *)
Lemma backup_date_frame (day : date) (w : world) :
  backup_date day w
  = (fst (backup_date day (blank (api w))),
     {| api := api (snd (backup_date day (blank (api w))));
        fs := fs w;
        log := log w ++ log (snd (backup_date day (blank (api w)))) |}).
Proof.
  destruct (failures_cases day (Z.to_nat RETRIES) (api w))
    as [(es & a' & Hf)|(k & es & a1 & payload & a2 & Hk & Hf & Hok)].
  - rewrite (backup_date_exhausted day w es a' Hf).
    rewrite (backup_date_exhausted day (blank (api w)) es a' Hf).
    reflexivity.
  - assert (Hlt : Z.of_nat k < RETRIES) by lia.
    rewrite (backup_date_retries day w k es a1 a2 payload Hlt Hf Hok).
    rewrite (backup_date_retries day (blank (api w)) k es a1 a2 payload Hlt Hf Hok).
    reflexivity.
Qed.

Lemma other_events_app (a b : list (event JSON)) :
  other_events (a ++ b) = other_events a ++ other_events b.
Proof. apply flat_map_app. Qed.

Lemma other_events_flush_events (file : Path) (batch : dict JSON) :
  other_events (flush_events file batch) = [].
Proof.
  unfold flush_events. rewrite !other_events_app.
  assert (H : other_events (map (fun item => @Write JSON file (record_line item)) batch) = []).
  { induction batch as [|item batch IH]; [reflexivity|]. exact IH. }
  rewrite H. reflexivity.
Qed.

Lemma other_events_failed_attempts (day : date) (es : list string) :
  forall retries,
    other_events (failed_attempts day retries es) = failed_attempts day retries es.
Proof.
  induction es as [|e es IH]; intros retries; [reflexivity|].
  cbn [failed_attempts]. rewrite other_events_app, IH. reflexivity.
Qed.

(** The log of a run of the day fetcher holds no file operation. *)
Lemma other_events_backup_date (day : date) (a : ApiState) :
  other_events (log (snd (backup_date day (blank a)))) = log (snd (backup_date day (blank a))).
Proof.
  destruct (backup_date_cases day (blank a)) as (es & a' & [(payload & _ & ->)|(_ & ->)]);
    cbn [snd log blank app];
    change (Call day :: ?l) with ([@Call JSON day] ++ l);
    rewrite !other_events_app, other_events_failed_attempts; reflexivity.
Qed.

Ltac by_event evs :=
  induction evs as [|[] ? ?]; cbn [other_events flat_map app] in *;
  try reflexivity; try assumption; try (f_equal; assumption).

Lemma requests_other_events (evs : list (event JSON)) :
  requests (other_events evs) = requests evs.
Proof. unfold requests. by_event evs. Qed.

Lemma fetched_other_events (evs : list (event JSON)) :
  fetched (other_events evs) = fetched evs.
Proof.
  induction evs as [|e evs IH]; [reflexivity|].
  change (e :: evs) with ([e] ++ evs).
  rewrite other_events_app, !fetched_app, IH. f_equal.
  destruct e; reflexivity.
Qed.

Lemma sleeps_other_events (evs : list (event JSON)) :
  sleeps (other_events evs) = sleeps evs.
Proof. unfold sleeps. by_event evs. Qed.

Lemma prints_other_events (evs : list (event JSON)) :
  prints (other_events evs) = prints evs.
Proof. unfold prints. by_event evs. Qed.

(** The loop makes the day fetcher run for each day in turn; between
    two runs there are file operations at most. *)
Lemma backup_loop_traffic (file : Path) (days : list date) :
  forall (batch : dict JSON) (w : world),
    exists evs,
      log (snd (backup_loop file days (batch, w))) = log w ++ evs
      /\ other_events evs = concat (fst (day_logs days (api w)))
      /\ api (snd (backup_loop file days (batch, w))) = snd (day_logs days (api w)).
Proof.
  induction days as [|day days IH]; intros batch w.
  - exists []. cbn [backup_loop fold_left fst snd day_logs]. rewrite app_nil_r. repeat split.
  - rewrite backup_loop_cons. unfold backup_step. rewrite backup_date_frame.
    cbn [day_logs fst snd concat].
    set (r := backup_date day (blank (api w))).
    set (w1 := {| api := api (snd r); fs := fs w; log := log w ++ log (snd r) |}).
    assert (Hstep : forall batch' w',
               log w' = log w1 \/ (exists b, log w' = log w1 ++ flush_events file b) ->
               api w' = api w1 ->
               exists evs,
                 log (snd (backup_loop file days (batch', w'))) = log w ++ evs
                 /\ other_events evs = log (snd r) ++ concat (fst (day_logs days (api (snd r))))
                 /\ api (snd (backup_loop file days (batch', w')))
                    = snd (day_logs days (api (snd r)))).
    { intros batch' w' Hlog Hapi.
      destruct (IH batch' w') as (evs & Llog & Lother & Lapi).
      rewrite Hapi in Lother, Lapi. cbn [w1 api] in Lother, Lapi.
      destruct Hlog as [Hlog|(b & Hlog)].
      - exists (log (snd r) ++ evs). repeat split.
        + rewrite Llog, Hlog. cbn [w1 log]. rewrite <- app_assoc. reflexivity.
        + rewrite other_events_app, Lother. unfold r. rewrite other_events_backup_date.
          reflexivity.
        + exact Lapi.
      - exists (log (snd r) ++ flush_events file b ++ evs). repeat split.
        + rewrite Llog, Hlog. cbn [w1 log]. rewrite <- !app_assoc. reflexivity.
        + rewrite !other_events_app, other_events_flush_events, Lother. unfold r.
          rewrite other_events_backup_date. reflexivity.
        + exact Lapi. }
    destruct (fst r) as [v|].
    + destruct (len (dict_set batch day v) >=? BATCH_APPEND).
      * destruct (append_to_json_file_run (dict_set batch day v) file w1) as (Alog & Aapi & _).
        apply Hstep; [right; eexists; exact Alog|exact Aapi].
      * apply Hstep; [left; reflexivity|reflexivity].
    + apply Hstep; [left; reflexivity|reflexivity].
Qed.

Lemma backup_traffic (date_range : list date) (file : Path) (w : world) :
  exists evs,
    log (backup date_range file w) = log w ++ evs
    /\ other_events evs = concat (fst (day_logs date_range (api w)))
    /\ api (backup date_range file w) = snd (day_logs date_range (api w)).
Proof.
  rewrite backup_eq. cbv zeta.
  destruct (backup_loop_traffic file date_range [] w) as (evs & Llog & Lother & Lapi).
  destruct (backup_loop file date_range ([], w)) as [batch w1]. cbn [fst snd] in *.
  destruct (len batch >? 0).
  - destruct (append_to_json_file_run batch file w1) as (Alog & Aapi & _).
    exists (evs ++ flush_events file batch). repeat split.
    + rewrite Alog, Llog, <- app_assoc. reflexivity.
    + rewrite other_events_app, other_events_flush_events, app_nil_r. exact Lother.
    + rewrite Aapi. exact Lapi.
  - exists evs. auto.
Qed.

Lemma day_logs_app (days1 days2 : list date) :
  forall a,
    day_logs (days1 ++ days2) a
    = (fst (day_logs days1 a) ++ fst (day_logs days2 (snd (day_logs days1 a))),
       snd (day_logs days2 (snd (day_logs days1 a)))).
Proof.
  induction days1 as [|day days1 IH]; intros a; cbn [app day_logs fst snd].
  - destruct (day_logs days2 a); reflexivity.
  - rewrite IH. reflexivity.
Qed.

(** X6: a backup made in two runs, of the first days and then of the
    days that follow, on the same file, leaves what one run over all
    the days leaves, when no day is there twice: the same files, the
    same lines written in the same order, the service in the same
    state, and the same calls of the service, messages and sleeps.
    Where the batches are cut does not show in the file. *)
Theorem backup_in_two_runs (days1 days2 : list date) (file : Path) (w : world) :
  NoDup (days1 ++ days2) ->
  let w1 := backup days1 file w in
  let w2 := backup days2 file w1 in
  let w' := backup (days1 ++ days2) file w in
  fs w2 = fs w'
  /\ api w2 = api w'
  /\ writes file (new_events w w2) = writes file (new_events w w')
  /\ other_events (new_events w w2) = other_events (new_events w w').
Proof.
  intros Hnd. cbv zeta.
  pose proof Hnd as Hnd'. apply NoDup_app in Hnd'. destruct Hnd' as (Hnd1 & _ & Hnd2).
  destruct (backup_traffic days1 file w) as (evs1 & Hlog1 & Hother1 & Hapi1).
  destruct (backup_traffic days2 file (backup days1 file w)) as (evs2 & Hlog2 & Hother2 & Hapi2).
  destruct (backup_traffic (days1 ++ days2) file w) as (evs & Hlog & Hother & Hapi).
  rewrite day_logs_app in Hother, Hapi. cbn [fst snd] in Hother, Hapi.
  rewrite Hapi1 in Hother2, Hapi2.
  assert (Hlog12 : log (backup days2 file (backup days1 file w)) = log w ++ evs1 ++ evs2).
  { rewrite Hlog2, Hlog1, <- app_assoc. reflexivity. }
  rewrite (new_events_app _ _ _ Hlog12), (new_events_app _ _ _ Hlog).
  assert (Hsame : other_events (evs1 ++ evs2) = other_events evs).
  { rewrite other_events_app, Hother1, Hother2, Hother, concat_app. reflexivity. }
  (* the lines written are those of the records fetched *)
  assert (Hw : forall days w0 evs0,
             NoDup days -> log (backup days file w0) = log w0 ++ evs0 ->
             writes file evs0 = map record_line (fetched evs0)
             /\ fs (backup days file w0) = appended (fs w0) file (writes file evs0)).
  { intros days w0 evs0 Hnd0 Hlog0.
    destruct (backup_run days file w0) as (evs' & Hlog' & _ & _ & _ & _ & Hrec).
    destruct (backup_batching days file w0) as (evs'' & Hlog'' & _ & Hfs & _).
    assert (evs' = evs0) as ->
        by (rewrite Hlog0 in Hlog'; apply app_inv_head in Hlog'; congruence).
    assert (evs'' = evs0) as ->
        by (rewrite Hlog0 in Hlog''; apply app_inv_head in Hlog''; congruence).
    split; [apply Hrec; exact Hnd0|exact Hfs]. }
  destruct (Hw days1 w evs1 Hnd1 Hlog1) as (Hw1 & Hfs1).
  destruct (Hw days2 _ evs2 Hnd2 Hlog2) as (Hw2 & Hfs2).
  destruct (Hw (days1 ++ days2) w evs Hnd Hlog) as (Hw12 & Hfs12).
  assert (Hwrites : writes file (evs1 ++ evs2) = writes file evs).
  { rewrite writes_app, Hw1, Hw2, Hw12, <- map_app, <- fetched_app.
    rewrite <- (fetched_other_events (evs1 ++ evs2)), Hsame, fetched_other_events.
    reflexivity. }
  split; [|split; [|split]].
  - rewrite Hfs2, Hfs1, appended_app, <- writes_app, Hwrites, Hfs12. reflexivity.
  - rewrite Hapi2, Hapi. reflexivity.
  - exact Hwrites.
  - exact Hsame.
Qed.

(** ** How long a run waits, and how often it calls the service *)

Lemma total_sleep_app (a b : list (event JSON)) :
  total_sleep (a ++ b) = total_sleep a + total_sleep b.
Proof.
  unfold total_sleep. rewrite sleeps_app.
  induction (sleeps a) as [|s l IH]; cbn [app fold_right]; lia.
Qed.

Lemma total_sleep_other_events (evs : list (event JSON)) :
  total_sleep (other_events evs) = total_sleep evs.
Proof. unfold total_sleep. rewrite sleeps_other_events. reflexivity. Qed.

(** The sleeps of [n] failed attempts add up to [BACKOFF] times
    [1 + 2 + ... + n]. *)
Lemma total_sleep_failed_attempts (day : date) (es : list string) :
  2 * total_sleep (failed_attempts day 0 es)
  = Z.of_N BACKOFF * twice_triangle (Z.of_nat (length es)).
Proof.
  induction es as [|e es IH] using rev_ind; [unfold twice_triangle; cbn; lia|].
  rewrite failed_attempts_snoc, total_sleep_app, length_app, Nat2Z.inj_add.
  cbn [length]. unfold twice_triangle in *.
  change (total_sleep [Request day (Raises e); Print (error_message day e);
                       Sleep (Z.of_N BACKOFF * (0 + Z.of_nat (length es) + 1))])
    with (Z.of_N BACKOFF * (0 + Z.of_nat (length es) + 1) + 0).
  lia.
Qed.

Lemma twice_triangle_le (n m : Z) : 0 <= n <= m -> twice_triangle n <= twice_triangle m.
Proof. unfold twice_triangle. nia. Qed.

(** What one run of the day fetcher costs. *)
Lemma backup_date_cost (day : date) (a : ApiState) :
  let evs := log (snd (backup_date day (blank a))) in
  exists n : nat,
    map fst (requests evs) = replicate n day
    /\ Z.of_nat n <= Z.max 0 RETRIES
    /\ (0 < RETRIES -> (1 <= n)%nat)
    /\ Z.of_nat (length (sleeps evs)) <= Z.max 0 RETRIES
    /\ 2 * total_sleep evs = Z.of_N BACKOFF * twice_triangle (Z.of_nat (length (sleeps evs))).
Proof.
  cbv zeta.
  assert (Hreq : forall es : list string,
             map fst (requests (failed_attempts day 0 es)) = replicate (length es) day).
  { intros es. rewrite requests_failed_attempts, map_map. cbn [fst].
    induction es as [|e es IH]; [reflexivity|]. cbn [map length replicate]. rewrite IH.
    reflexivity. }
  assert (Hlen : forall es : list string,
             length (sleeps (failed_attempts day 0 es)) = length es).
  { intros es. rewrite sleeps_failed_attempts, length_map, length_seqZ. lia. }
  destruct (backup_date_cases day (blank a)) as (es & a' & [(payload & Hlt & ->)|(Hmax & ->)]);
    cbn [snd log blank app];
    change (Call day :: ?l) with ([@Call JSON day] ++ l).
  - exists (length es + 1)%nat.
    pose proof (total_sleep_failed_attempts day es) as Htot.
    rewrite !requests_app, !sleeps_app, !total_sleep_app, !map_app, !length_app, Hreq, Hlen.
    change (total_sleep [Call day]) with 0.
    change (total_sleep [Request day (Returns payload)]) with 0.
    cbn [requests sleeps flat_map app map fst length]. rewrite replicate_add.
    rewrite Nat.add_0_r, Z.add_0_l, Z.add_0_r.
    repeat split; try lia. exact Htot.
  - exists (length es).
    pose proof (total_sleep_failed_attempts day es) as Htot.
    rewrite !requests_app, !sleeps_app, !total_sleep_app, !map_app, !length_app, Hreq, Hlen.
    change (total_sleep [Call day]) with 0.
    change (total_sleep [Print (failure_message day)]) with 0.
    cbn [requests sleeps flat_map app map fst length]. rewrite app_nil_r.
    rewrite Nat.add_0_r, Z.add_0_l, Z.add_0_r.
    repeat split; try lia. exact Htot.
Qed.

(** What the runs of the day fetcher for the days of a range cost. *)
Lemma day_logs_cost (days : list date) :
  forall a,
    let evs := concat (fst (day_logs days a)) in
    (exists counts : list nat,
        length counts = length days
        /\ Forall (fun n => Z.of_nat n <= Z.max 0 RETRIES /\ (0 < RETRIES -> (1 <= n)%nat)) counts
        /\ map fst (requests evs) = concat (zip_with replicate counts days))
    /\ Z.of_nat (length (requests evs)) <= Z.of_nat (length days) * Z.max 0 RETRIES
    /\ 2 * total_sleep evs
       <= Z.of_nat (length days) * (Z.of_N BACKOFF * twice_triangle (Z.max 0 RETRIES)).
Proof.
  induction days as [|day days IH]; intros a; cbv zeta.
  - cbn [day_logs fst concat requests flat_map map length]. split; [|split].
    + exists []. repeat split. constructor.
    + lia.
    + unfold total_sleep. cbn. lia.
  - cbn [day_logs fst concat].
    destruct (backup_date_cost day a) as (n & Hreq & Hmax & Hmin & Hsl & Hsum).
    destruct (IH (api (snd (backup_date day (blank a))))) as ((counts & Hlen & Hall & Hrest) & Hnum & Htot).
    rewrite requests_app, total_sleep_app, map_app, length_app.
    assert (Hn : length (requests (log (snd (backup_date day (blank a))))) = n).
    { rewrite <- (length_map fst), Hreq. apply length_replicate. }
    split; [|split].
    + exists (n :: counts). split; [cbn [length]; lia|]. split.
      * constructor; [split; assumption|exact Hall].
      * cbn [zip_with concat]. rewrite Hreq, Hrest. reflexivity.
    + rewrite Hn. cbn [length]. lia.
    + pose proof (twice_triangle_le (Z.of_nat (length (sleeps (log (snd (backup_date day (blank a)))))))
                    (Z.max 0 RETRIES)) as Htri.
      cbn [length].
      assert (0 <= Z.of_N BACKOFF) by lia.
      nia.
Qed.

(** X7: the day fetcher calls the service day by day, in the order of
    the range: for each day at least one call, when the budget is not
    empty, and at most as many as the budget has, all of them before
    the first call for the next day.  A run of [backup] thus makes at
    most as many calls as the range has days times the budget. *)
Theorem backup_requests_day_by_day (date_range : list date) (file : Path) (w : world) :
  let evs := new_events w (backup date_range file w) in
  (exists counts : list nat,
      length counts = length date_range
      /\ Forall (fun n => Z.of_nat n <= Z.max 0 RETRIES /\ (0 < RETRIES -> (1 <= n)%nat)) counts
      /\ map fst (requests evs) = concat (zip_with replicate counts date_range))
  /\ Z.of_nat (length (requests evs)) <= Z.of_nat (length date_range) * Z.max 0 RETRIES.
Proof.
  cbv zeta.
  destruct (backup_traffic date_range file w) as (evs & Hlog & Hother & _).
  rewrite (new_events_app _ _ _ Hlog).
  destruct (day_logs_cost date_range (api w)) as (Hcounts & Hnum & _).
  rewrite <- Hother, requests_other_events in Hcounts, Hnum.
  split; assumption.
Qed.

(** X8: a run of the day fetcher that sleeps [n] times sleeps
    [BACKOFF * (1 + 2 + ... + n)] seconds in all, and [n] is at most the
    budget of attempts, so that a day costs at most
    [BACKOFF * (1 + 2 + ... + RETRIES)] seconds of sleep and a run of
    [backup] at most as much for each day of the range: with ten
    attempts and a backoff of two seconds, 110 seconds for a day. *)
Theorem backup_total_sleep_bounded :
  (forall (day : date) (w : world),
      let evs := new_events w (snd (backup_date day w)) in
      let n := Z.of_nat (length (sleeps evs)) in
      n <= Z.max 0 RETRIES
      /\ 2 * total_sleep evs = Z.of_N BACKOFF * twice_triangle n)
  /\ (forall (date_range : list date) (file : Path) (w : world),
         2 * total_sleep (new_events w (backup date_range file w))
         <= Z.of_nat (length date_range) * (Z.of_N BACKOFF * twice_triangle (Z.max 0 RETRIES)))
  /\ (RETRIES = 10 -> BACKOFF = 2%N ->
      forall (date_range : list date) (file : Path) (w : world),
        total_sleep (new_events w (backup date_range file w))
        <= 110 * Z.of_nat (length date_range)).
Proof.
  assert (Hrun : forall (date_range : list date) (file : Path) (w : world),
             2 * total_sleep (new_events w (backup date_range file w))
             <= Z.of_nat (length date_range)
                * (Z.of_N BACKOFF * twice_triangle (Z.max 0 RETRIES))).
  { intros date_range file w.
    destruct (backup_traffic date_range file w) as (evs & Hlog & Hother & _).
    rewrite (new_events_app _ _ _ Hlog).
    destruct (day_logs_cost date_range (api w)) as (_ & _ & Htot).
    rewrite <- Hother, total_sleep_other_events in Htot. exact Htot. }
  split; [|split].
  - intros day w. cbv zeta. rewrite backup_date_frame. cbn [snd]. rewrite new_events_mk.
    destruct (backup_date_cost day (api w)) as (n & _ & _ & _ & Hsl & Hsum).
    split; assumption.
  - exact Hrun.
  - intros HR HB date_range file w. specialize (Hrun date_range file w).
    rewrite HR, HB in Hrun. unfold twice_triangle in Hrun. lia.
Qed.

(** ** A budget of no attempt *)

Lemma backup_loop_no_attempt (file : Path) (days : list date) :
  RETRIES <= 0 ->
  forall (batch : dict JSON) (w : world),
    backup_loop file days (batch, w)
    = (batch,
       {| api := api w; fs := fs w;
          log := log w ++ flat_map (fun day => [Call day; Print (failure_message day)]) days |}).
Proof.
  intros Hle. induction days as [|day days IH]; intros batch w.
  - cbn [backup_loop fold_left flat_map]. rewrite app_nil_r, world_eta. reflexivity.
  - rewrite backup_loop_cons. unfold backup_step.
    rewrite (backup_date_exhausted day w [] (api w))
      by (replace (Z.to_nat RETRIES) with 0%nat by lia; reflexivity).
    rewrite IH. cbn [api fs log failed_attempts flat_map app].
    rewrite <- !app_assoc. reflexivity.
Qed.

(** X9: with a budget of no attempt ([RETRIES] zero or less) the day
    fetcher never calls the service: for every day of the range it
    prints the failure message at once, without a sleep, and [backup]
    writes nothing and leaves the service and the files as they
    were. *)
Theorem backup_no_attempt (date_range : list date) (file : Path) (w : world) :
  RETRIES <= 0 ->
  backup date_range file w
  = {| api := api w; fs := fs w;
       log := log w
              ++ flat_map (fun day => [Call day; Print (failure_message day)]) date_range |}.
Proof.
  intros Hle. rewrite backup_eq. cbv zeta.
  rewrite (backup_loop_no_attempt file date_range Hle). reflexivity.
Qed.

(** The batches hold no more entries than were put in. *)
Lemma batching_length (items : list (date * JSON)) :
  forall batch,
    (length (concat (fst (batching batch items)) ++ snd (batching batch items))
     <= length batch + length items)%nat.
Proof.
  induction items as [|[k v] items IH]; intros batch; cbn [batching fst snd].
  - cbn [concat app length]. lia.
  - pose proof (length_dict_set batch k v) as Hlen.
    destruct (len (dict_set batch k v) >=? BATCH_APPEND); cbn [fst snd concat length].
    + specialize (IH []). rewrite <- app_assoc, length_app. cbn [length] in IH. lia.
    + specialize (IH (dict_set batch k v)). lia.
Qed.


(** ** Flushes one after the other, and the lines of the file *)

(** The files after a flush of any batch, the empty one too: the file
    holds what it held and the lines of the batch. *)
Lemma append_to_json_file_fs_any (batch : dict JSON) (file : Path) (w : world) :
  fs (append_to_json_file batch file w)
  = <[file := content (fs w) file +:+ join (map record_line batch)]> (fs w).
Proof.
  destruct batch as [|item batch].
  - unfold append_to_json_file, close, emit, open_append, content.
    cbn [fold_left fs map join fold_right].
    destruct (fs w !! file) as [text|] eqn:E.
    + rewrite append_nil_r. symmetry. apply insert_id. exact E.
    + reflexivity.
  - rewrite append_to_json_file_fs by discriminate. reflexivity.
Qed.

(** X13: two flushes one after the other leave the files as one flush
    of the two batches together leaves them: where a batch ends does
    not show in the file. *)
Theorem append_to_json_file_twice (batch1 batch2 : dict JSON) (file : Path) (w : world) :
  fs (append_to_json_file batch2 file (append_to_json_file batch1 file w))
  = fs (append_to_json_file (batch1 ++ batch2) file w)
  /\ api (append_to_json_file batch2 file (append_to_json_file batch1 file w)) = api w.
Proof.
  split.
  - rewrite !append_to_json_file_fs_any, content_insert, insert_insert_eq.
    rewrite map_app, join_app, append_assoc. reflexivity.
  - destruct (append_to_json_file_run batch2 file (append_to_json_file batch1 file w))
      as (_ & -> & _).
    destruct (append_to_json_file_run batch1 file w) as (_ & -> & _). reflexivity.
Qed.

(** X12: when the payloads are serialised without a line feed, as
    [json.dumps] does, every write of a run of [backup] adds exactly one
    line to the file: the file has as many lines more as texts were
    written, one for each entry of a batch flushed, and not more than
    the range has days. *)
Theorem backup_one_line_per_write (date_range : list date) (file : Path) (w : world) :
  (forall v, count_lines (dumps v) = 0%nat) ->
  let w' := backup date_range file w in
  let evs := new_events w w' in
  Forall (fun text => count_lines text = 1%nat) (writes file evs)
  /\ count_lines (content (fs w') file)
     = (count_lines (content (fs w) file) + length (writes file evs))%nat
  /\ (length (writes file evs) <= length date_range)%nat.
Proof.
  intros Hdumps. cbv zeta.
  destruct (backup_batching date_range file w) as (evs & Hlog & Hfiles & _ & Hsub).
  destruct (backup_run date_range file w) as (evs' & Hlog' & _ & _ & Hc & _).
  assert (evs' = evs) as -> by (rewrite Hlog in Hlog'; apply app_inv_head in Hlog'; congruence).
  rewrite (new_events_app _ _ _ Hlog), Hc.
  pose proof (writes_batching file evs _ _ Hfiles) as Hw.
  split; [|split].
  - rewrite Hw. apply Forall_forall. intros text Hin.
    apply list_elem_of_In, in_map_iff in Hin. destruct Hin as (item & <- & _).
    apply count_lines_record_line, Hdumps.
  - rewrite count_lines_append. f_equal.
    rewrite Hw, count_lines_records, length_map by exact Hdumps. reflexivity.
  - rewrite Hw, length_map.
    destruct (batching_sizes (fetched evs) []) as [_ _]; [unfold len; cbn [length]; lia|].
    pose proof (batching_length (fetched evs) []) as Hlen.
    apply sublist_length in Hsub. rewrite length_map in Hsub.
    cbn [length] in Hlen. lia.
Qed.

(** ** A run in which every call is answered *)

Lemma day_logs_answered (days : list date) :
  always_answers -> 0 < RETRIES ->
  forall a,
    let evs := concat (fst (day_logs days a)) in
    map fst (requests evs) = days
    /\ map fst (fetched evs) = days
    /\ prints evs = []
    /\ sleeps evs = [].
Proof.
  intros Hans Hpos. induction days as [|day days IH]; intros a; cbv zeta.
  - repeat split.
  - cbn [day_logs fst concat].
    destruct (backup_date_answers day (blank a) Hans Hpos) as (v & a' & ->).
    cbn [snd log api blank app].
    destruct (IH a') as (Hreq & Hfetched & Hprints & Hsleeps).
    change (Call day :: Request day (Returns (Some v)) :: ?l)
      with ([@Call JSON day; Request day (Returns (Some v))] ++ l).
    rewrite requests_app, fetched_app, prints_app, sleeps_app, !map_app.
    rewrite Hreq, Hfetched, Hprints, Hsleeps. repeat split.
Qed.

(** X15: when the service answers every call with a payload and the
    budget allows an attempt, a run of [backup] makes one call for each
    day of the range, in order, prints nothing and never sleeps; every
    day is fetched, and over distinct days the file gets one line for
    each day of the range, in the order of the range. *)
Theorem backup_all_answered (date_range : list date) (file : Path) (w : world) :
  always_answers -> 0 < RETRIES ->
  let evs := new_events w (backup date_range file w) in
  map fst (requests evs) = date_range
  /\ map fst (fetched evs) = date_range
  /\ prints evs = []
  /\ sleeps evs = []
  /\ (NoDup date_range ->
      writes file evs = map record_line (fetched evs)
      /\ length (writes file evs) = length date_range).
Proof.
  intros Hans Hpos. cbv zeta.
  destruct (backup_traffic date_range file w) as (evs & Hlog & Hother & _).
  destruct (backup_run date_range file w) as (evs' & Hlog' & _ & _ & _ & _ & Hrec).
  assert (evs' = evs) as -> by (rewrite Hlog in Hlog'; apply app_inv_head in Hlog'; congruence).
  rewrite (new_events_app _ _ _ Hlog).
  destruct (day_logs_answered date_range Hans Hpos (api w))
    as (Hreq & Hfetched & Hprints & Hsleeps).
  rewrite <- Hother in Hreq, Hfetched, Hprints, Hsleeps.
  rewrite requests_other_events in Hreq. rewrite fetched_other_events in Hfetched.
  rewrite prints_other_events in Hprints. rewrite sleeps_other_events in Hsleeps.
  repeat split; try assumption.
  - apply Hrec. assumption.
  - rewrite Hrec by assumption. rewrite length_map, <- (length_map fst), Hfetched. reflexivity.
Qed.

(** ** What a run leaves, read off the traffic with the service *)

(** Over distinct days the outcome of a run is told by what the day
    fetcher gets from the service. *)
Lemma backup_outcome (date_range : list date) (file : Path) (w : world) :
  NoDup date_range ->
  exists evs,
    log (backup date_range file w) = log w ++ evs
    /\ other_events evs = concat (fst (day_logs date_range (api w)))
    /\ api (backup date_range file w) = snd (day_logs date_range (api w))
    /\ writes file evs
       = map record_line (fetched (concat (fst (day_logs date_range (api w)))))
    /\ fs (backup date_range file w)
       = appended (fs w) file
           (map record_line (fetched (concat (fst (day_logs date_range (api w)))))).
Proof.
  intros Hnd.
  destruct (backup_traffic date_range file w) as (evs & Hlog & Hother & Hapi).
  destruct (backup_run date_range file w) as (evs' & Hlog' & _ & _ & _ & _ & Hrec).
  destruct (backup_batching date_range file w) as (evs'' & Hlog'' & _ & Hfs & _).
  assert (evs' = evs) as -> by (rewrite Hlog in Hlog'; apply app_inv_head in Hlog'; congruence).
  assert (evs'' = evs) as ->
      by (rewrite Hlog in Hlog''; apply app_inv_head in Hlog''; congruence).
  assert (Hw : writes file evs
               = map record_line (fetched (concat (fst (day_logs date_range (api w)))))).
  { rewrite (Hrec Hnd), <- Hother, fetched_other_events. reflexivity. }
  exists evs. rewrite <- Hw. auto.
Qed.

(** ** Every day is accounted for *)

Lemma day_logs_account (days : list date) (day : date) :
  In day days ->
  forall a,
    let evs := concat (fst (day_logs days a)) in
    In day (map fst (fetched evs))
    \/ In (day, Returns None) (requests evs)
    \/ In (failure_message day) (prints evs).
Proof.
  induction days as [|d days IH]; intros Hin a; [destruct Hin|]. cbv zeta.
  cbn [day_logs fst concat]. rewrite fetched_app, requests_app, prints_app, map_app.
  rewrite !in_app_iff.
  destruct Hin as [->|Hin].
  - destruct (backup_date_cases day (blank a)) as (es & a' & [(payload & _ & ->)|(_ & ->)]);
      cbn [snd log blank app];
      change (Call day :: ?l) with ([@Call JSON day] ++ l);
      rewrite ?fetched_app, ?requests_app, ?prints_app, ?map_app, ?in_app_iff.
    + destruct payload as [v|].
      * left. left. right. right. left. reflexivity.
      * right. left. left. right. right. left. reflexivity.
    + right. right. left. right. right. left. reflexivity.
  - destruct (IH Hin (api (snd (backup_date d (blank a))))) as [H|[H|H]]; tauto.
Qed.

(** X17: a run of [backup] accounts for every day of its range: the
    day is fetched with a payload, or the service answered a call for
    it with [None], or the failure message of the day is printed.  A
    day that is missing from the file without a message on the console
    is a day the service answered with [None]. *)
Theorem backup_accounts_for_every_day (date_range : list date) (file : Path) (w : world) :
  let evs := new_events w (backup date_range file w) in
  Forall (fun day =>
            In day (map fst (fetched evs))
            \/ In (day, Returns None) (requests evs)
            \/ In (failure_message day) (prints evs))
         date_range.
Proof.
  cbv zeta. apply Forall_forall. intros day Hin. apply list_elem_of_In in Hin.
  destruct (backup_traffic date_range file w) as (evs & Hlog & Hother & _).
  rewrite (new_events_app _ _ _ Hlog).
  pose proof (day_logs_account date_range day Hin (api w)) as H. cbv zeta in H.
  rewrite <- Hother, fetched_other_events, requests_other_events, prints_other_events in H.
  exact H.
Qed.

(** ** The records of a run, repeated days included *)

Lemma dict_update_cons (batch : dict JSON) (item : date * JSON) (items : list (date * JSON)) :
  dict_update batch (item :: items) = dict_update (dict_set batch (fst item) (snd item)) items.
Proof. reflexivity. Qed.

Lemma dict_update_not_nil (items : list (date * JSON)) :
  items <> [] -> dict_update [] items <> [].
Proof.
  destruct items as [|[k v] items]; [congruence|]. intros _ Hnil.
  rewrite dict_update_cons in Hnil. cbn [fst snd] in Hnil.
  pose proof (len_dict_update items (dict_set [] k v)) as Hlen.
  pose proof (len_dict_set [] k v) as Hset.
  rewrite Hnil in Hlen. unfold len in Hlen at 2. cbn [length] in Hlen. lia.
Qed.

(** The batches [batching] makes are the dictionaries of consecutive
    groups of the items: the first group goes into the batch held at
    the start, every later one into an empty batch. *)
Lemma batching_segments (items : list (date * JSON)) :
  forall batch,
    (fst (batching batch items) = [] /\ snd (batching batch items) = dict_update batch items)
    \/ (exists first segs last,
          items = first ++ concat segs ++ last
          /\ first <> []
          /\ Forall (fun s => s <> []) segs
          /\ fst (batching batch items)
             = dict_update batch first :: map (dict_update []) segs
          /\ snd (batching batch items) = dict_update [] last).
Proof.
  induction items as [|item items IH]; intros batch; cbn [batching].
  - left. split; reflexivity.
  - destruct (len (dict_set batch (fst item) (snd item)) >=? BATCH_APPEND); cbn [fst snd].
    + right. destruct (IH []) as [[Hfull Hrest]|(first & segs & last & -> & Hne & Hall & Hfull & Hrest)].
      * exists [item], [], items. rewrite Hfull, Hrest. repeat split; [discriminate|constructor].
      * exists [item], (first :: segs), last. rewrite Hfull, Hrest. cbn [concat map app].
        rewrite <- app_assoc. repeat split; [discriminate|].
        constructor; assumption.
    + destruct (IH (dict_set batch (fst item) (snd item)))
        as [[Hfull Hrest]|(first & segs & last & -> & Hne & Hall & Hfull & Hrest)].
      * left. split; [exact Hfull|]. rewrite Hrest. reflexivity.
      * right. exists (item :: first), segs, last. rewrite Hfull, Hrest.
        repeat split; [discriminate|exact Hall].
Qed.

(** The one record of a day in the dictionary of a group of items. *)
Lemma dict_update_record (items : list (date * JSON)) (day : date) :
  (In day (map fst items) ->
   exists v l1 l2,
     items = l1 ++ (day, v) :: l2 /\ ~ In day (map fst l2)
     /\ List.filter (fun item => fst item =? day) (dict_update [] items) = [(day, v)])
  /\ (~ In day (map fst items) ->
      List.filter (fun item => fst item =? day) (dict_update [] items) = []).
Proof.
  destruct (dict_update_last items) as (Hnd & Hkeys & Hlast). split.
  - intros Hin. apply Hkeys in Hin. unfold keys in Hin. apply in_map_iff in Hin.
    destruct Hin as ([d v] & Hd & Hin). cbn [fst] in Hd. subst d.
    destruct (proj1 (Hlast day v) Hin) as (l1 & l2 & Heq & Hl2).
    exists v, l1, l2. split; [exact Heq|]. split; [exact Hl2|].
    apply filter_unique_key; [exact Hnd|exact Hin].
  - intros Hout. apply filter_absent_key. intros Hin. apply Hout, Hkeys. exact Hin.
Qed.

(** The flushes of a run are the dictionaries of consecutive groups of
    the records fetched. *)
Lemma backup_segments (date_range : list date) (file : Path) (w : world) :
  exists evs segments,
    log (backup date_range file w) = log w ++ evs
    /\ concat segments = fetched evs
    /\ Forall (fun s => s <> []) segments
    /\ file_events evs = flat_map (flush_events file) (map (dict_update []) segments)
    /\ writes file evs = map record_line (concat (map (dict_update []) segments)).
Proof.
  destruct (backup_batching date_range file w) as (evs & Hlog & Hfiles & _ & _).
  exists evs.
  assert (Hsegs : exists segments,
             concat segments = fetched evs
             /\ Forall (fun s => s <> []) segments
             /\ file_events evs = flat_map (flush_events file) (map (dict_update []) segments)).
  { assert (Hlast : forall last,
               final_flush file (dict_update [] last)
               = flat_map (flush_events file)
                   (map (dict_update []) (match last with [] => [] | _ :: _ => [last] end))
               /\ Forall (fun s : list (date * JSON) => s <> [])
                    (match last with [] => [] | _ :: _ => [last] end)
               /\ concat (match last with [] => [] | _ :: _ => [last] end) = last).
    { intros [|item last]; [repeat split; constructor|].
      cbn [map flat_map concat]. rewrite !app_nil_r.
      pose proof (dict_update_not_nil (item :: last)) as Hne.
      destruct (dict_update [] (item :: last)); [exfalso; apply Hne; [discriminate|reflexivity]|].
      repeat split. constructor; [discriminate|constructor]. }
    destruct (batching_segments (fetched evs) [])
      as [[Hfull Hrest]|(first & segs & last & Heq & Hne & Hall & Hfull & Hrest)];
      rewrite Hfull, Hrest in Hfiles.
    - destruct (Hlast (fetched evs)) as (Hflush & Hnonempty & Hconcat).
      exists (match fetched evs with [] => [] | _ :: _ => [fetched evs] end).
      cbn [flat_map app] in Hfiles. rewrite Hfiles. auto.
    - destruct (Hlast last) as (Hflush & Hnonempty & Hconcat).
      exists ((first :: segs) ++ match last with [] => [] | _ :: _ => [last] end).
      rewrite concat_app, Hconcat, map_app, flat_map_app, <- Hflush, Hfiles, Heq.
      cbn [concat map flat_map]. rewrite <- !app_assoc. repeat split.
      apply Forall_app. split; [constructor; assumption|exact Hnonempty]. }
  destruct Hsegs as (segments & Hconcat & Hall & Hflushes).
  exists segments. repeat split; try assumption.
  rewrite <- writes_file_events, Hflushes. apply writes_flushes.
Qed.

(** C6, for a range of distinct days, and what becomes of a day that is
    in the range more than once.  In a run of [backup] over distinct
    days, a day the API answered with a payload has exactly one record
    among those written to the file, and every record is the text
    [{"day": "<isoformat of the day>", "data": <dumps of the payload>}]
    followed by one line feed, where the text of a day is its year,
    month and day in the form YYYY-MM-DD.  For dates of the calendar the
    line of the day is at one place in the file only.  When the days of
    the range ascend, so do the days of the records.  The file ends with
    what it held before followed by the records, at the end of the run
    and after every turn of the loop; no other file changes.

    In a run over any range, every entry of the range is handed to the
    day fetcher, a day as often as it is in the range.  The records
    fetched, in order, fall into consecutive groups, one for each flush:
    a flush writes the dictionary of its group, which holds one record
    for each day of the group, with the payload fetched last in the
    group, and none for any other day.  A day fetched in several groups
    has a record in the flush of each of them. *)
Theorem backup_writes_one_record_per_day (date_range : list date) (file : Path) (w : world) :
  let w' := backup date_range file w in
  let evs := new_events w w' in
  (NoDup date_range ->
   writes file evs = map record_line (fetched evs)
   /\ (forall day v, In (day, v) (fetched evs) ->
         List.filter (fun item => fst item =? day) (fetched evs) = [(day, v)])
   /\ (Forall valid date_range ->
       forall day v, In (day, v) (fetched evs) ->
         exists i, writes file evs !! i = Some (record_line (day, v))
                   /\ forall j v', writes file evs !! j = Some (record_line (day, v')) -> j = i)
   /\ (forall day v,
         record_line (day, v)
         = "{" +:+ quoted "day" +:+ ": " +:+ quoted (isoformat day) +:+ ", "
               +:+ quoted "data" +:+ ": " +:+ dumps v +:+ "}" +:+ String LF EmptyString)
   /\ (forall day, valid day ->
         exists y m d,
           isoformat day = pad4 y +:+ "-" +:+ pad2 m +:+ "-" +:+ pad2 d
           /\ ymd2ord y m d = day
           /\ 1 <= y <= 9999 /\ 1 <= m <= 12 /\ 1 <= d <= 31)
   /\ (StronglySorted Z.lt date_range -> StronglySorted Z.lt (map fst (fetched evs)))
   /\ content (fs w') file = content (fs w) file +:+ join (map record_line (fetched evs))
   /\ (forall days1 days2, date_range = days1 ++ days2 ->
         exists written,
           content (fs (snd (backup_loop file days1 ([], w)))) file
           = content (fs w) file +:+ written)
   /\ (forall other, other <> file -> fs w' !! other = fs w !! other))
  /\ calls evs = date_range
  /\ content (fs w') file = content (fs w) file +:+ join (writes file evs)
  /\ exists segments : list (list (date * JSON)),
       concat segments = fetched evs
       /\ Forall (fun s => s <> []) segments
       /\ file_events evs = flat_map (flush_events file) (map (dict_update []) segments)
       /\ writes file evs = map record_line (concat (map (dict_update []) segments))
       /\ (forall s day, In s segments ->
             (In day (map fst s) ->
              exists v l1 l2,
                s = l1 ++ (day, v) :: l2 /\ ~ In day (map fst l2)
                /\ List.filter (fun item => fst item =? day) (dict_update [] s) = [(day, v)])
             /\ (~ In day (map fst s) ->
                 List.filter (fun item => fst item =? day) (dict_update [] s) = [])).
Proof.
  cbv zeta.
  destruct (backup_run date_range file w) as (evs & Hlog & Hcalls & Hsub & Hc & Ho & Hrec).
  rewrite (new_events_app _ _ _ Hlog).
  split; [|split; [exact Hcalls|split; [exact Hc|]]].
  - intros Hnd.
    assert (Hkeys : NoDup (map fst (fetched evs))) by (eapply sublist_NoDup; eassumption).
    split; [apply Hrec, Hnd|].
    split; [intros day v Hin; apply filter_unique_key; assumption|].
    split.
    { intros Hvalid day v Hin. rewrite (Hrec Hnd).
      apply list_elem_of_In, list_elem_of_lookup in Hin. destruct Hin as [i Hi].
      exists i. split.
      - change (map record_line (fetched evs)) with (record_line <$> fetched evs).
        rewrite list_lookup_fmap, Hi. reflexivity.
      - intros j v' Hj.
        apply (record_lines_unique (fetched evs) Hkeys
                 (fetched_days_valid _ _ Hsub Hvalid) day j i v' v).
        + rewrite Forall_forall in Hvalid. apply Hvalid.
          apply (sublist_subseteq _ _ Hsub). apply list_elem_of_In.
          apply (in_map fst _ (day, v)). apply list_elem_of_In, list_elem_of_lookup. eauto.
        + exact Hj.
        + change (map record_line (fetched evs)) with (record_line <$> fetched evs).
          rewrite list_lookup_fmap, Hi. reflexivity. }
    split.
    { intros day v. unfold record_line, json_object. cbn [fst snd].
      rewrite !append_assoc. reflexivity. }
    split.
    { intros day Vday. pose proof (ord2ymd_ranges day Vday) as R. unfold isoformat.
      destruct (ord2ymd day) as [[y m] d]. exists y, m, d.
      destruct R as (E & Hy & Hm & Hd). repeat split; try assumption; lia. }
    split; [intros Hs; apply (sublist_StronglySorted _ _ _ Hsub Hs)|].
    split; [rewrite Hc, (Hrec Hnd); reflexivity|].
    split; [|exact Ho].
    intros days1 days2 _.
    destruct (backup_loop_run file days1 ([], w)) as [evs1 [_ _ _ Lc _ _ _]].
    cbn [fst snd] in Lc. eexists. exact Lc.
  - destruct (backup_segments date_range file w)
      as (evs' & segments & Hlog' & Hconcat & Hall & Hfiles & Hwrites).
    assert (evs' = evs) as ->
        by (rewrite Hlog in Hlog'; apply app_inv_head in Hlog'; congruence).
    exists segments. repeat split; try assumption; apply dict_update_record.
Qed.

End Backup.

(** ** The default range of days *)

Lemma comprehension_total {A B : Type} (f : A -> option B) (g : A -> B) (l : list A) :
  (forall x, In x l -> f x = Some (g x)) -> comprehension f l = Some (map g l).
Proof.
  induction l as [|x l IH]; intros H; [reflexivity|].
  cbn [comprehension map]. rewrite (H x) by (left; reflexivity).
  rewrite IH; [reflexivity|]. intros y Hy. apply H. right. exact Hy.
Qed.

Lemma in_range (n k : Z) : In k (range n) -> 0 <= k < n.
Proof.
  unfold range. intros H. apply in_map_iff in H. destruct H as (i & <- & Hi).
  apply in_seq in Hi. lia.
Qed.

Lemma map_add_range (start n : Z) : map (fun k => start + k) (range n) = seqZ start n.
Proof.
  unfold range, seqZ. rewrite map_map. apply map_ext. intros i. lia.
Qed.

(** C9: from the day [start] the device was associated with the account
    to the current day [end_], the default range is
    [start], [start + 1 day], ..., [end_ - 1 day]: one entry for each day,
    [end_ - start] entries in all, the first day included and the
    current day left out, so that the last entry is yesterday; the range
    is empty when the two days are the same. *)
Theorem dates_enumerates (start end_ : date) :
  valid start -> valid end_ ->
  dates start end_ = Some (seqZ start (end_ - start))
  /\ length (seqZ start (end_ - start)) = Z.to_nat (end_ - start)
  /\ (forall i, 0 <= i < end_ - start ->
        seqZ start (end_ - start) !! Z.to_nat i = Some (start + i))
  /\ (forall day, In day (seqZ start (end_ - start)) <-> start <= day < end_)
  /\ (start < end_ -> last (seqZ start (end_ - start)) = Some (end_ - 1))
  /\ (start = end_ -> dates start end_ = Some []).
Proof.
  intros [Hs1 Hs2] [He1 He2].
  assert (Hd : dates start end_ = Some (seqZ start (end_ - start))).
  { unfold dates, sub. cbn [days].
    rewrite (comprehension_total _ (fun k => start + k)).
    - rewrite map_add_range. reflexivity.
    - intros k Hk. apply in_range in Hk. unfold timedelta_of_days, add.
      unfold MAXORDINAL in *.
      destruct (Z.leb_spec (Z.abs k) 999999999); [|lia]. cbn [days].
      destruct (Z.ltb_spec 0 (start + k)); [|lia].
      destruct (Z.leb_spec (start + k) 3652059); [|lia].
      reflexivity. }
  split; [exact Hd|].
  split; [apply length_seqZ|].
  split; [intros i Hi; rewrite lookup_seqZ_lt by lia; f_equal; lia|].
  split; [intros day; rewrite <- list_elem_of_In, elem_of_seqZ; lia|].
  split.
  - intros Hlt.
    replace (end_ - start) with ((end_ - start - 1) + 1) by lia.
    rewrite seqZ_app by lia.
    rewrite (seqZ_cons _ 1) by lia. rewrite (seqZ_nil _ (Z.pred 1)) by lia.
    rewrite last_snoc. f_equal. lia.
  - intros ->. rewrite Hd, Z.sub_diag. reflexivity.
Qed.

(** ** Runs against the sample services *)

Lemma count_lines_string_of_uint (d : Decimal.uint) :
  count_lines (NilEmpty.string_of_uint d) = 0%nat.
Proof. induction d; cbn [NilEmpty.string_of_uint count_lines]; try rewrite IHd; reflexivity. Qed.

Lemma count_lines_string_of_int (i : Decimal.int) :
  count_lines (NilZero.string_of_int i) = 0%nat.
Proof.
  assert (H : forall d, count_lines (NilZero.string_of_uint d) = 0%nat).
  { intros d. destruct d; first [reflexivity | exact (count_lines_string_of_uint _)]. }
  destruct i as [d|d]; cbn [NilZero.string_of_int]; [apply H|].
  change (String "-" (NilZero.string_of_uint d)) with ("-" +:+ NilZero.string_of_uint d).
  rewrite count_lines_append, H. reflexivity.
Qed.

Lemma count_lines_str_int (n : Z) : count_lines (str_int n) = 0%nat.
Proof. apply count_lines_string_of_int. Qed.

(** ** The notebook's own range and file *)

(** Between two dates of the calendar no entry of the comprehension
    raises. *)
Lemma dates_between (start end_ : date) :
  valid start -> valid end_ -> dates start end_ = Some (seqZ start (end_ - start)).
Proof.
  intros [Hs1 Hs2] [He1 He2]. unfold dates, sub. cbn [days].
  rewrite (comprehension_total _ (fun k => start + k)).
  - rewrite map_add_range. reflexivity.
  - intros k Hk. apply in_range in Hk. unfold timedelta_of_days, add.
    unfold MAXORDINAL in *.
    destruct (Z.leb_spec (Z.abs k) 999999999); [|lia]. cbn [days].
    destruct (Z.ltb_spec 0 (start + k)); [|lia].
    destruct (Z.leb_spec (start + k) 3652059); [|lia].
    reflexivity.
Qed.

Lemma StronglySorted_seqZ (n : nat) :
  forall m, StronglySorted Z.lt (seqZ m (Z.of_nat n)).
Proof.
  induction n as [|n IH]; intros m.
  - constructor.
  - rewrite seqZ_cons by lia. replace (Z.pred (Z.of_nat (S n))) with (Z.of_nat n) by lia.
    constructor; [apply IH|].
    apply Forall_forall. intros x Hx. apply elem_of_seqZ in Hx. lia.
Qed.

(** X14: the range of a later day goes on from the range of an earlier
    one: when the notebook is run again on a later day, its range of
    days is the range of the earlier run followed by the days from the
    day of that run to the day before the later one. *)
Theorem dates_extends (start earlier later : date) :
  valid start -> valid earlier -> valid later ->
  start <= earlier <= later ->
  exists days1 days2,
    dates start earlier = Some days1
    /\ dates earlier later = Some days2
    /\ dates start later = Some (days1 ++ days2).
Proof.
  intros Vs Ve Vl Hle.
  exists (seqZ start (earlier - start)), (seqZ earlier (later - earlier)).
  rewrite !dates_between by assumption. repeat split.
  replace (later - start) with ((earlier - start) + (later - earlier)) by lia.
  rewrite seqZ_app by lia.
  replace (start + (earlier - start)) with earlier by lia. reflexivity.
Qed.

Section Defaults.

Context {JSON ApiState : Type}.

Variable dumps : JSON -> string.
Variable get_historical_data_raw : string -> date -> ApiState -> outcome JSON * ApiState.
Variable device_id : string.
Variable BATCH_APPEND : Z.
Variable RETRIES : Z.
Variable BACKOFF : N.

Local Abbreviation run :=
  (backup dumps get_historical_data_raw device_id BATCH_APPEND RETRIES BACKOFF).

(** X10: over the notebook's own range of days, from the day the device
    was associated with the account to the day before the current day,
    [backup] hands every day to the day fetcher once, in order, and
    writes one line for each day the service answered with a payload:
    the days of the records ascend, none of them is the current day or
    later, and no day has two lines.  No day is in this range twice, so
    that what holds for distinct days holds for it. *)
Theorem backup_default_range (start end_ : date) (file : Path) (w : World JSON ApiState) :
  valid start -> valid end_ ->
  exists date_range,
    dates start end_ = Some date_range
    /\ NoDup date_range
    /\ let evs := new_events w (run date_range file w) in
       calls evs = seqZ start (end_ - start)
       /\ writes file evs = map (record_line dumps) (fetched evs)
       /\ StronglySorted Z.lt (map fst (fetched evs))
       /\ Forall (fun day => start <= day < end_) (map fst (fetched evs))
       /\ (forall i j day v v',
             valid day ->
             writes file evs !! i = Some (record_line dumps (day, v)) ->
             writes file evs !! j = Some (record_line dumps (day, v')) ->
             i = j).
Proof.
  intros Vs Ve. exists (seqZ start (end_ - start)).
  split; [apply dates_between; assumption|].
  assert (Hnd : NoDup (seqZ start (end_ - start))) by apply NoDup_seqZ.
  split; [exact Hnd|]. cbv zeta.
  destruct (backup_run dumps get_historical_data_raw device_id BATCH_APPEND RETRIES BACKOFF
              (seqZ start (end_ - start)) file w)
    as (evs & Hlog & Hcalls & Hsub & _ & _ & Hrec).
  rewrite (new_events_app _ _ _ Hlog).
  assert (Hin : Forall (fun day => start <= day < end_) (seqZ start (end_ - start))).
  { apply Forall_forall. intros x Hx. apply elem_of_seqZ in Hx. lia. }
  assert (Hvalid : Forall valid (seqZ start (end_ - start))).
  { eapply Forall_impl; [exact Hin|]. intros x Hx. cbv beta in Hx. unfold valid in *. lia. }
  split; [exact Hcalls|]. split; [apply Hrec, Hnd|]. split; [|split].
  - eapply sublist_StronglySorted; [exact Hsub|].
    destruct (Z.le_gt_cases 0 (end_ - start)) as [Hpos|Hneg].
    + rewrite <- (Z2Nat.id (end_ - start)) by exact Hpos. apply StronglySorted_seqZ.
    + rewrite seqZ_nil by lia. constructor.
  - apply Forall_forall. intros x Hx. apply (sublist_subseteq _ _ Hsub) in Hx.
    rewrite Forall_forall in Hin. apply Hin. exact Hx.
  - intros i j day v v' Vday. rewrite (Hrec Hnd).
    apply (record_lines_unique dumps get_historical_data_raw device_id);
      [|eapply fetched_days_valid; eassumption|exact Vday].
    eapply sublist_NoDup; eassumption.
Qed.

(** The text of the current time tells the day and the time of day. *)
Lemma strftime_inj (t1 t2 : datetime) :
  valid_datetime t1 -> valid_datetime t2 -> strftime t1 = strftime t2 -> t1 = t2.
Proof.
  intros (Vd1 & Vh1 & Vm1 & Vs1) (Vd2 & Vh2 & Vm2 & Vs2) E.
  assert (Hiso : forall t,
             strftime t
             = isoformat (date_of t)
               +:+ "_" +:+ pad2 (hour t) +:+ "-" +:+ pad2 (minute t) +:+ "-" +:+ pad2 (second t)).
  { intros t. unfold strftime, isoformat. destruct (ord2ymd (date_of t)) as [[y m] d].
    rewrite !append_assoc. reflexivity. }
  rewrite !Hiso in E.
  assert (Hd : isoformat (date_of t1) = isoformat (date_of t2)).
  { apply (append_same_length _ _ _ _
             (eq_trans (length_isoformat _) (eq_sym (length_isoformat _))) E). }
  rewrite Hd in E. apply (inj (String.append _)) in E.
  unfold pad2 in E. rewrite !append_cons, !append_nil_l in E.
  injection E as H1 H2 H3 H4 H5 H6.
  assert (hour t1 = hour t2).
  { apply (pad2_inj get_historical_data_raw device_id); [lia|lia|]. unfold pad2. congruence. }
  assert (minute t1 = minute t2).
  { apply (pad2_inj get_historical_data_raw device_id); [lia|lia|]. unfold pad2. congruence. }
  assert (second t1 = second t2).
  { apply (pad2_inj get_historical_data_raw device_id); [lia|lia|]. unfold pad2. congruence. }
  assert (date_of t1 = date_of t2) by (apply (isoformat_inj get_historical_data_raw device_id); assumption).
  destruct t1, t2. cbn in *. congruence.
Qed.

(** X11: the name of the output file tells the reading of the clock
    the notebook took when it was started, and nothing else: in years
    of four digits, two runs have the same file name exactly when their
    readings are the same.  A run whose reading is another leaves the
    file of the first run as it is; a run with the same reading (in the
    same second, or at the same reading of a clock that was set back)
    has the same file, and its lines go after what the file holds. *)
Theorem FILENAME_of_its_reading (t1 t2 : datetime) (date_range : list date)
    (w : World JSON ApiState) :
  valid_datetime t1 -> valid_datetime t2 ->
  FIRST_FOUR_DIGIT_DAY <= date_of t1 -> FIRST_FOUR_DIGIT_DAY <= date_of t2 ->
  let w' := run date_range (FILENAME t2) w in
  (FILENAME t1 = FILENAME t2 <-> t1 = t2)
  /\ (t1 <> t2 -> fs w' !! FILENAME t1 = fs w !! FILENAME t1)
  /\ (t1 = t2 ->
      content (fs w') (FILENAME t1)
      = content (fs w) (FILENAME t1) +:+ join (writes (FILENAME t1) (new_events w w'))).
Proof.
  intros V1 V2 _ _. cbv zeta.
  assert (Hname : FILENAME t1 = FILENAME t2 <-> t1 = t2).
  { split; [|intros ->; reflexivity].
    intros E. unfold FILENAME in E.
    apply (inj (String.append _)) in E.
    apply strftime_inj; [exact V1|exact V2|].
    assert (Hlen : forall t, String.length (strftime t) = 19%nat).
    { intros t. unfold strftime. destruct (ord2ymd (date_of t)) as [[y m] d]. reflexivity. }
    apply (append_same_length _ _ _ _ (eq_trans (Hlen _) (eq_sym (Hlen _))) E). }
  destruct (backup_run dumps get_historical_data_raw device_id BATCH_APPEND RETRIES BACKOFF
              date_range (FILENAME t2) w)
    as (evs & Hlog & _ & _ & Hc & Hothers & _).
  rewrite (new_events_app _ _ _ Hlog).
  split; [exact Hname|]. split.
  - intros Hne. apply Hothers. intros E. apply Hne, Hname. exact E.
  - intros ->. exact Hc.
Qed.

(** X16: over distinct days the threshold of the batches does not show
    in the outcome: with any two thresholds a run leaves the same
    files, writes the same lines in the same order, leaves the service
    in the same state and makes the same calls, messages and sleeps.
    The threshold decides when the lines are written, not which. *)
Theorem backup_threshold_invisible (threshold1 threshold2 : Z) (date_range : list date)
    (file : Path) (w : World JSON ApiState) :
  NoDup date_range ->
  let w1 := backup dumps get_historical_data_raw device_id threshold1 RETRIES BACKOFF
              date_range file w in
  let w2 := backup dumps get_historical_data_raw device_id threshold2 RETRIES BACKOFF
              date_range file w in
  fs w1 = fs w2
  /\ api w1 = api w2
  /\ writes file (new_events w w1) = writes file (new_events w w2)
  /\ other_events (new_events w w1) = other_events (new_events w w2).
Proof.
  intros Hnd. cbv zeta.
  destruct (backup_outcome dumps get_historical_data_raw device_id threshold1 RETRIES BACKOFF
              date_range file w Hnd) as (evs1 & Hlog1 & Hother1 & Hapi1 & Hw1 & Hfs1).
  destruct (backup_outcome dumps get_historical_data_raw device_id threshold2 RETRIES BACKOFF
              date_range file w Hnd) as (evs2 & Hlog2 & Hother2 & Hapi2 & Hw2 & Hfs2).
  rewrite (new_events_app _ _ _ Hlog1), (new_events_app _ _ _ Hlog2).
  rewrite Hfs1, Hfs2, Hapi1, Hapi2, Hw1, Hw2, Hother1, Hother2. repeat split.
Qed.


End Defaults.

(** Three days, the second of which the service has no data for, with
    three attempts a day: all three are handed to the day fetcher, and
    the records of the first and the third are written. *)
Lemma backup_each_day_once_witness :
  NoDup [730120; 730121; 730122]
  /\ calls (new_events Service.fresh
              (backup str_int (Service.outage 730121) "meter" 15 3 2%N
                 [730120; 730121; 730122] "backup.jsonl" Service.fresh))
     = [730120; 730121; 730122]
  /\ writes "backup.jsonl"
       (new_events Service.fresh
          (backup str_int (Service.outage 730121) "meter" 15 3 2%N
             [730120; 730121; 730122] "backup.jsonl" Service.fresh))
     = map (record_line str_int) [(730120, 730120); (730122, 730122)].
Proof.
  assert (Hnd : NoDup [730120; 730121; 730122]).
  { apply NoDup_ListNoDup. repeat constructor; cbn; lia. }
  destruct (backup_each_day_once str_int (Service.outage 730121) "meter" 15 3 2%N
              _ "backup.jsonl" Service.fresh Hnd) as (Hc & _ & Hw & _).
  split; [exact Hnd|]. split; [exact Hc|]. rewrite Hw. reflexivity.
Defined.

(** A threshold of two: after the first day the batch holds one entry,
    and the turn of the second day, which fills it, ends with the empty
    batch. *)
Lemma backup_batch_bounded_witness :
  0 < 2
  /\ len (fst (backup_loop str_int Service.steady "meter" 2 3 2%N "backup.jsonl"
                 [730120] ([], Service.fresh))) < 2
  /\ fst (backup_step str_int Service.steady "meter" 2 3 2%N "backup.jsonl"
            (backup_loop str_int Service.steady "meter" 2 3 2%N "backup.jsonl"
               [730120] ([], Service.fresh))
            730121)
     = [].
Proof.
  assert (Hpos : 0 < 2) by reflexivity.
  destruct (backup_batch_bounded str_int Service.steady "meter" 2 3 2%N
              [730120; 730121; 730122] "backup.jsonl" Service.fresh Hpos
              [730120] [730121; 730122] eq_refl) as (Hhead & Hturn & _).
  split; [exact Hpos|]. split; [exact Hhead|].
  destruct (Hturn 730121 [730122] 730121 _ eq_refl eq_refl) as (_ & Hfull & _).
  rewrite (Hfull eq_refl). reflexivity.
Defined.

(** Nine failures and an answer at the tenth attempt, with
    [RETRIES = 10] and [BACKOFF = 2]: nine sleeps of 2, 4, ..., 18
    seconds, and one record. *)
Lemma backup_date_linear_backoff_witness :
  failures (Service.flaky 9) "meter" 730120 9 (api Service.fresh)
  = Some (repeat "timed out" 9, 9%nat)
  /\ fst (backup_date (Service.flaky 9) "meter" 10 2%N 730120 Service.fresh) = Some 730120
  /\ sleeps (new_events Service.fresh
               (snd (backup_date (Service.flaky 9) "meter" 10 2%N 730120 Service.fresh)))
     = [2; 4; 6; 8; 10; 12; 14; 16; 18]
  /\ writes "backup.jsonl"
       (new_events Service.fresh
          (backup str_int (Service.flaky 9) "meter" 15 10 2%N [730120] "backup.jsonl"
             Service.fresh))
     = [record_line str_int (730120, 730120)].
Proof.
  assert (Hf : failures (Service.flaky 9) "meter" 730120 9 (api Service.fresh)
               = Some (repeat "timed out" 9, 9%nat)) by reflexivity.
  destruct (backup_date_linear_backoff str_int (Service.flaky 9) "meter" 15 10 2%N
              730120 Service.fresh 9 _ 9%nat 10%nat (Some 730120)
              eq_refl Hf eq_refl) as (Hres & _ & _ & Hnine & Hrec).
  split; [exact Hf|]. split; [exact Hres|]. split.
  - exact (Hnine eq_refl eq_refl).
  - exact (Hrec "backup.jsonl" 730120 eq_refl).
Defined.


(** Twenty days from 2000-01-01 against a service that always answers:
    twenty texts are written, and the new file has twenty lines. *)
Lemma backup_twenty_days_witness :
  always_answers Service.steady "meter"
  /\ length (writes "backup.jsonl"
               (new_events Service.fresh
                  (backup str_int Service.steady "meter" 15 10 2%N (seqZ 730120 20)
                     "backup.jsonl" Service.fresh)))
     = 20%nat
  /\ count_lines
       (content
          (fs (backup str_int Service.steady "meter" 15 10 2%N (seqZ 730120 20)
                 "backup.jsonl" Service.fresh))
          "backup.jsonl")
     = 20%nat.
Proof.
  assert (Hans : always_answers Service.steady "meter").
  { intros day a. exists day, (S a). reflexivity. }
  destruct (backup_twenty_days str_int Service.steady "meter" 15 10 2%N 730120
              "backup.jsonl" Service.fresh eq_refl eq_refl Hans)
    as (first & second & _ & _ & _ & _ & _ & Hlen & _ & Hlines).
  split; [exact Hans|]. split; [exact Hlen|].
  destruct (Hlines count_lines_str_int) as (_ & Hnew). exact (Hnew eq_refl).
Defined.

(** The three days again: the third has exactly one record, and the
    days of the records ascend. *)
Lemma backup_writes_one_record_per_day_witness :
  NoDup [730120; 730121; 730122]
  /\ List.filter (fun item => fst item =? 730122)
       (fetched
          (new_events Service.fresh
             (backup str_int (Service.outage 730121) "meter" 15 3 2%N
                [730120; 730121; 730122] "backup.jsonl" Service.fresh)))
     = [(730122, 730122)]
  /\ StronglySorted Z.lt
       (map fst
          (fetched
             (new_events Service.fresh
                (backup str_int (Service.outage 730121) "meter" 15 3 2%N
                   [730120; 730121; 730122] "backup.jsonl" Service.fresh)))).
Proof.
  assert (Hnd : NoDup [730120; 730121; 730122]).
  { apply NoDup_ListNoDup. repeat constructor; cbn; lia. }
  destruct (backup_writes_one_record_per_day str_int (Service.outage 730121) "meter"
              15 3 2%N [730120; 730121; 730122] "backup.jsonl" Service.fresh)
    as (Hdistinct & _).
  destruct (Hdistinct Hnd) as (_ & Hone & _ & _ & _ & Hsorted & _).
  split; [exact Hnd|]. split.
  - apply Hone. right. left. reflexivity.
  - apply Hsorted. repeat constructor; lia.
Defined.

(** The device associated on 2000-01-01 and the notebook run on
    2000-01-06: the five days from the first to the fifth of January. *)
Lemma dates_enumerates_witness :
  valid 730120 /\ valid 730125
  /\ dates 730120 730125 = Some [730120; 730121; 730122; 730123; 730124]
  /\ last (seqZ 730120 (730125 - 730120)) = Some (730125 - 1).
Proof.
  assert (H1 : valid 730120) by (unfold valid, MAXORDINAL; lia).
  assert (H2 : valid 730125) by (unfold valid, MAXORDINAL; lia).
  destruct (dates_enumerates 730120 730125 H1 H2) as (Hd & _ & _ & _ & Hlast & _).
  split; [exact H1|]. split; [exact H2|]. split; [exact Hd|]. apply Hlast. reflexivity.
Defined.

(** A service that is down, with [RETRIES = 10] and [BACKOFF = 2]: ten
    sleeps, the last of twenty seconds. *)
Lemma backup_date_sleeps_after_last_attempt_witness :
  failures Service.down "meter" 730120 (Z.to_nat 10) (api Service.fresh)
  = Some (repeat "service unavailable" 10, 10%nat)
  /\ fst (backup_date Service.down "meter" 10 2%N 730120 Service.fresh) = None
  /\ sleeps (new_events Service.fresh
               (snd (backup_date Service.down "meter" 10 2%N 730120 Service.fresh)))
     = map (fun attempt => 2 * attempt) (seqZ 1 10)
  /\ last (sleeps (new_events Service.fresh
                     (snd (backup_date Service.down "meter" 10 2%N 730120 Service.fresh))))
     = Some 20.
Proof.
  assert (Hf : failures Service.down "meter" 730120 (Z.to_nat 10) (api Service.fresh)
               = Some (repeat "service unavailable" 10, 10%nat)) by reflexivity.
  destruct (backup_date_sleeps_after_last_attempt Service.down "meter" 10 2%N 730120
              Service.fresh _ _ Hf) as (Hres & _ & Hsleeps & _).
  split; [exact Hf|]. split; [exact Hres|]. split; [exact Hsleeps|].
  rewrite Hsleeps. reflexivity.
Defined.

(** *** More runs *)

(** A threshold of one and two days: two flushes of one line. *)
Lemma backup_threshold_one_witness :
  1 <= 1
  /\ file_events
       (new_events Service.fresh
          (backup str_int Service.steady "meter" 1 10 2%N [730120; 730121]
             "backup.jsonl" Service.fresh))
     = [Open "backup.jsonl"; Write "backup.jsonl" (record_line str_int (730120, 730120));
        Close "backup.jsonl";
        Open "backup.jsonl"; Write "backup.jsonl" (record_line str_int (730121, 730121));
        Close "backup.jsonl"].
Proof.
  assert (H : 1 <= 1) by lia.
  destruct (backup_threshold_one str_int Service.steady "meter" 1 10 2%N [730120; 730121]
              "backup.jsonl" Service.fresh H) as [Hfiles _].
  split; [exact H|]. rewrite Hfiles. reflexivity.
Defined.

(** The first day once more after the second, against a service that
    numbers its answers: the record of the first day holds the third
    answer. *)
Lemma backup_short_range_last_payload_witness :
  Z.of_nat (length [730120; 730121; 730120]) < 15
  /\ writes "backup.jsonl"
       (new_events Service.fresh
          (backup str_int Service.counting "meter" 15 10 2%N [730120; 730121; 730120]
             "backup.jsonl" Service.fresh))
     = map (record_line str_int) [(730120, 2); (730121, 1)].
Proof.
  assert (H : Z.of_nat (length [730120; 730121; 730120]) < 15) by (cbn; lia).
  destruct (backup_short_range_last_payload str_int Service.counting "meter" 15 10 2%N
              [730120; 730121; 730120] "backup.jsonl" Service.fresh H)
    as (_ & _ & Hw & _).
  split; [exact H|]. rewrite Hw. reflexivity.
Defined.

(** Two days and then a third, with a threshold of two, against one run
    over the three days. *)
Lemma backup_in_two_runs_witness :
  NoDup ([730120; 730121] ++ [730122])
  /\ fs (backup str_int Service.steady "meter" 2 10 2%N [730122] "backup.jsonl"
           (backup str_int Service.steady "meter" 2 10 2%N [730120; 730121] "backup.jsonl"
              Service.fresh))
     = fs (backup str_int Service.steady "meter" 2 10 2%N ([730120; 730121] ++ [730122])
             "backup.jsonl" Service.fresh).
Proof.
  assert (Hnd : NoDup ([730120; 730121] ++ [730122])).
  { apply NoDup_ListNoDup. repeat constructor; cbn; lia. }
  destruct (backup_in_two_runs str_int Service.steady "meter" 2 10 2%N
              [730120; 730121] [730122] "backup.jsonl" Service.fresh Hnd) as (Hfs & _).
  split; [exact Hnd|exact Hfs].
Defined.

(** No attempt allowed: two days, two failure messages, no call. *)
Lemma backup_no_attempt_witness :
  0 <= 0
  /\ backup str_int Service.steady "meter" 15 0 2%N [730120; 730121] "backup.jsonl" Service.fresh
     = {| api := 0%nat; fs := ∅;
          log := [Call 730120; Print "Failed to fetch data for 2000-01-01 after 0 retries";
                  Call 730121; Print "Failed to fetch data for 2000-01-02 after 0 retries"] |}.
Proof.
  assert (H : 0 <= 0) by lia.
  split; [exact H|].
  rewrite (backup_no_attempt str_int Service.steady "meter" 15 0 2%N [730120; 730121]
             "backup.jsonl" Service.fresh H).
  reflexivity.
Defined.

(** The device associated on 2000-01-01 and the notebook run on
    2000-01-04. *)
Lemma backup_default_range_witness :
  valid 730120 /\ valid 730123
  /\ exists date_range,
       dates 730120 730123 = Some date_range
       /\ calls (new_events Service.fresh
                   (backup str_int Service.steady "meter" 15 10 2%N date_range
                      "backup.jsonl" Service.fresh))
          = [730120; 730121; 730122].
Proof.
  assert (H1 : valid 730120) by (unfold valid, MAXORDINAL; lia).
  assert (H2 : valid 730123) by (unfold valid, MAXORDINAL; lia).
  destruct (backup_default_range str_int Service.steady "meter" 15 10 2%N
              730120 730123 "backup.jsonl" Service.fresh H1 H2)
    as (date_range & Hd & _ & Hcalls & _).
  split; [exact H1|]. split; [exact H2|].
  exists date_range. split; [exact Hd|exact Hcalls].
Defined.

(** Two runs a second apart: two files. *)
Lemma FILENAME_of_its_reading_witness :
  FILENAME {| date_of := 730120; hour := 8; minute := 30; second := 0 |}
  = "poweropti_backup_2000-01-01_08-30-00.jsonl"
  /\ FILENAME {| date_of := 730120; hour := 8; minute := 30; second := 0 |}
     <> FILENAME {| date_of := 730120; hour := 8; minute := 30; second := 1 |}.
Proof.
  split; [reflexivity|].
  assert (V : forall s, 0 <= s < 60 ->
                valid_datetime {| date_of := 730120; hour := 8; minute := 30; second := s |}).
  { intros s Hs. unfold valid_datetime, valid, MAXORDINAL. cbn. lia. }
  assert (F : FIRST_FOUR_DIGIT_DAY <= 730120) by (unfold FIRST_FOUR_DIGIT_DAY; lia).
  destruct (FILENAME_of_its_reading str_int Service.steady "meter" 15 10 2%N
              {| date_of := 730120; hour := 8; minute := 30; second := 0 |}
              {| date_of := 730120; hour := 8; minute := 30; second := 1 |}
              [] Service.fresh (V 0 ltac:(lia)) (V 1 ltac:(lia)) F F) as (Hname & _).
  intros E. apply Hname in E. discriminate E.
Defined.

(** Three days with the payloads in decimal: three lines. *)
Lemma backup_one_line_per_write_witness :
  (forall v, count_lines (str_int v) = 0%nat)
  /\ count_lines
       (content
          (fs (backup str_int Service.steady "meter" 15 10 2%N [730120; 730121; 730122]
                 "backup.jsonl" Service.fresh))
          "backup.jsonl")
     = 3%nat.
Proof.
  split; [exact count_lines_str_int|].
  destruct (backup_one_line_per_write str_int Service.steady "meter" 15 10 2%N
              [730120; 730121; 730122] "backup.jsonl" Service.fresh count_lines_str_int)
    as (_ & Hlines & _).
  rewrite Hlines. reflexivity.
Defined.

(** The range of 2000-01-06 goes on from the range of 2000-01-03. *)
Lemma dates_extends_witness :
  valid 730120 /\ valid 730122 /\ valid 730125 /\ 730120 <= 730122 <= 730125
  /\ exists days1 days2,
       dates 730120 730122 = Some days1
       /\ dates 730122 730125 = Some days2
       /\ dates 730120 730125 = Some (days1 ++ days2).
Proof.
  assert (H1 : valid 730120) by (unfold valid, MAXORDINAL; lia).
  assert (H2 : valid 730122) by (unfold valid, MAXORDINAL; lia).
  assert (H3 : valid 730125) by (unfold valid, MAXORDINAL; lia).
  assert (H4 : 730120 <= 730122 <= 730125) by lia.
  repeat (split; [assumption|]).
  exact (dates_extends 730120 730122 730125 H1 H2 H3 H4).
Defined.


(** Three days against a service that answers: three calls, no message
    and no sleep. *)
Lemma backup_all_answered_witness :
  always_answers Service.steady "meter" /\ 0 < 10
  /\ map fst
       (requests
          (new_events Service.fresh
             (backup str_int Service.steady "meter" 15 10 2%N [730120; 730121; 730122]
                "backup.jsonl" Service.fresh)))
     = [730120; 730121; 730122]
  /\ sleeps
       (new_events Service.fresh
          (backup str_int Service.steady "meter" 15 10 2%N [730120; 730121; 730122]
             "backup.jsonl" Service.fresh))
     = [].
Proof.
  assert (Hans : always_answers Service.steady "meter").
  { intros day a. exists day, (S a). reflexivity. }
  assert (Hpos : 0 < 10) by lia.
  destruct (backup_all_answered str_int Service.steady "meter" 15 10 2%N
              [730120; 730121; 730122] "backup.jsonl" Service.fresh Hans Hpos)
    as (Hreq & _ & _ & Hsleeps & _).
  split; [exact Hans|]. split; [exact Hpos|]. split; [exact Hreq|exact Hsleeps].
Defined.

(** Three days with a threshold of two and with the threshold of the
    notebook: the same file. *)
Lemma backup_threshold_invisible_witness :
  NoDup [730120; 730121; 730122]
  /\ fs (backup str_int Service.steady "meter" 2 10 2%N [730120; 730121; 730122]
           "backup.jsonl" Service.fresh)
     = fs (backup str_int Service.steady "meter" 15 10 2%N [730120; 730121; 730122]
             "backup.jsonl" Service.fresh).
Proof.
  assert (Hnd : NoDup [730120; 730121; 730122]).
  { apply NoDup_ListNoDup. repeat constructor; cbn; lia. }
  destruct (backup_threshold_invisible str_int Service.steady "meter" 10 2%N 2 15
              [730120; 730121; 730122] "backup.jsonl" Service.fresh Hnd) as (Hfs & _).
  split; [exact Hnd|exact Hfs].
Defined.


(** *** What the notebook prints and writes *)

Example isoformat_epoch : isoformat 719163 = "1970-01-01".
Proof. reflexivity. Qed.

Example isoformat_y2k : isoformat 730120 = "2000-01-01".
Proof. reflexivity. Qed.

Example isoformat_leap_day : isoformat 738945 = "2024-02-29".
Proof. reflexivity. Qed.

Example isoformat_new_years_eve : isoformat 739251 = "2024-12-31".
Proof. reflexivity. Qed.

Example isoformat_first : isoformat 1 = "0001-01-01".
Proof. reflexivity. Qed.

Example isoformat_last : isoformat MAXORDINAL = "9999-12-31".
Proof. reflexivity. Qed.

Example record_line_y2k :
  record_line str_int (730120, 42)
  = "{" +:+ dquote +:+ "day" +:+ dquote +:+ ": " +:+ dquote +:+ "2000-01-01" +:+ dquote
        +:+ ", " +:+ dquote +:+ "data" +:+ dquote +:+ ": 42}" +:+ String LF EmptyString.
Proof. reflexivity. Qed.

Example failure_message_y2k :
  failure_message 10 730120 = "Failed to fetch data for 2000-01-01 after 10 retries".
Proof. reflexivity. Qed.

Example error_message_y2k :
  error_message 730120 "timed out" = "Error while fetching data for 2000-01-01: timed out".
Proof. reflexivity. Qed.

(** The log of one day against a service that fails twice. *)
Example backup_date_flaky_log :
  new_events Service.fresh (snd (backup_date (Service.flaky 2) "meter" 10 2%N 730120 Service.fresh))
  = [Call 730120;
     Request 730120 (Raises "timed out");
     Print "Error while fetching data for 2000-01-01: timed out";
     Sleep 2;
     Request 730120 (Raises "timed out");
     Print "Error while fetching data for 2000-01-01: timed out";
     Sleep 4;
     Request 730120 (Returns (Some 730120))].
Proof. reflexivity. Qed.

(** A day the service answers [null] for is skipped like a day that
    failed: [backup_date] returns [None], without a retry and without a
    message, and nothing is written. *)
Example backup_null_payload :
  new_events Service.fresh
    (backup str_int Service.silent "meter" 15 10 2%N [730120] "backup.jsonl" Service.fresh)
  = [Call 730120; Request 730120 (Returns None)].
Proof. reflexivity. Qed.

(** The same day twice in the range, in one batch: the second payload
    takes the place of the first, and one record is written. *)
Example dict_set_same_day :
  dict_set (dict_set (dict_set [] 730120 1) 730121 2) 730120 3 = [(730120, 3); (730121, 2)].
Proof. reflexivity. Qed.

(** Sixteen entries in ascending order, the last day twice, against a
    service that always answers, with the settings of the notebook: the
    fifteenth entry fills the batch, which is flushed, and the
    sixteenth, the same day again, goes into the next batch.  The day
    was fetched, and the file gets two records of it, not one. *)
Lemma backup_repeated_day_two_records :
  Sorted Z.le (seqZ 730120 15 ++ [730134])
  /\ In (730134, 730134)
       (fetched
          (new_events Service.fresh
             (backup str_int Service.steady "meter" 15 10 2%N (seqZ 730120 15 ++ [730134])
                "backup.jsonl" Service.fresh)))
  /\ count_occ string_dec
       (writes "backup.jsonl"
          (new_events Service.fresh
             (backup str_int Service.steady "meter" 15 10 2%N (seqZ 730120 15 ++ [730134])
                "backup.jsonl" Service.fresh)))
       (record_line str_int (730134, 730134))
     = 2%nat.
Proof.
  split; [|split].
  - repeat constructor; lia.
  - vm_compute. do 14 right. left. reflexivity.
  - vm_compute. reflexivity.
Qed.
